(** * Vision fusion and trajectory planning core: a shallow embedding

    The development follows the C++ sources of the tracking core
    (tracker, ball ground collision filter, coordinate conversion) and of
    the trajectory planner (speed profiles, alpha-time search, trajectory
    path planner, obstacle model).

    Numbers.  The sources compute with IEEE binary32 [float]; the embedding
    computes with the real numbers [R] of the standard library, that is,
    with the exact value every floating point operation rounds.  Two
    conventions differ and are kept away from the statements below:
    division by zero (total in [R], an infinity or a NaN in the source) and
    the infinite value itself, which is embedded by the type [xfloat]
    where the source stores it.  Timestamps are [qint64] nanoseconds and are
    embedded as [Z]. *)

From Stdlib Require Import Reals Lra Psatz ZArith List Bool Lia.
From stdpp Require Import gmap sorting.
Import ListNotations.

#[local] Open Scope R_scope.

(** ** Comparisons of floats as booleans *)

Module Cmp.

Definition Rltb (a b : R) : bool := if Rlt_dec a b then true else false.
Definition Rleb (a b : R) : bool := if Rle_dec a b then true else false.
Definition Rgtb (a b : R) : bool := Rltb b a.
Definition Rgeb (a b : R) : bool := Rleb b a.
Definition Reqb (a b : R) : bool := if Req_dec_T a b then true else false.

End Cmp.
Import Cmp.

(** ** core/vector.h: the 2-D vector

    The header is not among the sources at hand; the operations are the
    ones its users call, with their usual meaning. *)

Record Vector : Type := mkVector { vx : R; vy : R }.

Module Vec.

Definition zero : Vector := mkVector 0 0.
Definition add (a b : Vector) : Vector := mkVector (vx a + vx b) (vy a + vy b).
Definition sub (a b : Vector) : Vector := mkVector (vx a - vx b) (vy a - vy b).
Definition scale (a : Vector) (k : R) : Vector := mkVector (vx a * k) (vy a * k).
Definition neg (a : Vector) : Vector := mkVector (- vx a) (- vy a).
Definition dot (a b : Vector) : R := vx a * vx b + vy a * vy b.
Definition lengthSquared (a : Vector) : R := vx a * vx a + vy a * vy a.
Definition length (a : Vector) : R := sqrt (lengthSquared a).
Definition distanceSq (a b : Vector) : R := lengthSquared (sub b a).
Definition distance (a b : Vector) : R := length (sub b a).
Definition abs (a : Vector) : Vector := mkVector (Rabs (vx a)) (Rabs (vy a)).
Definition eqb (a b : Vector) : bool := Reqb (vx a) (vx b) && Reqb (vy a) (vy b).

End Vec.

Declare Scope vec_scope.
Delimit Scope vec_scope with vec.
Infix "+v" := Vec.add (at level 50, left associativity) : vec_scope.
Infix "-v" := Vec.sub (at level 50, left associativity) : vec_scope.
Infix "*v" := Vec.scale (at level 40, left associativity) : vec_scope.
#[local] Open Scope vec_scope.

(** ** core/coordinates.h *)

Module coordinates.

(** [fromVision]: [x = -detectionY / 1000], [y = detectionX / 1000]. *)
Definition fromVision (from : Vector) : Vector :=
  let detectionX := vx from in
  let detectionY := vy from in
  let x := - detectionY / 1000 in
  let y := detectionX / 1000 in
  mkVector x y.

(** [toVision]: [visionX = y * 1000], [visionY = -x * 1000]. *)
Definition toVision (from : Vector) : Vector :=
  let x := vx from in
  let y := vy from in
  let visionX := y * 1000 in
  let visionY := - x * 1000 in
  mkVector visionX visionY.

End coordinates.

(** ** core/linesegment.h

    The header is not among the sources at hand.  [distance] is the
    distance from a point to the closest point of the segment, the meaning
    its callers (the line obstacles) rely on. *)

Module LineSegment.

Record t : Type := mk { start : Vector; end_ : Vector }.

Definition clamp01 (u : R) : R := Rmax 0 (Rmin 1 u).

Definition distance (seg : t) (pos : Vector) : R :=
  let d := end_ seg -v start seg in
  if Reqb (Vec.lengthSquared d) 0 then Vec.distance pos (start seg)
  else
    let u := clamp01 (Vec.dot (pos -v start seg) d / Vec.lengthSquared d) in
    Vec.distance pos (start seg +v d *v u).

End LineSegment.

(** ** path.cpp: the static obstacles and the playfield test *)

(** [std::numeric_limits<float>::max()] of binary32. *)
Definition FLT_MAX : R := (2 - / 2 ^ 23) * 2 ^ 127.

(** [Vector::det(a, b, c)]: twice the signed area of the triangle. *)
Definition det (a b c : Vector) : R :=
  (vx b - vx a) * (vy c - vy a) - (vy b - vy a) * (vx c - vx a).

Module Path.

Record Rect : Type := mkRect { bottom_left : Vector; top_right : Vector }.

Inductive Obstacle : Type :=
| Circle (center : Vector) (radius : R) (prio : Z)
| RectObstacle (r : Rect) (prio : Z)
| Triangle (p1 p2 p3 : Vector) (lineWidth : R) (prio : Z)
| Line (segment : LineSegment.t) (width : R) (prio : Z).

Definition prio (o : Obstacle) : Z :=
  match o with
  | Circle _ _ p | RectObstacle _ p | Triangle _ _ _ _ p | Line _ _ p => p
  end.

Definition Rect_distance (r : Rect) (v : Vector) : R :=
  let distX := Rmax (vx (bottom_left r) - vx v) (vx v - vx (top_right r)) in
  let distY := Rmax (vy (bottom_left r) - vy v) (vy v - vy (top_right r)) in
  if Rgeb distX 0 && Rgeb distY 0 then sqrt (distX * distX + distY * distY)
  else if Rltb distX 0 && Rltb distY 0 then Rmax distX distY
  else if Rltb distX 0 then distY
  else distX.

Definition Triangle_distance (p1 p2 p3 : Vector) (lineWidth : R) (v : Vector) : R :=
  let det1 := det p2 p3 v / Vec.distance p2 p3 in
  let det2 := det p3 p1 v / Vec.distance p3 p1 in
  let det3 := det p1 p2 v / Vec.distance p1 p2 in
  if Rgeb det1 0 && Rgeb det2 0 && Rgeb det3 0 then
    - Rmin det1 (Rmin det2 det3) - lineWidth
  else if Rltb (det1 * det2 * det3) 0 then
    - Rmin det1 (Rmin det2 det3) - lineWidth
  else if Rgtb det1 0 then Vec.distance p1 v - lineWidth
  else if Rgtb det2 0 then Vec.distance p2 v - lineWidth
  else if Rgtb det3 0 then Vec.distance p3 v - lineWidth
  else 42.

(** [Obstacle::distance(const Vector &)], by variant. *)
Definition distance (o : Obstacle) (v : Vector) : R :=
  match o with
  | Circle center radius _ => Vec.distance v center - radius
  | RectObstacle r _ => Rect_distance r v
  | Triangle p1 p2 p3 lineWidth _ => Triangle_distance p1 p2 p3 lineWidth v
  | Line segment width _ => LineSegment.distance segment v - width
  end.

(** [Path::pointInPlayfield]. *)
Definition pointInPlayfield (m_boundary : Rect) (point : Vector) (radius : R) : bool :=
  if Rltb (vx point - radius) (vx (bottom_left m_boundary))
     || Rgtb (vx point + radius) (vx (top_right m_boundary))
     || Rltb (vy point - radius) (vy (bottom_left m_boundary))
     || Rgtb (vy point + radius) (vy (top_right m_boundary))
  then false else true.

End Path.

(** ** trajectorypath.cpp: the moving obstacles *)

Module MovingCircle.

Record t : Type := mk {
  startPos : Vector; speed : Vector; acc : Vector;
  startTime : R; endTime : R; radius : R; prio : Z }.

Definition intersects (o : t) (pos : Vector) (time : R) : bool :=
  if Rltb time (startTime o) || Rgtb time (endTime o) then false
  else
    let t := time - startTime o in
    let centerAtTime := startPos o +v speed o *v t +v acc o *v (0.5 * t * t) in
    Rltb (Vec.distanceSq centerAtTime pos) (radius o * radius o).

Definition distance (o : t) (pos : Vector) (time : R) : R :=
  if Rltb time (startTime o) || Rgtb time (endTime o) then FLT_MAX
  else
    let t := time - startTime o in
    let centerAtTime := startPos o +v speed o *v t +v acc o *v (0.5 * t * t) in
    Vec.distance centerAtTime pos - radius o.

End MovingCircle.

Module MovingLine.

Record t : Type := mk {
  startPos1 : Vector; speed1 : Vector; acc1 : Vector;
  startPos2 : Vector; speed2 : Vector; acc2 : Vector;
  startTime : R; endTime : R; width : R; prio : Z }.

Definition intersects (o : t) (pos : Vector) (time : R) : bool :=
  if Rltb time (startTime o) || Rgtb time (endTime o) then false
  else
    let t := time - startTime o in
    let p1 := startPos1 o +v speed1 o *v t +v acc1 o *v (0.5 * t * t) in
    let p2 := startPos2 o +v speed2 o *v t +v acc2 o *v (0.5 * t * t) in
    Rltb (LineSegment.distance (LineSegment.mk p1 p2) pos) (width o).

(** The end points are taken at [time] itself and without the acceleration
    term, as the source has them. *)
Definition distance (o : t) (pos : Vector) (time : R) : R :=
  if Rltb time (startTime o) || Rgtb time (endTime o) then FLT_MAX
  else
    let p1 := startPos1 o +v speed1 o *v time in
    let p2 := startPos2 o +v speed2 o *v time in
    LineSegment.distance (LineSegment.mk p1 p2) pos - width o.

End MovingLine.

(** ** tracker.cpp: the fusion supervisor

    Messages of the vision protocol are records holding the fields the
    tracker reads; an optional protobuf field is an [option]. *)

Record SSL_DetectionBall : Type := mkBall { ball_x : R; ball_y : R }.

Record SSL_DetectionRobot : Type := mkRobot {
  robot_id : option N;          (* has_robot_id() / robot_id() *)
  robot_x : R; robot_y : R; robot_orientation : R }.

Record SSL_DetectionFrame : Type := mkFrame {
  t_capture : R; t_sent : R; camera_id : N;
  balls : list SSL_DetectionBall;
  robots_yellow : list SSL_DetectionRobot;
  robots_blue : list SSL_DetectionRobot }.

Record SSL_GeometryCameraCalibration : Type := mkCalib {
  calib_camera_id : N; focal_length : R;
  derived_camera_world_tx : option R;
  derived_camera_world_ty : option R;
  derived_camera_world_tz : option R }.

(** The field sizes of [SSL_GeometryFieldSize] in the order [updateGeometry]
    reads them, and [world::Geometry] in the order it writes them. *)
Record SSL_GeometryData : Type := mkGeometryData {
  geometry_field : list R;
  geometry_calib : list SSL_GeometryCameraCalibration }.

Record SSL_WrapperPacket : Type := mkWrapper {
  wrapper_geometry : option SSL_GeometryData;
  wrapper_detection : option SSL_DetectionFrame }.

(** A queued packet: what [ParseFromArray] makes of its bytes ([None] when
    parsing fails) and the arrival time. *)
Definition Packet : Type := (option SSL_WrapperPacket * Z)%type.

Record Vector3 : Type := mkVector3 { v3x : R; v3y : R; v3z : R }.

Record CameraInfo : Type := mkCameraInfo {
  cameraPosition : gmap N Vector3;
  focalLength : gmap N R }.

Module Tracker.

(** [struct RobotInfo] as the tracker fills it. *)
Record RobotInfo : Type := mkRobotInfo {
  robotPos : Vector; dribblerPos : Vector;
  chipCommand : bool; linearCommand : bool }.

(** What [invalidate] and [bestFilter] ask of a filter. *)
Class Filter (F : Type) : Type := {
  lastUpdate : F -> Z;
  frameCounter : F -> Z }.

(** robotfilter.h and balltracker.h are not among the sources at hand: the
    filters enter through the member functions the tracker calls. *)
Class RobotFilterOps (RF : Type) : Type := {
  rf_filter :: Filter RF;
  rf_new : SSL_DetectionRobot -> Z -> RF;
  rf_update : Z -> RF -> RF;
  rf_distanceTo : RF -> SSL_DetectionRobot -> R;
  rf_addVisionFrame : N -> SSL_DetectionRobot -> Z -> RF -> RF;
  rf_robotPos : RF -> Vector;
  rf_dribblerPos : RF -> Vector;
  rf_kickIsChip : RF -> bool;
  rf_kickIsLinear : RF -> bool }.

Class BallTrackerOps (BT : Type) : Type := {
  bt_filter :: Filter BT;
  bt_new : SSL_DetectionBall -> Z -> N -> CameraInfo -> RobotInfo -> BT;
  bt_copy : BT -> N -> BT;
  bt_update : Z -> BT -> BT;
  bt_acceptDetection : BT -> SSL_DetectionBall -> Z -> N -> RobotInfo -> bool;
  bt_primaryCamera : BT -> N;
  bt_addVisionFrame : SSL_DetectionBall -> Z -> N -> RobotInfo -> BT -> BT;
  bt_distToCamera : BT -> bool -> R;
  bt_isFlying : BT -> bool;
  bt_initTime : BT -> Z }.

(** A ball tracker on the heap: [m_currentBallFilter] is compared with the
    elements of [m_ballFilter] by address. *)
Record BallObj (BT : Type) : Type := mkBallObj { addr : N; obj : BT }.
Arguments mkBallObj {BT} _ _.
Arguments addr {BT} _.
Arguments obj {BT} _.

Abbreviation RobotMap RF := (gmap N (list RF)).

Record t (RF BT : Type) : Type := mk {
  m_cameraInfo : CameraInfo;
  m_flip : bool;
  m_systemDelay : Z;
  m_resetTime : Z;
  m_geometry : list R;
  m_geometryUpdated : bool;
  m_hasVisionData : bool;
  m_lastUpdateTime : Z;
  m_visionPackets : list Packet;
  m_robotFilterYellow : RobotMap RF;
  m_robotFilterBlue : RobotMap RF;
  m_ballFilter : list (BallObj BT);
  m_currentBallFilter : option N;
  m_nextAddr : N;                       (* the next address [new] hands out *)
  m_aoiEnabled : bool;
  m_aoi_x1 : R; m_aoi_y1 : R; m_aoi_x2 : R; m_aoi_y2 : R }.
Arguments mk {RF BT}.
Arguments m_cameraInfo {RF BT} _.
Arguments m_flip {RF BT} _.
Arguments m_systemDelay {RF BT} _.
Arguments m_resetTime {RF BT} _.
Arguments m_geometry {RF BT} _.
Arguments m_geometryUpdated {RF BT} _.
Arguments m_hasVisionData {RF BT} _.
Arguments m_lastUpdateTime {RF BT} _.
Arguments m_visionPackets {RF BT} _.
Arguments m_robotFilterYellow {RF BT} _.
Arguments m_robotFilterBlue {RF BT} _.
Arguments m_ballFilter {RF BT} _.
Arguments m_currentBallFilter {RF BT} _.
Arguments m_nextAddr {RF BT} _.
Arguments m_aoiEnabled {RF BT} _.
Arguments m_aoi_x1 {RF BT} _.
Arguments m_aoi_y1 {RF BT} _.
Arguments m_aoi_x2 {RF BT} _.
Arguments m_aoi_y2 {RF BT} _.

Definition isInAOI (detectionX detectionY : R) (flip : bool) (x1 y1 x2 y2 : R) : bool :=
  let x := - detectionY / 1000 in
  let y := detectionX / 1000 in
  let x := if flip then - x else x in
  let y := if flip then - y else y in
  Rgtb x x1 && Rltb x x2 && Rgtb y y1 && Rltb y y2.

(** *** invalidate

    [QMutableListIterator] walks the list while [it.remove()] shortens it:
    [kept] are the filters already passed and kept, [rest] starts with the
    one [it.next()] returns, and [filters.size()] counts both. *)

Definition minFrameCount : Z := 5.

Section Invalidate.
Context {F : Type} `{Filter F}.
Variables (maxTime maxTimeLast : Z) (currentTime : Z).

Fixpoint invalidate_from (kept rest : list F) : list F :=
  match rest with
  | [] => kept
  | filter :: rest' =>
      let size := Z.of_nat (List.length kept + List.length rest) in
      let timeLimit :=
        if (1 <? size)%Z || (frameCounter filter <? minFrameCount)%Z
        then maxTime else maxTimeLast in
      if (lastUpdate filter + timeLimit <? currentTime)%Z
      then invalidate_from kept rest'
      else invalidate_from (kept ++ [filter]) rest'
  end.

Definition invalidate (filters : list F) : list F := invalidate_from [] filters.

End Invalidate.

(** [.1E9], [.2E9] and [1E9] nanoseconds. *)
Definition ball_maxTime : Z := 100000000.
Definition ball_maxTimeLast : Z := 1000000000.
Definition robot_maxTime : Z := 200000000.
Definition robot_maxTimeLast : Z := 1000000000.

#[export] Instance BallObj_filter {BT} `{Filter BT} : Filter (BallObj BT) := {
  lastUpdate o := lastUpdate (obj o);
  frameCounter o := frameCounter (obj o) }.

Section Tracking.
Context {RF BT : Type} `{RobotFilterOps RF} `{BallTrackerOps BT}.

#[local] Abbreviation Tracker := (t RF BT).

Definition invalidateBall (currentTime : Z) (m_ballFilter : list (BallObj BT))
    : list (BallObj BT) :=
  invalidate ball_maxTime ball_maxTimeLast currentTime m_ballFilter.

Definition invalidateRobots (currentTime : Z) (map : RobotMap RF) : RobotMap RF :=
  invalidate robot_maxTime robot_maxTimeLast currentTime <$> map.

Definition set_robotFilters (yellow blue : RobotMap RF) (tr : Tracker) : Tracker :=
  mk (m_cameraInfo tr) (m_flip tr) (m_systemDelay tr) (m_resetTime tr)
     (m_geometry tr) (m_geometryUpdated tr) (m_hasVisionData tr)
     (m_lastUpdateTime tr) (m_visionPackets tr) yellow blue
     (m_ballFilter tr) (m_currentBallFilter tr) (m_nextAddr tr)
     (m_aoiEnabled tr) (m_aoi_x1 tr) (m_aoi_y1 tr) (m_aoi_x2 tr) (m_aoi_y2 tr).

Definition set_ballFilter (l : list (BallObj BT)) (next : N) (tr : Tracker) : Tracker :=
  mk (m_cameraInfo tr) (m_flip tr) (m_systemDelay tr) (m_resetTime tr)
     (m_geometry tr) (m_geometryUpdated tr) (m_hasVisionData tr)
     (m_lastUpdateTime tr) (m_visionPackets tr)
     (m_robotFilterYellow tr) (m_robotFilterBlue tr) l
     (m_currentBallFilter tr) next
     (m_aoiEnabled tr) (m_aoi_x1 tr) (m_aoi_y1 tr) (m_aoi_x2 tr) (m_aoi_y2 tr).

Definition set_geometry (g : list R) (cam : CameraInfo) (updated : bool)
    (tr : Tracker) : Tracker :=
  mk cam (m_flip tr) (m_systemDelay tr) (m_resetTime tr)
     g updated (m_hasVisionData tr)
     (m_lastUpdateTime tr) (m_visionPackets tr)
     (m_robotFilterYellow tr) (m_robotFilterBlue tr) (m_ballFilter tr)
     (m_currentBallFilter tr) (m_nextAddr tr)
     (m_aoiEnabled tr) (m_aoi_x1 tr) (m_aoi_y1 tr) (m_aoi_x2 tr) (m_aoi_y2 tr).

Definition set_times (resetTime lastUpdateTime : Z) (packets : list Packet)
    (hasVisionData : bool) (tr : Tracker) : Tracker :=
  mk (m_cameraInfo tr) (m_flip tr) (m_systemDelay tr) resetTime
     (m_geometry tr) (m_geometryUpdated tr) hasVisionData
     lastUpdateTime packets
     (m_robotFilterYellow tr) (m_robotFilterBlue tr) (m_ballFilter tr)
     (m_currentBallFilter tr) (m_nextAddr tr)
     (m_aoiEnabled tr) (m_aoi_x1 tr) (m_aoi_y1 tr) (m_aoi_x2 tr) (m_aoi_y2 tr).

(** [updateGeometry]: every size in metres, then the goal height. *)
Definition updateGeometry (field : list R) : list R :=
  List.map (fun mm => mm / 1000) field ++ [0.16].

Definition updateCamera (c : SSL_GeometryCameraCalibration) (cam : CameraInfo)
    : CameraInfo :=
  match derived_camera_world_tx c, derived_camera_world_ty c,
        derived_camera_world_tz c with
  | Some tx, Some ty, Some tz =>
      let cameraPos := mkVector3 (- ty / 1000) (tx / 1000) (tz / 1000) in
      mkCameraInfo (<[calib_camera_id c := cameraPos]> (cameraPosition cam))
                   (<[calib_camera_id c := focal_length c]> (focalLength cam))
  | _, _, _ => cam
  end.

(** [bestFilter]: the first filter that has [minFrameCount] frames, moved to
    the front of its list. *)
Fixpoint bestFilter_from {F} `{Filter F} (minFrames : Z) (passed rest : list F)
    : option F * list F :=
  match rest with
  | [] => (None, passed)
  | item :: rest' =>
      if (minFrames <=? frameCounter item)%Z
      then (Some item, item :: passed ++ rest')
      else bestFilter_from minFrames (passed ++ [item]) rest'
  end.

Definition bestFilter {F} `{Filter F} (filters : list F) (minFrames : Z)
    : option F * list F :=
  bestFilter_from minFrames [] filters.

(** The best filter of a list, advanced to [currentTime] in place. *)
Definition bestRobot (currentTime minFrames : Z) (l : list RF) : option RF * list RF :=
  match bestFilter l minFrames with
  | (Some robot, robot' :: others) =>
      (Some (rf_update currentTime robot), rf_update currentTime robot' :: others)
  | (_, l') => (None, l')
  end.

(** The lists of a [QMap] in the order its iterator visits them: by
    ascending robot id. *)
Definition lists_by_id (map : RobotMap RF) : list (list RF) :=
  snd <$> @merge_sort _ (fun a b : N * list RF => (fst a <= fst b)%N)
            (fun a b => decide (fst a <= fst b)%N) (map_to_list map).

Definition bestOfMap (currentTime minFrames : Z) (map : RobotMap RF)
    : list RF * RobotMap RF :=
  (omap (fun l => fst (bestRobot currentTime minFrames l)) (lists_by_id map),
   (fun l => snd (bestRobot currentTime minFrames l)) <$> map).

Definition getBestRobots (currentTime : Z) (tr : Tracker) : list RF * Tracker :=
  let resetTimeout := 100000000%Z in
  let minFrames := if (m_resetTime tr + resetTimeout <? currentTime)%Z then 5%Z else 0%Z in
  let (yellow, ymap) := bestOfMap currentTime minFrames (m_robotFilterYellow tr) in
  let (blue, bmap) := bestOfMap currentTime minFrames (m_robotFilterBlue tr) in
  (yellow ++ blue, set_robotFilters ymap bmap tr).

Fixpoint nearestRobotInfo_from (ball : Vector) (robots : list RF)
    (minDist : R) (best : bool) (rInfo : RobotInfo) : RobotInfo :=
  match robots with
  | [] => rInfo
  | filter :: robots' =>
      let dribbler := rf_dribblerPos filter in
      let dist := Vec.length (ball -v dribbler) in
      if Rltb dist minDist || negb best
      then nearestRobotInfo_from ball robots' dist true
             (mkRobotInfo (rf_robotPos filter) (rf_dribblerPos filter)
                          (rf_kickIsChip filter) (rf_kickIsLinear filter))
      else nearestRobotInfo_from ball robots' minDist best rInfo
  end.

Definition nearestRobotInfo (robots : list RF) (b : SSL_DetectionBall) : RobotInfo :=
  let ball := mkVector (- ball_y b / 1000) (ball_x b / 1000) in
  nearestRobotInfo_from ball robots 10000 false
    (mkRobotInfo Vec.zero Vec.zero false false).

(** [std::sort] with [cmp]: a sort by insertion, which keeps the order of
    filters at the same distance ([std::sort] leaves it open). *)
Fixpoint insert_sorted (key : BallObj BT -> R) (x : BallObj BT)
    (l : list (BallObj BT)) : list (BallObj BT) :=
  match l with
  | [] => [x]
  | y :: l' => if Rltb (key y) (key x) then y :: insert_sorted key x l' else x :: y :: l'
  end.

Definition prioritizeBallFilters (tr : Tracker) : Tracker :=
  let flying :=
    match m_currentBallFilter tr with
    | Some a =>
        match List.find (fun o => N.eqb (addr o) a) (m_ballFilter tr) with
        | Some o => bt_isFlying (obj o)
        | None => false
        end
    | None => false
    end in
  let key o := bt_distToCamera (obj o) flying in
  set_ballFilter (List.fold_right (insert_sorted key) [] (m_ballFilter tr))
                 (m_nextAddr tr) tr.

(** The [foreach] of [trackBall]: every filter is advanced; the accepting
    ones on this camera take the frame; the last accepting one on another
    camera is remembered. *)
Fixpoint offerBall (ball : SSL_DetectionBall) (receiveTime : Z) (cameraId : N)
    (robotInfo : RobotInfo) (filters : list (BallObj BT))
    (withCamId : bool) (otherCamId : option BT)
    : list (BallObj BT) * bool * option BT :=
  match filters with
  | [] => ([], withCamId, otherCamId)
  | o :: filters' =>
      let filter := bt_update receiveTime (obj o) in
      if bt_acceptDetection filter ball receiveTime cameraId robotInfo then
        if N.eqb (bt_primaryCamera filter) cameraId then
          let filter := bt_addVisionFrame ball receiveTime cameraId robotInfo filter in
          let '(l, w, other) :=
            offerBall ball receiveTime cameraId robotInfo filters' true otherCamId in
          (mkBallObj (addr o) filter :: l, w, other)
        else
          let '(l, w, other) :=
            offerBall ball receiveTime cameraId robotInfo filters' withCamId (Some filter) in
          (mkBallObj (addr o) filter :: l, w, other)
      else
        let '(l, w, other) :=
          offerBall ball receiveTime cameraId robotInfo filters' withCamId otherCamId in
        (mkBallObj (addr o) filter :: l, w, other)
  end.

Definition trackBall (ball : SSL_DetectionBall) (receiveTime : Z) (cameraId : N)
    (bestRobots : list RF) (tr : Tracker) : Tracker :=
  if m_aoiEnabled tr
     && negb (isInAOI (ball_x ball) (ball_y ball) (m_flip tr)
                (m_aoi_x1 tr) (m_aoi_y1 tr) (m_aoi_x2 tr) (m_aoi_y2 tr))
  then tr
  else if negb (bool_decide (is_Some (cameraPosition (m_cameraInfo tr) !! cameraId)))
  then tr
  else
    let robotInfo := nearestRobotInfo bestRobots ball in
    let '(filters, acceptingFilterWithCamId, acceptingFilterWithOtherCamId) :=
      offerBall ball receiveTime cameraId robotInfo (m_ballFilter tr) false None in
    if negb acceptingFilterWithCamId then
      let bt :=
        match acceptingFilterWithOtherCamId with
        | Some other => bt_copy other cameraId
        | None => bt_new ball receiveTime cameraId (m_cameraInfo tr) robotInfo
        end in
      let bt := bt_addVisionFrame ball receiveTime cameraId robotInfo bt in
      set_ballFilter (filters ++ [mkBallObj (m_nextAddr tr) bt])
                     (N.succ (m_nextAddr tr)) tr
    else
      prioritizeBallFilters (set_ballFilter filters (m_nextAddr tr) tr).

(** The [foreach] of [trackRobot]: the index of the nearest filter under the
    gate, the first one at the least distance. *)
Fixpoint nearestFilter_from (robot : SSL_DetectionRobot) (l : list RF) (i : nat)
    (nearest : R) (nearestFilter : option nat) : option nat :=
  match l with
  | [] => nearestFilter
  | filter :: l' =>
      let dist := rf_distanceTo filter robot in
      if Rltb dist nearest
      then nearestFilter_from robot l' (S i) dist (Some i)
      else nearestFilter_from robot l' (S i) nearest nearestFilter
  end.

Definition trackRobotList (robot : SSL_DetectionRobot) (receiveTime : Z)
    (cameraId : N) (l : list RF) : list RF :=
  let l := List.map (rf_update receiveTime) l in
  match nearestFilter_from robot l 0 0.5 None with
  | Some i => alter (rf_addVisionFrame cameraId robot receiveTime) i l
  | None => l ++ [rf_addVisionFrame cameraId robot receiveTime (rf_new robot receiveTime)]
  end.

(** [trackRobot] on the map of one team; [robotMap[id]] makes the entry. *)
Definition trackRobot (robotMap : RobotMap RF) (robot : SSL_DetectionRobot)
    (receiveTime : Z) (cameraId : N) (tr : Tracker) : RobotMap RF :=
  match robot_id robot with
  | None => robotMap
  | Some id =>
      if m_aoiEnabled tr
         && negb (isInAOI (robot_x robot) (robot_y robot) (m_flip tr)
                    (m_aoi_x1 tr) (m_aoi_y1 tr) (m_aoi_x2 tr) (m_aoi_y2 tr))
      then robotMap
      else
        let list := default [] (robotMap !! id) in
        <[id := trackRobotList robot receiveTime cameraId list]> robotMap
  end.

(** Conversion of a [double] to [qint64]: towards zero. *)
Definition to_qint64 (x : R) : Z :=
  if Rle_dec 0 x then Int_part x else (- Int_part (- x))%Z.

(** One packet of the [foreach] of [process]. *)
Definition processPacket (p : Packet) (tr : Tracker) : Tracker :=
  match fst p with
  | None => tr
  | Some wrapper =>
      let tr :=
        match wrapper_geometry wrapper with
        | Some g =>
            set_geometry (updateGeometry (geometry_field g))
              (List.fold_left (fun cam c => updateCamera c cam) (geometry_calib g)
                 (m_cameraInfo tr))
              true tr
        | None => tr
        end in
      match wrapper_detection wrapper with
      | None => tr
      | Some detection =>
          let visionProcessingTime :=
            to_qint64 ((t_sent detection - t_capture detection) * 1000000000) in
          let sourceTime := (snd p - visionProcessingTime - m_systemDelay tr)%Z in
          if (sourceTime <=? m_lastUpdateTime tr)%Z then tr
          else
            let yellow :=
              List.fold_left
                (fun map r => trackRobot map r sourceTime (camera_id detection) tr)
                (robots_yellow detection) (m_robotFilterYellow tr) in
            let blue :=
              List.fold_left
                (fun map r => trackRobot map r sourceTime (camera_id detection) tr)
                (robots_blue detection) (m_robotFilterBlue tr) in
            let tr := set_robotFilters yellow blue tr in
            let (bestRobots, tr) := getBestRobots sourceTime tr in
            let tr :=
              List.fold_left
                (fun tr b => trackBall b sourceTime (camera_id detection) bestRobots tr)
                (balls detection) tr in
            set_times (m_resetTime tr) sourceTime (m_visionPackets tr)
                      (m_hasVisionData tr) tr
      end
  end.

(** [process]: the stale filters go first, then the queue is replayed. *)
Definition invalidateAll (currentTime : Z) (tr : Tracker) : Tracker :=
  let tr := set_ballFilter (invalidateBall currentTime (m_ballFilter tr))
                           (m_nextAddr tr) tr in
  set_robotFilters (invalidateRobots currentTime (m_robotFilterYellow tr))
                   (invalidateRobots currentTime (m_robotFilterBlue tr)) tr.

Definition process (currentTime : Z) (tr : Tracker) : Tracker :=
  let tr :=
    if (m_resetTime tr =? 0)%Z
    then set_times currentTime (m_lastUpdateTime tr) (m_visionPackets tr)
                   (m_hasVisionData tr) tr
    else tr in
  let tr := invalidateAll currentTime tr in
  let tr := set_geometry (m_geometry tr) (m_cameraInfo tr) false tr in
  let packets := m_visionPackets tr in
  let tr := List.fold_left (fun tr p => processPacket p tr) packets tr in
  set_times (m_resetTime tr) (m_lastUpdateTime tr) [] (m_hasVisionData tr) tr.

Definition queuePacket (packet : option SSL_WrapperPacket) (time : Z)
    (tr : Tracker) : Tracker :=
  set_times (m_resetTime tr) (m_lastUpdateTime tr)
            (m_visionPackets tr ++ [(packet, time)]) true tr.

End Tracking.

End Tracker.

(** ** ballgroundcollisionfilter.cpp *)

Module BallGroundCollisionFilter.

(** [struct RobotInfo] as the ball filters read it. *)
Record RobotInfo : Type := mkRobotInfo {
  identifier : Z; robotPos : Vector; dribblerPos : Vector; speed : Vector;
  chipCommand : bool; linearCommand : bool }.

(** The fields of [world::Ball] the filter reads and writes. *)
Record Ball : Type := mkBall { p_x : R; p_y : R; v_x : R; v_y : R }.

Record VisionFrame : Type := mkVisionFrame { frame_x : R; frame_y : R; frame_time : Z }.

Record BallOffsetInfo : Type := mkBallOffsetInfo {
  robotIdentifier : Z; ballOffset : Vector; pushingBallPos : Vector }.

(** ballgroundfilter.h is not among the sources at hand: the inner estimator
    enters through the member functions called on it. *)
Class GroundFilterOps (GF : Type) : Type := {
  gf_processVisionFrame : VisionFrame -> GF -> GF;
  gf_reset : VisionFrame -> GF -> GF;
  gf_acceptDetection : GF -> VisionFrame -> bool;
  gf_writeBallState : GF -> Ball -> Z -> list RobotInfo -> GF * Ball }.

(** Modelled from the spec: the constants [ROBOT_RADIUS] and [ROBOT_HEIGHT]
    of the missing header, [robot_radius = 0.088] and [robot_height = 0.148]
    among the configuration knobs. *)
Definition ROBOT_RADIUS : R := 0.088.
Definition ROBOT_HEIGHT : R := 0.148.

Record t (GF : Type) : Type := mk {
  m_groundFilter : GF;
  m_pastFilter : GF;
  m_lastVisionTime : Z;
  m_localBallOffset : option BallOffsetInfo;
  m_insideRobotOffset : option BallOffsetInfo;
  m_lastReportedBallPos : Vector;
  m_resetFilters : bool;
  m_feasiblyInvisible : bool;
  m_cameraInfo : CameraInfo;
  m_primaryCamera : N }.
Arguments mk {GF}.
Arguments m_groundFilter {GF} _.
Arguments m_pastFilter {GF} _.
Arguments m_lastVisionTime {GF} _.
Arguments m_localBallOffset {GF} _.
Arguments m_insideRobotOffset {GF} _.
Arguments m_lastReportedBallPos {GF} _.
Arguments m_resetFilters {GF} _.
Arguments m_feasiblyInvisible {GF} _.
Arguments m_cameraInfo {GF} _.
Arguments m_primaryCamera {GF} _.

(** [Eigen]'s [normalized()]: a vector of norm zero is returned as it is. *)
Definition normalized (v : Vector) : Vector :=
  if Rgtb (Vec.lengthSquared v) 0 then v *v (/ Vec.length v) else v.

(** [Eigen]'s [isZero(prec)]: every coefficient within [prec] of zero. *)
Definition isZero (v : Vector) (prec : R) : bool :=
  Rleb (Rabs (vx v)) prec && Rleb (Rabs (vy v)) prec.

Definition perpendicular (dir : Vector) : Vector := mkVector (vy dir) (- vx dir).

Definition intersectLineCircle (offset dir center : Vector) (radius : R)
    : list (Vector * R) :=
  let dir := normalized dir in
  let constPart := offset -v center in
  let a := Vec.dot dir dir in
  let b := 2 * Vec.dot dir constPart in
  let c := Vec.dot constPart constPart - radius * radius in
  let det := b * b - 4 * a * c in
  if Rltb det 0 then []
  else if Rltb det 0.00001 then
    let lambda1 := (- b) / (2 * a) in
    [(offset +v dir *v lambda1, lambda1)]
  else
    let lambda1 := (- b + sqrt det) / (2 * a) in
    let lambda2 := (- b - sqrt det) / (2 * a) in
    let point1 := offset +v dir *v lambda1 in
    let point2 := offset +v dir *v lambda2 in
    [(point1, lambda1); (point2, lambda2)].

Definition intersectLineSegmentCircle (p1 p2 center : Vector) (radius : R)
    : option Vector :=
  let dist := Vec.length (p2 -v p1) in
  let inRange (i : Vector * R) := Rgeb (snd i) 0 && Rleb (snd i) dist in
  match intersectLineCircle p1 (p2 -v p1) center radius with
  | [] => None
  | [i0] => if inRange i0 then Some (fst i0) else None
  | i0 :: i1 :: _ =>
      let (i0, i1) := if Rgtb (snd i0) (snd i1) then (i1, i0) else (i0, i1) in
      if inRange i0 then Some (fst i0)
      else if inRange i1 then Some (fst i1)
      else None
  end.

Definition intersectLineLine (pos1 dir1 pos2 dir2 : Vector) : option (R * R) :=
  if Rltb (Rabs (Vec.dot (perpendicular dir1) dir2) / (Vec.length dir1 * Vec.length dir2))
          0.0001
  then None
  else
    let normal1 := perpendicular dir1 in
    let normal2 := perpendicular dir2 in
    let diff := pos2 -v pos1 in
    let t1 := Vec.dot normal2 diff / Vec.dot normal2 dir1 in
    let t2 := - Vec.dot normal1 diff / Vec.dot normal1 dir2 in
    Some (t1, t2).

Definition DRIBBLER_WIDTH : R := 0.07.

Definition intersectLineSegmentRobot (p1 p2 : Vector) (robot : RobotInfo)
    (robotRadius robotSizeFactor : R) : option Vector :=
  let robotRadius :=
    if Reqb robotSizeFactor 1 then robotRadius else robotRadius * robotSizeFactor in
  let dribblerPos :=
    if Reqb robotSizeFactor 1 then dribblerPos robot
    else robotPos robot +v (dribblerPos robot -v robotPos robot) *v robotSizeFactor in
  let toDribbler := normalized (dribblerPos -v robotPos robot) in
  let dribblerSideways := perpendicular toDribbler in
  let dribblerIntersection :=
    intersectLineLine dribblerPos dribblerSideways p1 (p2 -v p1) in
  let dribblerIntersectionPos :=
    match dribblerIntersection with
    | Some (first, second) =>
        if Rleb (Rabs first) (DRIBBLER_WIDTH / 2) && Rgeb second 0 && Rleb second 1
        then Some (dribblerPos +v dribblerSideways *v first)
        else None
    | None => None
    end in
  let fromFront := Rgeb (Vec.dot (p1 -v dribblerPos) toDribbler) 0 in
  match dribblerIntersectionPos with
  | Some d =>
      if fromFront then Some d
      else
        match intersectLineSegmentCircle p1 p2 (robotPos robot) robotRadius with
        | Some hull =>
            if Rltb (Vec.length (hull -v p1)) (Vec.length (d -v p1))
            then Some hull else Some d
        | None => None
        end
  | None => intersectLineSegmentCircle p1 p2 (robotPos robot) robotRadius
  end.

Definition isInsideRobot (pos : Vector) (robot : RobotInfo) (robotRadius : R) : bool :=
  if Rgtb (Vec.length (pos -v robotPos robot)) robotRadius then false
  else
    let toDribbler := normalized (dribblerPos robot -v robotPos robot) in
    Rleb (Vec.dot (pos -v dribblerPos robot) toDribbler) 0.

Definition BALL_RADIUS : R := 0.0215.

Definition isBallVisible (pos : Vector) (robot : RobotInfo)
    (robotRadius robotHeight : R) (cameraPos : Vector3) : bool :=
  let toBall := mkVector3 (vx pos - v3x cameraPos) (vy pos - v3y cameraPos)
                          (BALL_RADIUS - v3z cameraPos) in
  let length := (v3z cameraPos - robotHeight) / (v3z cameraPos - BALL_RADIUS) in
  let projected2D := mkVector (v3x cameraPos + v3x toBall * length)
                              (v3y cameraPos + v3y toBall * length) in
  let inRadius := Rleb (Vec.length (robotPos robot -v projected2D)) robotRadius in
  let frontOfDribbler :=
    Rgtb (Vec.dot (projected2D -v dribblerPos robot)
                  (dribblerPos robot -v robotPos robot)) 0 in
  let hasIntersection :=
    match intersectLineSegmentRobot pos projected2D robot robotRadius 0.98 with
    | Some _ => true | None => false
    end in
  (negb inRadius || frontOfDribbler) && negb hasIntersection.

Definition dribblingInfo (projectedBallPos : Vector) (robot : RobotInfo)
    : BallOffsetInfo :=
  let toDribbler := normalized (dribblerPos robot -v robotPos robot) in
  mkBallOffsetInfo (identifier robot)
    (mkVector (Vec.dot (projectedBallPos -v robotPos robot) toDribbler)
              (Vec.dot (projectedBallPos -v robotPos robot) (perpendicular toDribbler)))
    projectedBallPos.

Definition unprojectRelativePosition (relativePos : Vector) (robot : RobotInfo)
    : Vector :=
  let toDribbler := normalized (dribblerPos robot -v robotPos robot) in
  let relativeBallPos :=
    toDribbler *v vx relativePos +v perpendicular toDribbler *v vy relativePos in
  robotPos robot +v relativeBallPos.

Definition setBallData (ball : Ball) (pos speed : Vector) (writeSpeed : bool) : Ball :=
  if writeSpeed then mkBall (vx pos) (vy pos) (vx speed) (vy speed)
  else mkBall (vx pos) (vy pos) (v_x ball) (v_y ball).

Section Filter.
Context {GF : Type} `{GroundFilterOps GF}.

#[local] Abbreviation Filter := (t GF).

Definition set_filters (ground past : GF) (f : Filter) : Filter :=
  mk ground past (m_lastVisionTime f) (m_localBallOffset f) (m_insideRobotOffset f)
     (m_lastReportedBallPos f) (m_resetFilters f) (m_feasiblyInvisible f)
     (m_cameraInfo f) (m_primaryCamera f).

Definition set_offsets (localOffset insideOffset : option BallOffsetInfo)
    (resetFilters : bool) (f : Filter) : Filter :=
  mk (m_groundFilter f) (m_pastFilter f) (m_lastVisionTime f) localOffset insideOffset
     (m_lastReportedBallPos f) resetFilters (m_feasiblyInvisible f)
     (m_cameraInfo f) (m_primaryCamera f).

Definition set_reported (pos : Vector) (invisible : bool) (f : Filter) : Filter :=
  mk (m_groundFilter f) (m_pastFilter f) (m_lastVisionTime f) (m_localBallOffset f)
     (m_insideRobotOffset f) pos (m_resetFilters f) invisible
     (m_cameraInfo f) (m_primaryCamera f).

Definition processVisionFrame (frame : VisionFrame) (f : Filter) : Filter :=
  let f := mk (m_groundFilter f) (m_pastFilter f) (frame_time frame)
              (m_localBallOffset f) (m_insideRobotOffset f) (m_lastReportedBallPos f)
              (m_resetFilters f) (m_feasiblyInvisible f)
              (m_cameraInfo f) (m_primaryCamera f) in
  if m_resetFilters f then
    set_offsets (m_localBallOffset f) (m_insideRobotOffset f) false
      (set_filters (gf_reset frame (m_groundFilter f))
                   (gf_reset frame (m_pastFilter f)) f)
  else
    set_filters (gf_processVisionFrame frame (m_groundFilter f))
                (gf_processVisionFrame frame (m_pastFilter f)) f.

Definition acceptDetection (f : Filter) (frame : VisionFrame) : bool :=
  let ACCEPT_BALL_DIST := 0.5 in
  let reportedBallDist :=
    Vec.length (m_lastReportedBallPos f -v mkVector (frame_x frame) (frame_y frame)) in
  Rltb reportedBallDist ACCEPT_BALL_DIST || gf_acceptDetection (m_groundFilter f) frame.

(** [cameraPosition[m_primaryCamera]]; the entry [operator[]] makes for an
    unknown camera is read as the zero vector. *)
Definition primaryCameraPos (f : Filter) : Vector3 :=
  default (mkVector3 0 0 0) (cameraPosition (m_cameraInfo f) !! m_primaryCamera f).

Definition findRobot (id : Z) (robots : list RobotInfo) : option RobotInfo :=
  List.find (fun robot => (identifier robot =? id)%Z) robots.

Definition checkFeasibleInvisibility (f : Filter) (robots : list RobotInfo) : bool :=
  match m_localBallOffset f with
  | None => false
  | Some offset =>
      match findRobot (robotIdentifier offset) robots with
      | None => false
      | Some robot =>
          if negb (isBallVisible (pushingBallPos offset) robot ROBOT_RADIUS ROBOT_HEIGHT
                     (primaryCameraPos f))
          then true
          else negb (isBallVisible (m_lastReportedBallPos f) robot ROBOT_RADIUS
                       ROBOT_HEIGHT (primaryCameraPos f))
      end
  end.

(** [computeBallState] up to its first [return]: both inner filters write
    their state, the one of the ground filter into [ball]. *)
Definition computeBallState (f : Filter) (ball : Ball) (time : Z)
    (robots : list RobotInfo) : Filter * Ball :=
  let (ground, ball) := gf_writeBallState (m_groundFilter f) ball time robots in
  let (past, pastState) :=
    gf_writeBallState (m_pastFilter f) (mkBall 0 0 0 0) (m_lastVisionTime f + 1)%Z
      robots in
  (* remove this once all issues are fixed *)
  (set_filters ground past f, ball).

Definition writeBallState (f : Filter) (ball : Ball) (time : Z)
    (robots : list RobotInfo) : Filter * Ball :=
  let (f, ball) := computeBallState f ball time robots in
  let f := set_reported (mkVector (p_x ball) (p_y ball)) (m_feasiblyInvisible f) f in
  (set_reported (m_lastReportedBallPos f) (checkFeasibleInvisibility f robots) f, ball).

(** *** The statements of [computeBallState] behind the [return]

    They are kept as the source has them, as the rules the filter would
    apply: [insideRobotProjection] is the position the second rule computes
    for one robot, [robotsLoop] the loop over the robots and
    [collisionRules] the whole remainder. *)

Definition insideRobotProjection (pastState : Ball) (robot : RobotInfo) : option Vector :=
  let pastPos := mkVector (p_x pastState) (p_y pastState) in
  let pastSpeed := mkVector (v_x pastState) (v_y pastState) in
  let relativeSpeed := pastSpeed -v speed robot in
  let projectDir :=
    if isZero relativeSpeed 0.001 then pastPos -v robotPos robot
    else Vec.neg relativeSpeed in
  let closeLineIntersection :=
    intersectLineSegmentRobot pastPos (projectDir *v 1000) robot ROBOT_RADIUS 1 in
  let farLineIntersection :=
    intersectLineSegmentRobot pastPos (Vec.neg projectDir *v 1000) robot ROBOT_RADIUS 1 in
  match closeLineIntersection, farLineIntersection with
  | Some close, Some far =>
      let closeDist := Vec.length (close -v pastPos) in
      let farDist := Vec.length (far -v pastPos) in
      Some (if Rltb closeDist (farDist * 2) then close else far)
  | _, _ => None
  end.

Fixpoint robotsLoop (pastState : Ball) (writeBallSpeed : bool)
    (robots : list RobotInfo) (f : Filter) (ball : Ball) (currentPos : Vector)
    : Filter * Ball :=
  match robots with
  | [] => (set_offsets (m_localBallOffset f) None (m_resetFilters f) f, ball)
  | robot :: robots' =>
      let pastPos := mkVector (p_x pastState) (p_y pastState) in
      let keep :=
        if isInsideRobot pastPos robot ROBOT_RADIUS then
          match m_insideRobotOffset f with
          | Some inside =>
              if (robotIdentifier inside =? identifier robot)%Z then
                let ballPos := unprojectRelativePosition (ballOffset inside) robot in
                Some (set_offsets (m_insideRobotOffset f) (m_insideRobotOffset f)
                        (m_resetFilters f) f,
                      setBallData ball ballPos (speed robot) writeBallSpeed)
              else None
          | None => None
          end
        else None in
      let project :=
        if isInsideRobot pastPos robot ROBOT_RADIUS then
          match insideRobotProjection pastState robot with
          | Some projected =>
              let info := Some (dribblingInfo projected robot) in
              Some (set_offsets info info (m_resetFilters f) f,
                    setBallData ball projected (speed robot) writeBallSpeed)
          | None => None
          end
        else None in
      match keep, project with
      | Some result, _ => result
      | None, Some result => result
      | None, None =>
          match intersectLineSegmentRobot pastPos currentPos robot ROBOT_RADIUS 1 with
          | Some intersection =>
              robotsLoop pastState writeBallSpeed robots'
                (set_offsets (Some (dribblingInfo intersection robot))
                   (m_insideRobotOffset f) (m_resetFilters f) f)
                (setBallData ball intersection (speed robot) writeBallSpeed)
                intersection
          | None => robotsLoop pastState writeBallSpeed robots' f ball currentPos
          end
      end
  end.

Definition RESET_SPEED_TIME : Z := 150.
Definition ACTIVATE_DRIBBLING_TIME : Z := 80.

Definition collisionRules (f : Filter) (ball pastState : Ball) (time : Z)
    (robots : list RobotInfo) : Filter * Ball :=
  let invisibleTimeMs := Z.quot (time - m_lastVisionTime f) 1000000 in
  let writeBallSpeed := (RESET_SPEED_TIME <? invisibleTimeMs)%Z in
  let dribbling :=
    if (ACTIVATE_DRIBBLING_TIME <? invisibleTimeMs)%Z then
      match m_localBallOffset f with
      | Some offset =>
          match findRobot (robotIdentifier offset) robots with
          | Some robot =>
              let ballPos := unprojectRelativePosition (ballOffset offset) robot in
              let pushing :=
                if isInsideRobot (pushingBallPos offset) robot ROBOT_RADIUS
                then ballPos else pushingBallPos offset in
              let offset := mkBallOffsetInfo (robotIdentifier offset) (ballOffset offset)
                                             pushing in
              let pushingPosVisible :=
                isBallVisible pushing robot ROBOT_RADIUS ROBOT_HEIGHT
                              (primaryCameraPos f) in
              Some (set_offsets (Some offset) (m_insideRobotOffset f) true f,
                    if pushingPosVisible
                    then setBallData ball ballPos (speed robot) writeBallSpeed
                    else setBallData ball pushing Vec.zero writeBallSpeed)
          | None => None
          end
      | None => None
      end
    else None in
  match dribbling with
  | Some result => result
  | None =>
      let f :=
        if (invisibleTimeMs <=? ACTIVATE_DRIBBLING_TIME)%Z
        then set_offsets None (m_insideRobotOffset f) (m_resetFilters f) f
        else f in
      robotsLoop pastState writeBallSpeed robots f ball
                 (mkVector (p_x ball) (p_y ball))
  end.

End Filter.

End BallGroundCollisionFilter.

(** ** speedprofile.cpp: the 2-D trajectory and its queries *)

Definition sign (x : R) : R := if Rltb x 0 then -1 else 1.

Module Trajectory.

(** [Trajectory::VT]: a speed and the time it is reached at. *)
Record VT : Type := mkVT { v : Vector; t : R }.

Record RobotState : Type := mkRobotState { pos : Vector; speed : Vector }.

(** Modelled from the spec: the constant [Trajectory::SLOW_DOWN_TIME] of the
    missing header, "the last [SLOW_DOWN_TIME] (0.3 s) of a profile". *)
Definition SLOW_DOWN_TIME : R := 0.3.

Definition MIN_ACC_FACTOR : R := 0.3.

Record trajectory : Type := mk {
  profile : list VT;
  s0 : Vector;
  correctionOffsetPerSecond : Vector;
  slowDownTime : R }.

(** *** ConstantAcceleration2D *)

Module ConstantAcceleration2D.

Record SegmentPrecomputation : Type := mkPre { invSegmentTime : R }.

Definition segmentOffset (first second : VT) (_ : SegmentPrecomputation) : Vector :=
  (v first +v v second) *v (0.5 * (t second - t first)).

Definition partialSegmentOffsetAndSpeed (first second : VT)
    (precomp : SegmentPrecomputation) (transformedT0 time : R) : Vector * Vector :=
  let timeDiff := time - transformedT0 in
  let diff := if Reqb (t second) (t first) then 1 else timeDiff * invSegmentTime precomp in
  let speed := v first +v (v second -v v first) *v diff in
  let partDist := (v first +v speed) *v (0.5 * timeDiff) in
  (partDist, speed).

Definition timeForSegment (first second : VT) (_ : SegmentPrecomputation) : R :=
  t second - t first.

Definition precomputeSegment (first second : VT) : SegmentPrecomputation :=
  mkPre (1 / (t second - t first)).

End ConstantAcceleration2D.

(** *** SlowdownAcceleration2D *)

Module SlowdownAcceleration2D.

Record SegmentPrecomputation : Type := mkPre {
  constantPrecomputation : ConstantAcceleration2D.SegmentPrecomputation;
  pre_v0 : Vector;
  pre_a0 : Vector;
  pre_a1 : Vector;
  segmentTime : R;
  partialDistance : Vector }.

Record acceleration : Type := mkAcc { slowDownStartTime : R; endTime : R }.

(** The constructor [SlowdownAcceleration2D(totalSimpleTime, slowDownTime)]. *)
Definition make (totalSimpleTime slowDownTime : R) : acceleration :=
  mkAcc (totalSimpleTime - slowDownTime)
        (totalSimpleTime + SLOW_DOWN_TIME - slowDownTime).

Definition computeAcceleration (timeToEnd : R) : R :=
  let totalTime := 2 / (1 + MIN_ACC_FACTOR) in
  let aFactor := (MIN_ACC_FACTOR - 1) / totalTime in
  let tFactor := 1 - timeToEnd / SLOW_DOWN_TIME in
  sqrt (1 + 2 * tFactor * aFactor).

Definition signedBy (speedDiff a : Vector) : Vector :=
  mkVector (sign (vx speedDiff) * vx a) (sign (vy speedDiff) * vy a).

Definition segmentOffset (acc : acceleration) (first second : VT)
    (precomp : SegmentPrecomputation) : Vector :=
  if Rleb (t second) (slowDownStartTime acc) || Reqb (t first) (t second) then
    ConstantAcceleration2D.segmentOffset first second (constantPrecomputation precomp)
  else
    let tm := segmentTime precomp in
    let speedDiff := v second -v pre_v0 precomp in
    let signedA0 := signedBy speedDiff (pre_a0 precomp) in
    let aDiff := pre_a1 precomp -v pre_a0 precomp in
    let signedADiff := signedBy speedDiff aDiff in
    let d := pre_v0 precomp *v tm +v signedA0 *v (0.5 * tm * tm)
             +v signedADiff *v ((1 / 6) * tm * tm) in
    partialDistance precomp +v d.

Definition partialSegmentOffsetAndSpeed (acc : acceleration) (first second : VT)
    (precomp : SegmentPrecomputation) (transformedT0 time : R) : Vector * Vector :=
  if Rleb time (slowDownStartTime acc) || Reqb (t first) (t second) then
    ConstantAcceleration2D.partialSegmentOffsetAndSpeed first second
      (constantPrecomputation precomp) transformedT0 time
  else
    let slowdownT0 :=
      if Rgtb (t first) (slowDownStartTime acc) then transformedT0
      else slowDownStartTime acc in
    let tm := time - slowdownT0 in
    let speedDiff := v second -v pre_v0 precomp in
    let signedA0 := signedBy speedDiff (pre_a0 precomp) in
    let aDiff := pre_a1 precomp -v pre_a0 precomp in
    let signedADiff := signedBy speedDiff aDiff in
    let invSegmentTime := 1 / segmentTime precomp in
    let speed := pre_v0 precomp +v signedA0 *v tm
                 +v signedADiff *v (0.5 * tm * tm * invSegmentTime) in
    let d := pre_v0 precomp *v tm +v signedA0 *v (0.5 * tm * tm)
             +v signedADiff *v ((1 / 6) * tm * tm * tm * invSegmentTime) in
    (partialDistance precomp +v d, speed).

Definition timeForSegment (acc : acceleration) (first second : VT)
    (precomp : SegmentPrecomputation) : R :=
  if Rleb (t second) (slowDownStartTime acc) then t second - t first
  else if Rltb (t first) (slowDownStartTime acc)
  then slowDownStartTime acc - t first + segmentTime precomp
  else segmentTime precomp.

Definition precomputeSegment (acc : acceleration) (first second : VT)
    : SegmentPrecomputation :=
  let constant := ConstantAcceleration2D.precomputeSegment first second in
  if Rleb (t second) (slowDownStartTime acc) || Reqb (t first) (t second) then
    mkPre constant Vec.zero Vec.zero Vec.zero 0 Vec.zero
  else
    let '(partialDistance, v0, t0) :=
      if Rltb (t first) (slowDownStartTime acc) then
        let partial :=
          ConstantAcceleration2D.partialSegmentOffsetAndSpeed first second constant
            (t first) (slowDownStartTime acc) in
        (fst partial, snd partial, slowDownStartTime acc)
      else (Vec.zero, v first, t first) in
    let baseAcc := Vec.abs (v first -v v second) *v (/ (t second - t first)) in
    let accelerationFactor0 := computeAcceleration (endTime acc - t0) in
    let accelerationFactor1 := computeAcceleration (endTime acc - t second) in
    mkPre constant v0 (baseAcc *v accelerationFactor0) (baseAcc *v accelerationFactor1)
          (2 * (t second - t0) / (accelerationFactor0 + accelerationFactor1))
          partialDistance.

End SlowdownAcceleration2D.

(** *** Trajectory

    A [profile] holds at least one point; the loops over
    [i < profile.size() - 1] run over the adjacent pairs of the list. *)

(** [profile.back().t], and [profile.back().v]. *)
Definition back_t (profile : list VT) : R := t (List.last profile (mkVT Vec.zero 0)).
Definition back_v (profile : list VT) : Vector := v (List.last profile (mkVT Vec.zero 0)).

Module S := SlowdownAcceleration2D.

Fixpoint time_from (acc : S.acceleration) (profile : list VT) (time : R) : R :=
  match profile with
  | first :: (second :: _) as rest =>
      let precomputation := S.precomputeSegment acc first second in
      time_from acc rest (time + S.timeForSegment acc first second precomputation)
  | _ => time
  end.

Definition time (tr : trajectory) : R :=
  if Reqb (slowDownTime tr) (-1) then back_t (profile tr)
  else time_from (S.make (back_t (profile tr)) (slowDownTime tr)) (profile tr) 0.

Fixpoint limitToTime_from (time : R) (profile : list VT) : list VT :=
  match profile with
  | p_i :: (p_i1 :: _) as rest =>
      if Rgeb (t p_i1) time then
        let diff :=
          if Reqb (t p_i1) (t p_i) then 1 else (time - t p_i) / (t p_i1 - t p_i) in
        let speed := v p_i +v (v p_i1 -v v p_i) *v diff in
        [p_i; mkVT speed time]
      else p_i :: limitToTime_from time rest
  | _ => profile
  end.

Definition limitToTime (time : R) (tr : trajectory) : trajectory :=
  mk (limitToTime_from time (profile tr)) (s0 tr) (correctionOffsetPerSecond tr)
     (slowDownTime tr).

Fixpoint endPosition_from (acc : S.acceleration) (corr : Vector) (profile : list VT)
    (offset : Vector) (totalTime : R) : Vector :=
  match profile with
  | first :: (second :: _) as rest =>
      let precomputation := S.precomputeSegment acc first second in
      endPosition_from acc corr rest
        (offset +v S.segmentOffset acc first second precomputation)
        (totalTime + S.timeForSegment acc first second precomputation)
  | _ => offset +v corr *v totalTime
  end.

Definition endPosition (tr : trajectory) : Vector :=
  endPosition_from (S.make (back_t (profile tr)) (slowDownTime tr))
    (correctionOffsetPerSecond tr) (profile tr) (s0 tr) 0.

Fixpoint stateAtTime_from (acc : S.acceleration) (corr : Vector) (profile : list VT)
    (offset : Vector) (totalTime time : R) : RobotState :=
  match profile with
  | first :: (second :: _) as rest =>
      let precomputation := S.precomputeSegment acc first second in
      let segmentTime := S.timeForSegment acc first second precomputation in
      if Rgtb (totalTime + segmentTime) time then
        let inf := S.partialSegmentOffsetAndSpeed acc first second precomputation
                     totalTime time in
        mkRobotState (offset +v corr *v time +v fst inf) (snd inf)
      else
        stateAtTime_from acc corr rest
          (offset +v S.segmentOffset acc first second precomputation)
          (totalTime + segmentTime) time
  | _ => mkRobotState (offset +v corr *v totalTime) (back_v profile)
  end.

Definition stateAtTime (tr : trajectory) (time : R) : RobotState :=
  stateAtTime_from (S.make (back_t (profile tr)) (slowDownTime tr))
    (correctionOffsetPerSecond tr) (profile tr) (s0 tr) 0 time.

(** The constructor's argument [slowDownTime]: zero is stored as [-1]. *)
Definition storedSlowDownTime (slowDownTime : R) : R :=
  if Reqb slowDownTime 0 then -1 else slowDownTime.

End Trajectory.

(** ** speedprofile.cpp: end positions of 1-D profiles *)

Module SpeedProfile1D.

Record VT : Type := mkVT { v : R; t : R }.

Record TrajectoryPosInfo1D : Type := mkPosInfo { endPos : R; increaseAtSpeed : R }.

Definition constantDistance (v time : R) : R := v * time.

Definition dist (v0 v1 acc : R) : R :=
  let time := Rabs (v0 - v1) / acc in
  0.5 * (v0 + v1) * time.

Definition freeExtraTimeDistance (v time acc vMax : R) : R * R :=
  let toMaxTime := 2 * Rabs (vMax - v) / acc in
  if Rltb toMaxTime time then
    (2 * dist v vMax acc + constantDistance vMax (time - toMaxTime), vMax)
  else
    let v1 := (if Rgtb v vMax then -1 else 1) * acc * time / 2 + v in
    (2 * dist v v1 acc, v1).

Definition calculateEndPos1D (v0 v1 hintDist acc vMax : R) : TrajectoryPosInfo1D :=
  let desiredVMax := if Rltb hintDist 0 then - vMax else vMax in
  if Reqb hintDist 0 then mkPosInfo (dist v0 v1 acc) (Rmax v0 v1)
  else if negb (Bool.eqb (Rltb v0 desiredVMax) (Rltb v1 desiredVMax)) then
    mkPosInfo (dist v0 v1 acc + constantDistance desiredVMax (Rabs hintDist)) desiredVMax
  else
    let v0Closer := Rltb (Rabs (v0 - desiredVMax)) (Rabs (v1 - desiredVMax)) in
    let closerSpeed := if v0Closer then v0 else v1 in
    let extraDistance := freeExtraTimeDistance closerSpeed (Rabs hintDist) acc desiredVMax in
    mkPosInfo (fst extraDistance + dist v0 v1 acc) (snd extraDistance).

Definition adjustEndSpeed (v0 v1 time : R) (directionPositive : bool) (acc : R) : VT :=
  let invAcc := 1 / acc in
  let speedAfterT := v0 + (if directionPositive then 1 else -1) * (time * acc) in
  let boundedSpeed := Rmax (Rmin speedAfterT (Rmax v1 0)) (Rmin v1 0) in
  let necessaryTime := Rabs (v0 - boundedSpeed) * invAcc in
  mkVT boundedSpeed (time - necessaryTime).

Definition calculateEndPos1DFastSpeed (v0 v1 time : R) (directionPositive : bool)
    (acc vMax : R) : TrajectoryPosInfo1D :=
  let endValues := adjustEndSpeed v0 v1 time directionPositive acc in
  if Reqb (t endValues) 0 then
    mkPosInfo ((v0 + v endValues) * 0.5 * time)
              (if directionPositive then Rmax v0 v1 else Rmin v0 v1)
  else
    calculateEndPos1D v0 (v endValues)
      (if directionPositive then t endValues else - t endValues) acc vMax.

(** A profile under construction: the speeds reached and, until
    [integrateTime] has run, the time each segment takes. *)
Definition profile1D : Type := list VT.

(** [integrateTime]: the times of the segments become the times they end
    at. *)
Fixpoint integrateTime_from (totalTime : R) (profile : profile1D) : profile1D :=
  match profile with
  | [] => []
  | p :: rest =>
      let totalTime := totalTime + t p in
      mkVT (v p) totalTime :: integrateTime_from totalTime rest
  end.

Definition integrateTime (profile : profile1D) : profile1D :=
  integrateTime_from 0 profile.

Definition createFreeExtraTimeSegment (profile : profile1D)
    (beforeSpeed v nextSpeed time acc desiredVMax : R) : profile1D :=
  let toMaxTime := 2 * Rabs (desiredVMax - v) / acc in
  if Rltb toMaxTime time then
    profile ++ [mkVT desiredVMax (Rabs (desiredVMax - beforeSpeed) / acc);
                mkVT desiredVMax (time - toMaxTime);
                mkVT nextSpeed (Rabs (desiredVMax - nextSpeed) / acc)]
  else
    let v1 := (if Rgtb v desiredVMax then -1 else 1) * acc * time / 2 + v in
    profile ++ [mkVT v1 (Rabs (beforeSpeed - v1) / acc);
                mkVT nextSpeed (Rabs (nextSpeed - v1) / acc)].

Definition calculate1DTrajectory (v0 v1 extraTime : R) (directionPositive : bool)
    (acc vMax : R) : profile1D :=
  let result := [mkVT v0 0] in
  let desiredVMax := if directionPositive then vMax else - vMax in
  if Reqb extraTime 0 then
    result ++ [mkVT v1 (Rabs (v0 - v1) / acc)]
  else if negb (Bool.eqb (Rltb v0 desiredVMax) (Rltb v1 desiredVMax)) then
    let accInv := 1 / acc in
    result ++ [mkVT desiredVMax (Rabs (v0 - desiredVMax) * accInv);
               mkVT desiredVMax extraTime;
               mkVT v1 (Rabs (v1 - desiredVMax) * accInv)]
  else
    let v0Closer := Rltb (Rabs (v0 - desiredVMax)) (Rabs (v1 - desiredVMax)) in
    let closerSpeed := if v0Closer then v0 else v1 in
    createFreeExtraTimeSegment result v0 closerSpeed v1 extraTime acc desiredVMax.

Definition calculate1DTrajectoryFastEndSpeed (v0 v1 time : R) (directionPositive : bool)
    (acc vMax : R) : profile1D :=
  let endValues := adjustEndSpeed v0 v1 time directionPositive acc in
  if Reqb (t endValues) 0 then
    [mkVT v0 0; mkVT (v endValues) (Rabs (v endValues - v0) / acc)]
  else
    calculate1DTrajectory v0 (v endValues) (t endValues) directionPositive acc vMax.

(** [std::copysign(x, y)] and [std::signbit(x)] on numbers other than the
    negative zero. *)
Definition copysign (x y : R) : R := if Rltb y 0 then - Rabs x else Rabs x.
Definition signbit (x : R) : bool := Rltb x 0.

(** [solveSq]; [None] is a failed [assert]. *)
Definition solveSq (a b c : R) : option R :=
  if Reqb a 0 then
    if Reqb b 0 then None else Some (- c / b)
  else
    let det := b * b - 4 * a * c in
    if Rltb det 0 then None
    else if Reqb det 0 then Some (- b / (2 * a))
    else
      let det := sqrt det in
      let t2 := (- b - copysign det b) / (2 * a) in
      let t1 := c / (a * t2) in
      Some (Rmax t1 t2).

Definition create1DAccelerationByDistance (v0 v1 time distance : R) : option profile1D :=
  if negb (Bool.eqb (signbit v0) (signbit distance)
           && (Bool.eqb (signbit v1) (signbit distance) || Reqb v1 0))
  then None
  else
    let a := 1 / distance in
    let b := - 2 / time in
    let v0Abs := Rabs v0 in
    let v1Abs := Rabs v1 in
    let c := 1 / time * (v0Abs + v1Abs)
             - 1 / (2 * distance) * (v0Abs * v0Abs + v1Abs * v1Abs) in
    match solveSq a b c with
    | None => None
    | Some solution =>
        let midSpeed := copysign solution v0 in
        let acc := 1 / (2 * distance)
                   * (2 * midSpeed * midSpeed - v0Abs * v0Abs - v1Abs * v1Abs) in
        let accInv := 1 / acc in
        Some [mkVT v0 0;
              mkVT midSpeed (Rabs (v0 - midSpeed) * accInv);
              mkVT v1 (Rabs (v1 - midSpeed) * accInv)]
    end.

Definition createLinearSpeedSegment (v0 v1 time : R) : profile1D :=
  [mkVT v0 0; mkVT v1 time].

(** The speed at [time] on the segment between two points of an integrated
    profile. *)
Definition speedForTime (first second : VT) (time : R) : R :=
  let timeDiff := time - t first in
  let diff := if Reqb (t second) (t first) then 1 else timeDiff / (t second - t first) in
  v first + diff * (v second - v first).

End SpeedProfile1D.

(** ** alphatimetrajectory.cpp *)

Module AlphaTimeTrajectory.

(** [SpeedProfile1D] and [SpeedProfile] as this file fills them: [profile]
    holds the first [counter] entries of the array. *)
Record Profile1D : Type := mkProfile1D {
  acc : R; counter : nat; profile : list SpeedProfile1D.VT }.

Record SpeedProfile : Type := mkSpeedProfile {
  valid : bool;
  xProfile : Profile1D;
  yProfile : Profile1D;
  inputTime : R;
  inputAngle : R }.

Record TrajectoryPosInfo2D : Type := mkPosInfo2D {
  endPos : Vector; increaseAtSpeed : Vector }.

(** The header speedprofile.h this file was written against and
    core/vector.h are not among the sources at hand: what the file calls of
    them enters as the members of this class. *)
Class ProfileOps : Type := {
  (** a default constructed [SpeedProfile] *)
  emptyProfile : SpeedProfile;
  (** [xProfile.calculate1DTrajectory(v0, v1, hintDist, acc, vMax)] *)
  calculate1DTrajectory : R -> R -> R -> R -> R -> Profile1D;
  calculate1DTrajectoryFastEndSpeed : R -> R -> R -> bool -> R -> R -> Profile1D;
  integrateTime : Profile1D -> Profile1D;
  calculateSlowDownPos : SpeedProfile -> R -> Vector;
  continuationSpeed : SpeedProfile -> Vector;
  time : SpeedProfile -> R;
  timeWithSlowDown : SpeedProfile -> R -> R;
  positionForTime : SpeedProfile -> R -> Vector;
  positionForTimeSlowDown : SpeedProfile -> R -> R -> Vector;
  speedForTime : SpeedProfile -> R -> Vector;
  speedForTimeSlowDown : SpeedProfile -> R -> R -> Vector;
  (** [Vector::angle()] *)
  angle : Vector -> R }.

Definition set_valid (b : bool) (p : SpeedProfile) : SpeedProfile :=
  mkSpeedProfile b (xProfile p) (yProfile p) (inputTime p) (inputAngle p).

Definition REGULAR_TARGET_PRECISION : R := 0.01.
Definition HIGH_QUALITY_TARGET_PRECISION : R := 0.0002.
Definition MAX_SEARCH_ITERATIONS : nat := 30.
Definition HIGH_PRECISION_ITERATIONS : nat := 50.

(** The two [while] loops that bring an angle into a window of width
    [2 * PI]; [turns] bounds their number of rounds.  The angles are real
    numbers here, so every round moves the angle by [2 * PI]; in the single
    precision of the source that step is lost on angles beyond 2^27 in
    magnitude, where the loops of the source do not end. *)
Definition turns (angle : R) : nat :=
  Z.to_nat (Z.abs (Int_part (angle / (2 * PI))) + 2).

Fixpoint raise_angle (fuel : nat) (low angle : R) : R :=
  match fuel with
  | O => angle
  | S fuel => if Rltb angle low then raise_angle fuel low (angle + 2 * PI) else angle
  end.

Fixpoint lower_angle (fuel : nat) (high angle : R) : R :=
  match fuel with
  | O => angle
  | S fuel => if Rgeb angle high then lower_angle fuel high (angle - 2 * PI) else angle
  end.

Definition normalizeAnglePositive (angle : R) : R :=
  lower_angle (turns angle) (2 * PI) (raise_angle (turns angle) 0 angle).

Definition adjustAngle (startSpeed endSpeed : Vector) (time angle acc : R) : R :=
  let diff := endSpeed -v startSpeed in
  let absDiff := mkVector (Rabs (vx diff)) (Rabs (vy diff)) in
  if Rgtb (vx absDiff) (time * acc) || Rgtb (vy absDiff) (time * acc) then angle
  else
    let FLOATING_POINT_OFFSET := 0.001 in
    let gapSizeHalfX := asin (vx absDiff / (time * acc)) + FLOATING_POINT_OFFSET in
    let gapSizeHalfY := asin (vy absDiff / (time * acc)) + FLOATING_POINT_OFFSET in
    let circleCircumference := 2 * PI - gapSizeHalfX * 4 - gapSizeHalfY * 4 in
    let circumferenceFactor := circleCircumference / (2 * PI) in
    let angle := normalizeAnglePositive angle in
    let angle := angle * circumferenceFactor in
    let angle := angle + gapSizeHalfX in
    let angle := if Rgtb angle (PI / 2 - gapSizeHalfY) then angle + gapSizeHalfY * 2 else angle in
    let angle := if Rgtb angle (PI - gapSizeHalfX) then angle + gapSizeHalfX * 2 else angle in
    let angle := if Rgtb angle (PI * 1.5 - gapSizeHalfY) then angle + gapSizeHalfY * 2 else angle in
    angle.

(** The closest value to [startSpeed] on [[0, endSpeed]]. *)
Definition fastEndSpeed (startSpeed endSpeed : R) : R :=
  Rmax (Rmin startSpeed (Rmax endSpeed 0)) (Rmin endSpeed 0).

Definition adjustAngleFastEndSpeed (startSpeed endSpeed : Vector) (time angle acc : R) : R :=
  let endSpeedX := fastEndSpeed (vx startSpeed) (vx endSpeed) in
  let endSpeedY := fastEndSpeed (vy startSpeed) (vy endSpeed) in
  adjustAngle startSpeed (mkVector endSpeedX endSpeedY) time angle acc.

Definition minTimeExactEndSpeed (v0 v1 : Vector) (acc : R) : R :=
  let diff := v1 -v v0 in
  Vec.length diff / acc.

Definition minTimeFastEndSpeed (v0 v1 : Vector) (acc : R) : R :=
  let endSpeedX := fastEndSpeed (vx v0) (vx v1) in
  let endSpeedY := fastEndSpeed (vy v0) (vy v1) in
  minTimeExactEndSpeed v0 (mkVector endSpeedX endSpeedY) acc.

Definition calculatePositionFastEndSpeed (v0 v1 : Vector) (time angle acc vMax : R)
    : TrajectoryPosInfo2D :=
  let angle := adjustAngleFastEndSpeed v0 v1 time angle acc in
  let alphaX := sin angle in
  let alphaY := cos angle in
  let xInfo := SpeedProfile1D.calculateEndPos1DFastSpeed (vx v0) (vx v1) time
                 (Rgtb alphaX 0) (acc * Rabs alphaX) (vMax * Rabs alphaX) in
  let yInfo := SpeedProfile1D.calculateEndPos1DFastSpeed (vy v0) (vy v1) time
                 (Rgtb alphaY 0) (acc * Rabs alphaY) (vMax * Rabs alphaY) in
  mkPosInfo2D
    (mkVector (SpeedProfile1D.endPos xInfo) (SpeedProfile1D.endPos yInfo))
    (mkVector (SpeedProfile1D.increaseAtSpeed xInfo) (SpeedProfile1D.increaseAtSpeed yInfo)).

Definition calculatePositionExactEndSpeed (v0 v1 : Vector) (time angle acc vMax : R)
    : TrajectoryPosInfo2D :=
  let angle := adjustAngle v0 v1 time angle acc in
  let alphaX := sin angle in
  let alphaY := cos angle in
  let diff := v1 -v v0 in
  let restTimeX := time - Rabs (vx diff) / (acc * Rabs alphaX) in
  let restTimeY := time - Rabs (vy diff) / (acc * Rabs alphaY) in
  let xInfo := SpeedProfile1D.calculateEndPos1D (vx v0) (vx v1) (sign alphaX * restTimeX)
                 (acc * Rabs alphaX) (vMax * Rabs alphaX) in
  let yInfo := SpeedProfile1D.calculateEndPos1D (vy v0) (vy v1) (sign alphaY * restTimeY)
                 (acc * Rabs alphaY) (vMax * Rabs alphaY) in
  mkPosInfo2D
    (mkVector (SpeedProfile1D.endPos xInfo) (SpeedProfile1D.endPos yInfo))
    (mkVector (SpeedProfile1D.increaseAtSpeed xInfo) (SpeedProfile1D.increaseAtSpeed yInfo)).

Section WithProfiles.
Context `{ProfileOps}.

(** [minTime < 0] asks for the minimum time to be computed here. *)
Definition calculateTrajectoryFastEndSpeed (v0 v1 : Vector) (time angle acc vMax : R)
    (minTime : R) : SpeedProfile :=
  let minTime := if Rltb minTime 0 then minTimeFastEndSpeed v0 v1 acc else minTime in
  let time := time + minTime in
  let angle := adjustAngleFastEndSpeed v0 v1 time angle acc in
  let alphaX := sin angle in
  let alphaY := cos angle in
  let result := emptyProfile in
  mkSpeedProfile (valid result)
    (integrateTime (calculate1DTrajectoryFastEndSpeed (vx v0) (vx v1) time
                      (Rgtb alphaX 0) (acc * Rabs alphaX) (vMax * Rabs alphaX)))
    (integrateTime (calculate1DTrajectoryFastEndSpeed (vy v0) (vy v1) time
                      (Rgtb alphaY 0) (acc * Rabs alphaY) (vMax * Rabs alphaY)))
    (inputTime result) (inputAngle result).

Definition calculateTrajectoryExactEndSpeed (v0 v1 : Vector) (time angle acc vMax : R)
    (minTime : R) : SpeedProfile :=
  let minTime := if Rltb minTime 0 then minTimeExactEndSpeed v0 v1 acc else minTime in
  let time := time + minTime in
  let angle := adjustAngle v0 v1 time angle acc in
  let alphaX := sin angle in
  let alphaY := cos angle in
  let diff := v1 -v v0 in
  let restTimeX := time - Rabs (vx diff) / (acc * Rabs alphaX) in
  let restTimeY := time - Rabs (vy diff) / (acc * Rabs alphaY) in
  let result := emptyProfile in
  mkSpeedProfile (valid result)
    (integrateTime (calculate1DTrajectory (vx v0) (vx v1)
                      (if Rgtb alphaX 0 then restTimeX else - restTimeX)
                      (acc * Rabs alphaX) (vMax * Rabs alphaX)))
    (integrateTime (calculate1DTrajectory (vy v0) (vy v1)
                      (if Rgtb alphaY 0 then restTimeY else - restTimeY)
                      (acc * Rabs alphaY) (vMax * Rabs alphaY)))
    (inputTime result) (inputAngle result).

Definition fastEndSpeedCenterTimePos (startSpeed endSpeed : Vector) (time : R) : Vector :=
  let endSpeedX := fastEndSpeed (vx startSpeed) (vx endSpeed) in
  let endSpeedY := fastEndSpeed (vy startSpeed) (vy endSpeed) in
  (startSpeed +v mkVector endSpeedX endSpeedY) *v (0.5 * time).

Definition centerTimePos (startSpeed endSpeed : Vector) (time : R) : Vector :=
  (startSpeed +v endSpeed) *v (0.5 * time).

Definition ramp (v0 v1 minTime : R) : Profile1D :=
  mkProfile1D (Rabs (v0 - v1) / minTime) 2
    [SpeedProfile1D.mkVT v0 0; SpeedProfile1D.mkVT v1 minTime].

Definition minTimePos (v0 v1 : Vector) (acc slowDownTime : R) : Vector :=
  let minTime := minTimeExactEndSpeed v0 v1 acc in
  if Reqb slowDownTime 0 then (v0 +v v1) *v (minTime * 0.5)
  else
    let profile :=
      mkSpeedProfile (valid emptyProfile) (ramp (vx v0) (vx v1) minTime)
        (ramp (vy v0) (vy v1) minTime) (inputTime emptyProfile)
        (inputAngle emptyProfile) in
    calculateSlowDownPos profile slowDownTime.

(** Normalization to [[-PI, PI)]. *)
Definition angleDiff (a1 a2 : R) : R :=
  let angle := a1 - a2 in
  lower_angle (turns angle) PI (raise_angle (turns angle) (- PI) angle).

(** The quotients are those of the real numbers: they are the source's as
    long as no component of [distance] is zero, where the source gets an
    infinity or a NaN. *)
Definition necessaryAcceleration (v0 distance : Vector) : Vector :=
  mkVector (vx v0 * Rabs (vx v0) * 0.5 / vx distance)
           (vy v0 * Rabs (vy v0) * 0.5 / vy distance).

(** The variables the search loops carry from one round to the next. *)
Record SearchState : Type := mkSearch {
  result : SpeedProfile;
  currentTime : R; currentAngle : R;
  distanceFactor : R; lastCenterDistanceDiff : R;
  angleFactor : R; lastAngleDiff : R }.

(** What both loops do with the end position of a round that missed the
    target: the damped corrections of time and angle. *)
Definition correct (exact : bool) (i : nat) (position endPos currentCenterTimePos : Vector)
    (assumedSpeed : R) (st : SearchState) (result : SpeedProfile) : SearchState :=
  let newDistance := Vec.distance endPos currentCenterTimePos in
  let targetCenterDistance := Vec.distance currentCenterTimePos position in
  let currentCenterDistanceDiff := targetCenterDistance - newDistance in
  let distanceFactor :=
    if negb (Bool.eqb (Rltb (lastCenterDistanceDiff st) 0) (Rltb currentCenterDistanceDiff 0))
    then distanceFactor st * (if exact then 0.85 else 0.9)
    else distanceFactor st * 1.05 in
  let currentTime :=
    currentTime st + currentCenterDistanceDiff * distanceFactor / Rmax 0.5 assumedSpeed in
  let newAngle := angle (endPos -v currentCenterTimePos) in
  let targetCenterAngle := angle (position -v currentCenterTimePos) in
  let currentAngleDiff := angleDiff targetCenterAngle newAngle in
  let angleFactor :=
    if (4 <=? i)%nat
       && negb (Bool.eqb (Rltb currentAngleDiff 0) (Rltb (lastAngleDiff st) 0))
    then angleFactor st * 0.5 else angleFactor st in
  mkSearch result currentTime (currentAngle st + currentAngleDiff * angleFactor)
           distanceFactor currentCenterDistanceDiff angleFactor currentAngleDiff.

Definition targetPrecision (highPrecision : bool) : R :=
  if highPrecision then HIGH_QUALITY_TARGET_PRECISION else REGULAR_TARGET_PRECISION.

(** The [for] loop of [findTrajectoryExactEndSpeed]: [rounds] are left, [i]
    is the loop counter. *)
Fixpoint searchExactEndSpeed (rounds i : nat) (v0 v1 position : Vector)
    (acc vMax slowDownTime : R) (highPrecision : bool) (minimumTime : R)
    (useMinTimePosForCenterPos : bool) (minPos : Vector) (st : SearchState)
    : SpeedProfile :=
  match rounds with
  | O => set_valid false (result st)
  | S rounds =>
      let currentTime := Rmax (currentTime st) 0 in
      let st := mkSearch (result st) currentTime (currentAngle st) (distanceFactor st)
                  (lastCenterDistanceDiff st) (angleFactor st) (lastAngleDiff st) in
      let '(result, endPos, assumedSpeed) :=
        if Rgtb slowDownTime 0 then
          let result := calculateTrajectoryExactEndSpeed v0 v1 currentTime
                          (currentAngle st) acc vMax minimumTime in
          let continuation := continuationSpeed result in
          (result, calculateSlowDownPos result slowDownTime,
           Rmax (Rabs (vx continuation)) (Rabs (vy continuation)))
        else
          let trajectoryInfo := calculatePositionExactEndSpeed v0 v1
                                  (currentTime + minimumTime) (currentAngle st) acc vMax in
          (result st, endPos trajectoryInfo,
           Rmax (Rabs (vx (increaseAtSpeed trajectoryInfo)))
                (Rabs (vy (increaseAtSpeed trajectoryInfo)))) in
      let targetDistance := Vec.distance position endPos in
      if Rltb targetDistance (targetPrecision highPrecision) then
        if Rleb slowDownTime 0
        then calculateTrajectoryExactEndSpeed v0 v1 currentTime (currentAngle st)
               acc vMax minimumTime
        else result
      else
        let currentCenterTimePos :=
          if useMinTimePosForCenterPos then minPos
          else centerTimePos v0 v1 (currentTime + minimumTime) in
        searchExactEndSpeed rounds (S i) v0 v1 position acc vMax slowDownTime
          highPrecision minimumTime useMinTimePosForCenterPos minPos
          (correct true i position endPos currentCenterTimePos assumedSpeed st result)
  end.

(** The closed form of [findTrajectoryExactEndSpeed]: one ramp per axis from
    [v0] to rest. *)
Definition closedFormProfile (v0 necessaryAcc : Vector) : SpeedProfile :=
  let result := emptyProfile in
  mkSpeedProfile true
    (mkProfile1D (vx necessaryAcc) 2
       [SpeedProfile1D.mkVT (vx v0) 0;
        SpeedProfile1D.mkVT 0 (Rabs (vx v0 / vx necessaryAcc))])
    (mkProfile1D (vy necessaryAcc) 2
       [SpeedProfile1D.mkVT (vy v0) 0;
        SpeedProfile1D.mkVT 0 (Rabs (vy v0 / vy necessaryAcc))])
    (inputTime result) (inputAngle result).

(** The remainder of [findTrajectoryExactEndSpeed], from [minTimePos] on. *)
Definition iterativeSearchExactEndSpeed (v0 v1 position : Vector)
    (acc vMax slowDownTime : R) (highPrecision : bool) : SpeedProfile :=
  let minPos := minTimePos v0 v1 acc slowDownTime in
  let minTimeDistance := Vec.distance position minPos in
  let useMinTimePosForCenterPos := Rltb minTimeDistance 0.1 in
  let estimatedTime := minTimeDistance / acc in
  let estimateCenterPos := centerTimePos v0 v1 estimatedTime in
  let estimatedAngle := normalizeAnglePositive (angle (position -v estimateCenterPos)) in
  let estimatedTime := Rmax estimatedTime 0.01 in
  (* a real number is never a NaN: the two [isnan] guards do not fire *)
  let minimumTime := minTimeExactEndSpeed v0 v1 acc in
  searchExactEndSpeed
    (if highPrecision then HIGH_PRECISION_ITERATIONS else MAX_SEARCH_ITERATIONS) 0
    v0 v1 position acc vMax slowDownTime highPrecision minimumTime
    useMinTimePosForCenterPos minPos
    (mkSearch emptyProfile estimatedTime estimatedAngle 0.8 0 0.8 0).

Definition MAX_ACCELERATION_FACTOR : R := 1.2.

(** [findTrajectoryExactEndSpeed].  The quotients of the closed-form test are
    those of the real numbers: they are the source's for a start speed and
    a position without a zero component. *)
Definition findTrajectoryExactEndSpeed (v0 v1 position : Vector)
    (acc vMax slowDownTime : R) (highPrecision : bool) : SpeedProfile :=
  let search :=
    iterativeSearchExactEndSpeed v0 v1 position acc vMax slowDownTime highPrecision in
  if Vec.eqb v1 (mkVector 0 0) then
    let necessaryAcc := necessaryAcceleration v0 position in
    let accLength := Vec.length necessaryAcc in
    let timeDiff :=
      Rabs (Rabs (vx v0) / vx necessaryAcc - Rabs (vy v0) / vy necessaryAcc) in
    if Rgtb accLength acc && Rltb accLength (acc * MAX_ACCELERATION_FACTOR)
       && Rltb timeDiff 0.1
    then closedFormProfile v0 necessaryAcc
    else search
  else search.

(** The [for] loop of [findTrajectoryFastEndSpeed]. *)
Fixpoint searchFastEndSpeed (rounds i : nat) (v0 v1 position : Vector)
    (acc vMax slowDownTime : R) (highPrecision : bool) (minimumTime : R)
    (st : SearchState) : SpeedProfile :=
  match rounds with
  | O => set_valid false (result st)
  | S rounds =>
      let currentTime := Rmax (currentTime st) 0 in
      let st := mkSearch (result st) currentTime (currentAngle st) (distanceFactor st)
                  (lastCenterDistanceDiff st) (angleFactor st) (lastAngleDiff st) in
      let '(result, endPos, assumedSpeed) :=
        if Rgtb slowDownTime 0 then
          let result := calculateTrajectoryFastEndSpeed v0 v1 currentTime
                          (currentAngle st) acc vMax minimumTime in
          let continuation := continuationSpeed result in
          (result, calculateSlowDownPos result slowDownTime,
           Rmax (Rabs (vx continuation)) (Rabs (vy continuation)))
        else
          let trajectoryInfo := calculatePositionFastEndSpeed v0 v1
                                  (currentTime + minimumTime) (currentAngle st) acc vMax in
          (result st, endPos trajectoryInfo,
           Rmax (Rabs (vx (increaseAtSpeed trajectoryInfo)))
                (Rabs (vy (increaseAtSpeed trajectoryInfo)))) in
      let targetDistance := Vec.distance position endPos in
      if Rltb targetDistance (targetPrecision highPrecision) then
        if Rleb slowDownTime 0
        then calculateTrajectoryFastEndSpeed v0 v1 currentTime (currentAngle st)
               acc vMax minimumTime
        else result
      else
        let currentCenterTimePos :=
          fastEndSpeedCenterTimePos v0 v1 (currentTime + minimumTime) in
        searchFastEndSpeed rounds (S i) v0 v1 position acc vMax slowDownTime
          highPrecision minimumTime
          (correct false i position endPos currentCenterTimePos assumedSpeed st result)
  end.

Definition findTrajectoryFastEndSpeed (v0 v1 position : Vector)
    (acc vMax slowDownTime : R) (highPrecision : bool) : SpeedProfile :=
  if Reqb (vx v1) 0 && Reqb (vy v1) 0 then
    findTrajectoryExactEndSpeed v0 v1 position acc vMax slowDownTime highPrecision
  else
    let minTimeDistance := Vec.distance position (minTimePos v0 v1 acc 0) in
    let estimatedTime := minTimeDistance / acc in
    let estimateCenterPos := fastEndSpeedCenterTimePos v0 v1 estimatedTime in
    let estimatedAngle := normalizeAnglePositive (angle (position -v estimateCenterPos)) in
    let estimatedTime := Rmax estimatedTime 0.001 in
    let minimumTime := minTimeFastEndSpeed v0 v1 acc in
    searchFastEndSpeed
      (if highPrecision then HIGH_PRECISION_ITERATIONS else MAX_SEARCH_ITERATIONS) 0
      v0 v1 position acc vMax slowDownTime highPrecision minimumTime
      (mkSearch emptyProfile estimatedTime estimatedAngle 0.8 0 0.8 0).

End WithProfiles.

End AlphaTimeTrajectory.

(** ** trajectorypath.cpp: the planner *)

(** A [float] that may hold [std::numeric_limits<float>::infinity()]. *)
Inductive xfloat : Type := Finite (r : R) | Infinity.

Module XFloat.

Definition ltb (a b : xfloat) : bool :=
  match a, b with
  | Finite x, Finite y => Rltb x y
  | Finite _, Infinity => true
  | Infinity, _ => false
  end.

Definition gtb (a b : xfloat) : bool := ltb b a.

Definition add (a : xfloat) (r : R) : xfloat :=
  match a with Finite x => Finite (x + r) | Infinity => Infinity end.

(** Product with a positive factor. *)
Definition mul (a : xfloat) (r : R) : xfloat :=
  match a with Finite x => Finite (x * r) | Infinity => Infinity end.

(** [std::min(a, r)] and [std::max(r, a)] with a finite [r]. *)
Definition min (a : xfloat) (r : R) : R :=
  match a with Finite x => Rmin x r | Infinity => r end.

Definition max (r : R) (a : xfloat) : xfloat :=
  match a with Finite x => Finite (Rmax r x) | Infinity => Infinity end.

End XFloat.

Module TrajectoryPath.

Import AlphaTimeTrajectory.

Record Point : Type := mkPoint { pos : Vector; speed : Vector; time : R }.

Record BestTrajectoryInfo : Type := mkBest {
  best_time : xfloat;
  centerTime : R;
  best_angle : R;
  midSpeed : Vector;
  best_valid : bool }.

Record TrajectoryGenerationInfo : Type := mkInfo {
  info_time : R;
  info_angle : R;
  slowDownTime : R;
  info_v0 : Vector;
  info_v1 : Vector;
  desiredDistance : Vector;
  fastEndSpeed : bool }.

(** core/rng.h is not among the sources at hand. *)
Class RNGOps (RNG : Type) : Type := {
  uniformInt : RNG -> Z * RNG;
  uniformFloat : R -> R -> RNG -> R * RNG }.

(** The obstacles and the field, set up before a request. *)
Record World : Type := mkWorld {
  m_boundary : Path.Rect;
  m_radius : R;
  m_circleObstacles : list Path.Obstacle;
  m_rectObstacles : list Path.Obstacle;
  m_triangleObstacles : list Path.Obstacle;
  m_lineObstacles : list Path.Obstacle;
  m_movingCircles : list MovingCircle.t;
  m_movingLines : list MovingLine.t;
  minX : R; minY : R; fieldSize : Vector }.

(** The frame input data and the quasi constants. *)
Record Request : Type := mkRequest {
  v0 : Vector; v1 : Vector; distance : Vector; s0 : Vector; s1 : Vector;
  exponentialSlowDown : bool;
  MAX_SPEED : R; MAX_SPEED_SQUARED : R; ACCELERATION : R }.

Record t (RNG : Type) : Type := mk {
  world : World;
  request : Request;
  m_rng : RNG;
  m_obstacles : list Path.Obstacle;
  m_bestResultInfo : BestTrajectoryInfo;
  m_generationInfo : list TrajectoryGenerationInfo;
  m_bestEndPoint : Vector;
  m_bestEndPointDistance : xfloat;
  m_bestEscapingTime : R;
  m_bestEscapingAngle : R }.
Arguments mk {RNG}.
Arguments world {RNG} _.
Arguments request {RNG} _.
Arguments m_rng {RNG} _.
Arguments m_obstacles {RNG} _.
Arguments m_bestResultInfo {RNG} _.
Arguments m_generationInfo {RNG} _.
Arguments m_bestEndPoint {RNG} _.
Arguments m_bestEndPointDistance {RNG} _.
Arguments m_bestEscapingTime {RNG} _.
Arguments m_bestEscapingAngle {RNG} _.

Definition TOTAL_SLOW_DOWN_TIME : R := 0.3.
Definition OBSTACLE_AVOIDANCE_RADIUS : R := 0.1.
Definition OBSTACLE_AVOIDANCE_BONUS : R := 1.2.

(** *** The planner's monad: state, and [None] when a loop without a bound
    on its rounds has used up its fuel. *)

Definition M (RNG A : Type) : Type := t RNG -> option (A * t RNG).

Definition ret {RNG A} (a : A) : M RNG A := fun st => Some (a, st).

Definition bind {RNG A B} (m : M RNG A) (k : A -> M RNG B) : M RNG B :=
  fun st => match m st with Some (a, st') => k a st' | None => None end.

Definition gets {RNG A} (f : t RNG -> A) : M RNG A := fun st => Some (f st, st).

Definition modify {RNG} (f : t RNG -> t RNG) : M RNG unit := fun st => Some (tt, f st).

Definition outOfFuel {RNG A} : M RNG A := fun _ => None.

Declare Scope planner_scope.
Delimit Scope planner_scope with planner.
Notation "x <- c1 ;; c2" := (bind c1 (fun x => c2))
  (at level 100, c1 at next level, right associativity) : planner_scope.
Notation "c1 ;;; c2" := (bind c1 (fun _ => c2))
  (at level 100, right associativity) : planner_scope.
#[local] Open Scope planner_scope.

Section Planner.
Context `{ProfileOps} {RNG : Type} `{RNGOps RNG}.

(** [AlphaTimeTrajectory::isInputValidFastEndSpeed] is declared in a header
    that is not among the sources at hand. *)
Variable isInputValidFastEndSpeed : Vector -> Vector -> R -> R -> bool.

#[local] Abbreviation state := (t RNG).
#[local] Abbreviation Planner := (M RNG).

Definition set_request (r : Request) (st : state) : state :=
  mk (world st) r (m_rng st) (m_obstacles st) (m_bestResultInfo st)
     (m_generationInfo st) (m_bestEndPoint st) (m_bestEndPointDistance st)
     (m_bestEscapingTime st) (m_bestEscapingAngle st).

Definition set_rng (rng : RNG) (st : state) : state :=
  mk (world st) (request st) rng (m_obstacles st) (m_bestResultInfo st)
     (m_generationInfo st) (m_bestEndPoint st) (m_bestEndPointDistance st)
     (m_bestEscapingTime st) (m_bestEscapingAngle st).

Definition set_obstacles (l : list Path.Obstacle) (st : state) : state :=
  mk (world st) (request st) (m_rng st) l (m_bestResultInfo st)
     (m_generationInfo st) (m_bestEndPoint st) (m_bestEndPointDistance st)
     (m_bestEscapingTime st) (m_bestEscapingAngle st).

Definition set_bestResultInfo (b : BestTrajectoryInfo) (st : state) : state :=
  mk (world st) (request st) (m_rng st) (m_obstacles st) b
     (m_generationInfo st) (m_bestEndPoint st) (m_bestEndPointDistance st)
     (m_bestEscapingTime st) (m_bestEscapingAngle st).

Definition set_generationInfo (g : list TrajectoryGenerationInfo) (st : state) : state :=
  mk (world st) (request st) (m_rng st) (m_obstacles st) (m_bestResultInfo st)
     g (m_bestEndPoint st) (m_bestEndPointDistance st)
     (m_bestEscapingTime st) (m_bestEscapingAngle st).

Definition set_bestEndPoint (p : Vector) (st : state) : state :=
  mk (world st) (request st) (m_rng st) (m_obstacles st) (m_bestResultInfo st)
     (m_generationInfo st) p (m_bestEndPointDistance st)
     (m_bestEscapingTime st) (m_bestEscapingAngle st).

Definition set_bestEndPointDistance (d : xfloat) (st : state) : state :=
  mk (world st) (request st) (m_rng st) (m_obstacles st) (m_bestResultInfo st)
     (m_generationInfo st) (m_bestEndPoint st) d
     (m_bestEscapingTime st) (m_bestEscapingAngle st).

Definition set_bestEscaping (time angle : R) (st : state) : state :=
  mk (world st) (request st) (m_rng st) (m_obstacles st) (m_bestResultInfo st)
     (m_generationInfo st) (m_bestEndPoint st) (m_bestEndPointDistance st)
     time angle.

Definition set_best_valid (b : bool) (i : BestTrajectoryInfo) : BestTrajectoryInfo :=
  mkBest (best_time i) (centerTime i) (best_angle i) (midSpeed i) b.

Definition set_best_time (x : xfloat) (i : BestTrajectoryInfo) : BestTrajectoryInfo :=
  mkBest x (centerTime i) (best_angle i) (midSpeed i) (best_valid i).

(** [m_rng->uniformInt()] and [m_rng->uniformFloat(a, b)]. *)
Definition rngInt : Planner Z :=
  fun st => let (n, rng) := uniformInt (m_rng st) in Some (n, set_rng rng st).

Definition rngFloat (a b : R) : Planner R :=
  fun st => let (x, rng) := uniformFloat a b (m_rng st) in Some (x, set_rng rng st).

(** [Path::collectObstacles]. *)
Definition collectObstacles (st : state) : state :=
  let w := world st in
  set_obstacles (m_circleObstacles w ++ m_rectObstacles w
                 ++ m_triangleObstacles w ++ m_lineObstacles w) st.

Definition isInStaticObstacle (st : state) (point : Vector) : bool :=
  if negb (Path.pointInPlayfield (m_boundary (world st)) point (m_radius (world st)))
  then true
  else List.existsb
         (fun obstacle => Rltb (Path.distance obstacle point) (m_radius (world st)))
         (m_obstacles st).

Definition isInMovingObstacle (st : state) (point : Vector) (time : R) : bool :=
  List.existsb (fun o => MovingCircle.intersects o point time) (m_movingCircles (world st))
  || List.existsb (fun o => MovingLine.intersects o point time) (m_movingLines (world st)).

(** The forty sample times [totalTime * i / 39.0f]. *)
Definition sampleTimes (totalTime : R) : list R :=
  List.map (fun i => totalTime * INR i / 39) (List.seq 0 40).

Definition profileTime (profile : SpeedProfile) (slowDownTime : R) : R :=
  if Rgtb slowDownTime 0 then timeWithSlowDown profile slowDownTime
  else AlphaTimeTrajectory.time profile.

Definition profilePosition (profile : SpeedProfile) (slowDownTime time : R) : Vector :=
  if Rgtb slowDownTime 0 then positionForTimeSlowDown profile time slowDownTime
  else positionForTime profile time.

Definition isTrajectoryInObstacle (st : state) (profile : SpeedProfile)
    (timeOffset slowDownTime : R) (startPos : Vector) : bool :=
  let totalTime := profileTime profile slowDownTime in
  List.existsb
    (fun time =>
       let pos := profilePosition profile slowDownTime time in
       isInStaticObstacle st (pos +v startPos)
       || isInMovingObstacle st (pos +v startPos) (time + timeOffset))
    (sampleTimes totalTime).

(** One run over distances: [inl d] is the [return d] at a distance that is
    not positive, [inr m] the minimum carried on. *)
Fixpoint scanDistances (ds : list R) (minDistance : R) : R + R :=
  match ds with
  | [] => inr minDistance
  | d :: ds' => if Rleb d 0 then inl d else scanDistances ds' (Rmin minDistance d)
  end.

Definition obstacleDistances (st : state) (point : Vector) (time : R) : list R :=
  List.map (fun obstacle => Path.distance obstacle point - m_radius (world st))
           (m_obstacles st)
  ++ List.map (fun o => MovingCircle.distance o point time) (m_movingCircles (world st))
  ++ List.map (fun o => MovingLine.distance o point time) (m_movingLines (world st)).

Fixpoint minObstacleDistance_from (st : state) (profile : SpeedProfile)
    (timeOffset slowDownTime : R) (startPos : Vector) (times : list R)
    (minDistance : R) : R :=
  match times with
  | [] => minDistance
  | time :: times' =>
      let pos := profilePosition profile slowDownTime time in
      if negb (Path.pointInPlayfield (m_boundary (world st)) (pos +v startPos)
                 (m_radius (world st)))
      then -1
      else
        match scanDistances (obstacleDistances st (pos +v startPos) (time + timeOffset))
                            minDistance with
        | inl d => d
        | inr minDistance =>
            minObstacleDistance_from st profile timeOffset slowDownTime startPos
              times' minDistance
        end
  end.

Definition minObstacleDistance (st : state) (profile : SpeedProfile)
    (timeOffset slowDownTime : R) (startPos : Vector) : R :=
  minObstacleDistance_from st profile timeOffset slowDownTime startPos
    (sampleTimes (profileTime profile slowDownTime)) FLT_MAX.

Definition checkMidPoint (midSpeed : Vector) (time angle : R) : Planner bool :=
  fun st =>
  let r := request st in
  if negb (isInputValidFastEndSpeed midSpeed (v1 r) time (ACCELERATION r))
  then Some (false, st)
  else
    let secondPart :=
      calculateTrajectoryFastEndSpeed midSpeed (v1 r) time angle
        (ACCELERATION r) (MAX_SPEED r) (-1) in
    let slowDownTime := if exponentialSlowDown r then TOTAL_SLOW_DOWN_TIME else 0 in
    let secondPartTime :=
      if exponentialSlowDown r
      then timeWithSlowDown secondPart TOTAL_SLOW_DOWN_TIME
      else AlphaTimeTrajectory.time secondPart in
    let secondPartOffset :=
      if exponentialSlowDown r
      then positionForTimeSlowDown secondPart secondPartTime TOTAL_SLOW_DOWN_TIME
      else positionForTime secondPart secondPartTime in
    if XFloat.gtb (Finite secondPartTime) (best_time (m_bestResultInfo st))
    then Some (false, st)
    else
      let firstPartPosition := distance r -v secondPartOffset in
      let firstPartSlowDownTime :=
        if exponentialSlowDown r then Rmax 0 (TOTAL_SLOW_DOWN_TIME - secondPartTime)
        else 0 in
      let firstPart :=
        findTrajectoryExactEndSpeed (v0 r) midSpeed firstPartPosition
          (ACCELERATION r) (MAX_SPEED r) firstPartSlowDownTime false in
      if negb (valid firstPart) then Some (false, st)
      else
        let firstPartTime :=
          if exponentialSlowDown r && Rgtb firstPartSlowDownTime 0
          then timeWithSlowDown firstPart firstPartSlowDownTime
          else AlphaTimeTrajectory.time firstPart in
        let firstPartObstacleDist :=
          minObstacleDistance st firstPart 0 firstPartSlowDownTime (s0 r) in
        if Rleb firstPartObstacleDist 0 then Some (false, st)
        else
          let secondPartObstacleDist :=
            minObstacleDistance st secondPart firstPartTime slowDownTime
              (s1 r -v secondPartOffset) in
          if Rleb secondPartObstacleDist 0 then Some (false, st)
          else
            let minObstacleDist := Rmin firstPartObstacleDist secondPartObstacleDist in
            let obstacleDistExtraTime :=
              if Rltb minObstacleDist OBSTACLE_AVOIDANCE_RADIUS
              then OBSTACLE_AVOIDANCE_BONUS else 1 in
            let biasedTrajectoryTime :=
              (firstPartTime + secondPartTime) * obstacleDistExtraTime in
            if XFloat.gtb (Finite biasedTrajectoryTime) (best_time (m_bestResultInfo st))
            then Some (false, st)
            else
              let infoFirstPart :=
                mkInfo (inputTime firstPart) (inputAngle firstPart)
                       firstPartSlowDownTime (v0 r) midSpeed firstPartPosition false in
              let infoSecondPart :=
                mkInfo time angle slowDownTime midSpeed (v1 r) (mkVector 0 0) true in
              Some (true,
                    set_generationInfo [infoFirstPart; infoSecondPart]
                      (set_bestResultInfo
                         (mkBest (Finite biasedTrajectoryTime) time angle midSpeed true)
                         st)).

Definition randomPointInField : Planner Vector :=
  x <- (fun st => rngFloat (minX (world st)) (vx (fieldSize (world st))) st) ;;
  y <- (fun st => rngFloat (minY (world st)) (vy (fieldSize (world st))) st) ;;
  ret (mkVector x y).

(** The [do ... while] of [randomSpeed]; [fuel] bounds its rounds. *)
Fixpoint randomSpeed (fuel : nat) : Planner Vector :=
  match fuel with
  | O => outOfFuel
  | S fuel =>
      maxSpeed <- gets (fun st => MAX_SPEED (request st)) ;;
      maxSpeedSquared <- gets (fun st => MAX_SPEED_SQUARED (request st)) ;;
      x <- rngFloat (- maxSpeed) maxSpeed ;;
      y <- rngFloat (- maxSpeed) maxSpeed ;;
      let testSpeed := mkVector x y in
      if Rgtb (Vec.lengthSquared testSpeed) maxSpeedSquared
      then randomSpeed fuel
      else ret testSpeed
  end.

Definition testEndPoint (endPoint : Vector) : Planner bool :=
  fun st =>
  let r := request st in
  if XFloat.gtb (Finite (Vec.distance endPoint (distance r)))
                (XFloat.add (m_bestEndPointDistance st) (- 0.05))
  then Some (false, st)
  else
    let direct :=
      findTrajectoryExactEndSpeed (v0 r) (mkVector 0 0) endPoint
        (ACCELERATION r) (MAX_SPEED r) 0 false in
    if negb (valid direct) then Some (false, st)
    else if isTrajectoryInObstacle st direct 0 0 (s0 r) then Some (false, st)
    else
      let info :=
        mkInfo (inputTime direct) (inputAngle direct) 0 (v0 r) (mkVector 0 0)
               endPoint false in
      Some (true,
            set_generationInfo [info]
              (set_bestEndPoint endPoint
                 (set_bestResultInfo (set_best_valid true (m_bestResultInfo st))
                    (set_bestEndPointDistance
                       (Finite (Vec.distance endPoint (distance r))) st)))).

(** [int(x)] of a [float]: towards zero. *)
Definition to_int (x : R) : Z :=
  if Rle_dec 0 x then Int_part x else (- Int_part (- x))%Z.

Definition FIELD_BOUNDARY_PRIO : Z := 1.
Definition SAMPLING_INTERVAL : R := 0.005.

(** The priority of the obstacles a position lies in at a time. *)
Definition obstaclePriorityAt (st : state) (pos : Vector) (time : R) : Z :=
  let obstaclePriority :=
    if negb (Path.pointInPlayfield (m_boundary (world st)) pos (m_radius (world st)))
    then FIELD_BOUNDARY_PRIO else 0%Z in
  let obstaclePriority :=
    List.fold_left
      (fun p obstacle =>
         if (p <? Path.prio obstacle)%Z
            && Rltb (Path.distance obstacle pos) (m_radius (world st))
         then Path.prio obstacle else p)
      (m_obstacles st) obstaclePriority in
  let obstaclePriority :=
    List.fold_left
      (fun p o =>
         if (p <? MovingCircle.prio o)%Z && MovingCircle.intersects o pos time
         then MovingCircle.prio o else p)
      (m_movingCircles (world st)) obstaclePriority in
  List.fold_left
    (fun p o =>
       if (p <? MovingLine.prio o)%Z && MovingLine.intersects o pos time
       then MovingLine.prio o else p)
    (m_movingLines (world st)) obstaclePriority.

Fixpoint trajectoryObstacleScore_from (st : state) (speedProfile : SpeedProfile)
    (totalTime : R) (samples : nat) (idx : list nat)
    (currentBestObstaclePrio : Z) (currentBestObstacleTime : R) : Z * R :=
  match idx with
  | [] => (currentBestObstaclePrio, currentBestObstacleTime)
  | i :: idx' =>
      let time :=
        if (i <? samples - 1)%nat then INR i * SAMPLING_INTERVAL else totalTime in
      let pos := positionForTime speedProfile time +v s0 (request st) in
      let obstaclePriority := obstaclePriorityAt st pos time in
      let '(currentBestObstaclePrio, currentBestObstacleTime) :=
        if (currentBestObstaclePrio <? obstaclePriority)%Z
        then (obstaclePriority, 0) else (currentBestObstaclePrio, currentBestObstacleTime) in
      let currentBestObstacleTime :=
        if (obstaclePriority =? currentBestObstaclePrio)%Z then
          if (i =? samples - 1)%nat then currentBestObstacleTime + 10
          else currentBestObstacleTime + SAMPLING_INTERVAL
        else currentBestObstacleTime in
      trajectoryObstacleScore_from st speedProfile totalTime samples idx'
        currentBestObstaclePrio currentBestObstacleTime
  end.

Definition trajectoryObstacleScore (st : state) (speedProfile : SpeedProfile) : Z * R :=
  let totalTime := AlphaTimeTrajectory.time speedProfile in
  let samples := Z.to_nat (to_int (totalTime / SAMPLING_INTERVAL) + 1) in
  trajectoryObstacleScore_from st speedProfile totalTime samples (List.seq 0 samples) 0%Z 0.

(** The scores of [escapeObstacles], carried through its loop. *)
Record EscapeBest : Type := mkEscapeBest {
  bestPrio : Z; bestObstacleTime : R; bestTotalTime : R }.

Definition escapeRound (b : EscapeBest) : Planner EscapeBest :=
  n <- rngInt ;;
  timeAngle <-
    (if (Z.modulo n 2 =? 0)%Z then
       time <- rngFloat 0.4 5 ;;
       angle <- rngFloat 0 (2 * PI) ;;
       ret (time, angle)
     else
       dt <- rngFloat (- 0.1) 0.1 ;;
       bestTime <- gets m_bestEscapingTime ;;
       da <- rngFloat (- 0.1) 0.1 ;;
       bestAngle <- gets m_bestEscapingAngle ;;
       ret (Rmax 0.05 (bestTime + dt), bestAngle + da)) ;;
  let '(time, angle) := timeAngle in
  r <- gets request ;;
  let p := calculateTrajectoryExactEndSpeed (v0 r) (mkVector 0 0) time angle
             (ACCELERATION r) (MAX_SPEED r) (-1) in
  if valid p then
    result <- gets (fun st => trajectoryObstacleScore st p) ;;
    let trajectoryTime := AlphaTimeTrajectory.time p in
    if (fst result <? bestPrio b)%Z
       || ((fst result =? bestPrio b)%Z && Rltb (snd result) (bestObstacleTime b))
       || ((fst result =? bestPrio b)%Z && Reqb (snd result) (bestObstacleTime b)
           && Rltb trajectoryTime (bestTotalTime b))
    then
      modify (set_bestEscaping time angle) ;;;
      ret (mkEscapeBest (fst result) (snd result) trajectoryTime)
    else ret b
  else ret b.

Fixpoint escapeLoop (rounds : nat) (b : EscapeBest) : Planner unit :=
  match rounds with
  | O => ret tt
  | S rounds =>
      if (bestPrio b =? 0)%Z then ret tt
      else b <- escapeRound b ;; escapeLoop rounds b
  end.

Definition escapeObstacles : Planner unit :=
  st <- gets (fun st => st) ;;
  let r := request st in
  let p := calculateTrajectoryExactEndSpeed (v0 r) (mkVector 0 0)
             (m_bestEscapingTime st) (m_bestEscapingAngle st)
             (ACCELERATION r) (MAX_SPEED r) (-1) in
  let lastResult := trajectoryObstacleScore st p in
  escapeLoop 100
    (mkEscapeBest (fst lastResult) (snd lastResult) (AlphaTimeTrajectory.time p)) ;;;
  modify (fun st =>
    set_generationInfo
      [mkInfo (m_bestEscapingTime st) (m_bestEscapingAngle st) 0 (v0 (request st))
              (mkVector 0 0) (mkVector 0 0) false] st).

Definition endPointRound (i : nat) : Planner unit :=
  (if (i =? 200 / 3)%nat then
     modify (fun st =>
       if negb (best_valid (m_bestResultInfo st))
       then set_bestEndPointDistance Infinity st else st)
   else ret tt) ;;;
  n <- rngInt ;;
  let randVal := Z.modulo n 1024 in
  st <- gets (fun st => st) ;;
  testPoint <-
    (if (randVal <? 300)%Z then
       let testRadius := XFloat.min (m_bestEndPointDistance st) 0.3 in
       x <- rngFloat (- testRadius) testRadius ;;
       y <- rngFloat (- testRadius) testRadius ;;
       ret (distance (request st) +v mkVector x y)
     else if (randVal <? 800)%Z || XFloat.ltb (m_bestEndPointDistance st) (Finite 0.3) then
       let testRadius := XFloat.min (m_bestEndPointDistance st) 0.3 in
       x <- rngFloat (- testRadius) testRadius ;;
       y <- rngFloat (- testRadius) testRadius ;;
       ret (m_bestEndPoint st +v mkVector x y)
     else randomPointInField) ;;
  testEndPoint testPoint ;;;
  ret tt.

Fixpoint forEach (idx : list nat) (body : nat -> Planner unit) : Planner unit :=
  match idx with
  | [] => ret tt
  | i :: idx' => body i ;;; forEach idx' body
  end.

Definition findPathEndInObstacle : Planner unit :=
  prevBestDistance <- gets m_bestEndPointDistance ;;
  modify (set_bestEndPointDistance Infinity) ;;;
  modify (fun st => set_bestResultInfo (set_best_valid false (m_bestResultInfo st)) st) ;;;
  lastBest <- gets m_bestEndPoint ;;
  ok <- testEndPoint lastBest ;;
  (if negb ok
   then modify (set_bestEndPointDistance (XFloat.mul prevBestDistance 1.3))
   else ret tt) ;;;
  forEach (List.seq 0 200) endPointRound ;;;
  bestValid <- gets (fun st => best_valid (m_bestResultInfo st)) ;;
  if negb bestValid then escapeObstacles else ret tt.

Inductive SamplingMode : Type := TOTAL_RANDOM | CURRENT_BEST | LAST_BEST.

(** [while (info.midSpeed.lengthSquared() > MAX_SPEED_SQUARED)
       chosenMidSpeed *= 0.9f;] *)
Fixpoint shrinkMidSpeed (fuel : nat) (infoMidSpeed chosenMidSpeed : Vector)
    (maxSpeedSquared : R) : option Vector :=
  match fuel with
  | O => None
  | S fuel =>
      if Rgtb (Vec.lengthSquared infoMidSpeed) maxSpeedSquared
      then shrinkMidSpeed fuel infoMidSpeed (chosenMidSpeed *v 0.9) maxSpeedSquared
      else Some chosenMidSpeed
  end.

(** [do speed = chosenMidSpeed + ...
     while (speed.lengthSquared() >= MAX_SPEED_SQUARED);] *)
Fixpoint sampleAround (fuel : nat) (chosenMidSpeed : Vector) : Planner Vector :=
  match fuel with
  | O => outOfFuel
  | S fuel =>
      let RADIUS := 0.2 in
      x <- rngFloat (- RADIUS) RADIUS ;;
      y <- rngFloat (- RADIUS) RADIUS ;;
      let speed := chosenMidSpeed +v mkVector x y in
      maxSpeedSquared <- gets (fun st => MAX_SPEED_SQUARED (request st)) ;;
      if Rgeb (Vec.lengthSquared speed) maxSpeedSquared
      then sampleAround fuel chosenMidSpeed
      else ret speed
  end.

Definition chooseMode (i : nat) (lastTrajectoryInfo : BestTrajectoryInfo)
    : Planner SamplingMode :=
  best <- gets m_bestResultInfo ;;
  if negb (best_valid best) then
    if (i <? 20)%nat then ret LAST_BEST
    else
      n <- rngInt ;;
      if (Z.modulo n 2 =? 0)%Z then ret LAST_BEST else ret TOTAL_RANDOM
  else
    n <- rngInt ;;
    if (Z.modulo n 1024 <? 150)%Z then ret TOTAL_RANDOM
    else if XFloat.ltb (best_time best) (XFloat.add (best_time lastTrajectoryInfo) 0.05)
    then ret CURRENT_BEST
    else
      n <- rngInt ;;
      if (Z.modulo n 2 =? 0)%Z then ret CURRENT_BEST else ret LAST_BEST.

(** The upper end of the sampled time: [best_time - 0.1f] is finite whenever
    a best trajectory is valid; [FLT_MAX] stands in otherwise. *)
Definition maxSampleTime (best : BestTrajectoryInfo) : R :=
  if best_valid best then
    match best_time best with
    | Finite tm => Rmax 0.01 (tm - 0.1)
    | Infinity => FLT_MAX
    end
  else 5.

(** One round of the normal search. *)
Definition searchRound (fuel : nat) (lastTrajectoryInfo : BestTrajectoryInfo)
    (i : nat) : Planner unit :=
  mode <- chooseMode i lastTrajectoryInfo ;;
  sample <-
    match mode with
    | TOTAL_RANDOM =>
        speed <- randomSpeed fuel ;;
        angle <- rngFloat 0 (2 * PI) ;;
        best <- gets m_bestResultInfo ;;
        time <- rngFloat 0 (maxSampleTime best) ;;
        ret (speed, angle, time)
    | _ =>
        best <- gets m_bestResultInfo ;;
        maxSpeedSquared <- gets (fun st => MAX_SPEED_SQUARED (request st)) ;;
        let info :=
          match mode with CURRENT_BEST => best | _ => lastTrajectoryInfo end in
        match shrinkMidSpeed fuel (midSpeed info) (midSpeed info) maxSpeedSquared with
        | None => outOfFuel
        | Some chosenMidSpeed =>
            speed <- sampleAround fuel chosenMidSpeed ;;
            da <- rngFloat (- 0.1) 0.1 ;;
            dt <- rngFloat (- 0.1) 0.1 ;;
            ret (speed, best_angle info + da, centerTime info + dt)
        end
    end ;;
  let '(speed, angle, time) := sample in
  checkMidPoint speed time angle ;;;
  ret tt.

(** [findPathAlphaT] behind the direct trajectory. *)
Definition searchPath (fuel : nat) : Planner unit :=
  lastTrajectoryInfo <- gets m_bestResultInfo ;;
  modify (fun st => set_bestResultInfo (set_best_time Infinity (m_bestResultInfo st)) st) ;;;
  modify (fun st => set_bestResultInfo (set_best_valid false (m_bestResultInfo st)) st) ;;;
  (* check trajectory from last iteration *)
  best <- gets m_bestResultInfo ;;
  (if best_valid best
   then checkMidPoint (midSpeed best) (centerTime best) (best_angle best) ;;; ret tt
   else ret tt) ;;;
  st <- gets (fun st => st) ;;
  if isInStaticObstacle st (s0 (request st))
     || isInMovingObstacle st (s0 (request st)) 0
  then escapeObstacles
  else if isInStaticObstacle st (s1 (request st))
  then findPathEndInObstacle
  else
    forEach (List.seq 0 100) (searchRound fuel lastTrajectoryInfo) ;;;
    bestValid <- gets (fun st => best_valid (m_bestResultInfo st)) ;;
    if negb bestValid then escapeObstacles else ret tt.

Definition directSlowDownTime (r : Request) : R :=
  if exponentialSlowDown r then TOTAL_SLOW_DOWN_TIME else 0.

Definition directTrajectory (r : Request) : SpeedProfile :=
  let useHighPrecision :=
    Rltb (Vec.length (distance r)) 0.1 && Vec.eqb (v1 r) (mkVector 0 0)
    && Rltb (Vec.length (v0 r)) 0.2 in
  findTrajectoryFastEndSpeed (v0 r) (v1 r) (distance r) (ACCELERATION r)
    (MAX_SPEED r) (directSlowDownTime r) useHighPrecision.

(** [direct.isValid() && minObstacleDistance(direct, 0, directSlowDownTime, s0)
     > OBSTACLE_AVOIDANCE_RADIUS] *)
Definition directAccepted (st : state) : bool :=
  let r := request st in
  valid (directTrajectory r)
  && Rgtb (minObstacleDistance st (directTrajectory r) 0 (directSlowDownTime r) (s0 r))
          OBSTACLE_AVOIDANCE_RADIUS.

Definition findPathAlphaT (fuel : nat) : Planner unit :=
  modify collectObstacles ;;;
  modify (set_generationInfo []) ;;;
  st <- gets (fun st => st) ;;
  let r := request st in
  let direct := directTrajectory r in
  if directAccepted st
  then
    modify (set_generationInfo
      [mkInfo (inputTime direct) (inputAngle direct) (directSlowDownTime r)
              (v0 r) (v1 r) (distance r) true])
  else searchPath fuel.

(** The forty points of one entry of [m_generationInfo]. *)
Definition entryPoints (r : Request) (info : TrajectoryGenerationInfo)
    (startPos : Vector) (timeSum : R) : list Point :=
  let trajectory :=
    if fastEndSpeed info
    then calculateTrajectoryFastEndSpeed (info_v0 info) (info_v1 info) (info_time info)
           (info_angle info) (ACCELERATION r) (MAX_SPEED r) (-1)
    else calculateTrajectoryExactEndSpeed (info_v0 info) (info_v1 info) (info_time info)
           (info_angle info) (ACCELERATION r) (MAX_SPEED r) (-1) in
  let noSlowDown := Reqb (slowDownTime info) 0 in
  let totalTime :=
    if noSlowDown then AlphaTimeTrajectory.time trajectory
    else timeWithSlowDown trajectory (slowDownTime info) in
  let '(xScale, yScale) :=
    if negb (Vec.eqb (desiredDistance info) (mkVector 0 0)) then
      let endPos :=
        if noSlowDown then positionForTime trajectory (totalTime + 1)
        else calculateSlowDownPos trajectory (slowDownTime info) in
      (Rmin 1.1 (Rmax 0.9 (vx (desiredDistance info) / vx endPos)),
       Rmin 1.1 (Rmax 0.9 (vy (desiredDistance info) / vy endPos)))
    else (1, 1) in
  List.map
    (fun t =>
       let position :=
         if noSlowDown then positionForTime trajectory t
         else positionForTimeSlowDown trajectory t (slowDownTime info) in
       let speed :=
         if noSlowDown then speedForTime trajectory t
         else speedForTimeSlowDown trajectory t (slowDownTime info) in
       mkPoint (startPos +v mkVector (vx position * xScale) (vy position * yScale))
               speed (timeSum + t))
    (sampleTimes totalTime).

Fixpoint getResultPath_from (r : Request) (infos : list TrajectoryGenerationInfo)
    (startPos : Vector) (timeSum : R) (result : list Point) : list Point :=
  match infos with
  | [] => result
  | info :: infos' =>
      let result := result ++ entryPoints r info startPos timeSum in
      let back := List.last result (mkPoint startPos Vec.zero timeSum) in
      getResultPath_from r infos' (pos back) (time back) result
  end.

Definition getResultPath (st : state) : list Point :=
  getResultPath_from (request st) (m_generationInfo st) (s0 (request st)) 0 [].

Definition calculateTrajectory (fuel : nat) (s0 v0 s1 v1 : Vector)
    (maxSpeed acceleration : R) : Planner (list Point) :=
  modify (set_request
    (mkRequest v0 v1 (s1 -v s0) s0 s1 (Vec.eqb v1 (mkVector 0 0))
               maxSpeed (maxSpeed * maxSpeed) acceleration)) ;;;
  findPathAlphaT fuel ;;;
  gets getResultPath.

End Planner.

End TrajectoryPath.

(** * Instances and inputs used by the examples

    The filters, the profile queries and the random number generator belong
    to sources that are not at hand; the examples below run the code with
    the simple stand-ins of this part. *)

Module Examples.

(** ** A moving line and a point it passes *)

Definition line : MovingLine.t :=
  MovingLine.mk (mkVector 0 0) (mkVector 0 1) (mkVector 0 0)
                (mkVector 1 0) (mkVector 0 1) (mkVector 0 0)
                1 3 0.1 1.

Definition onLine : Vector := mkVector 0.5 1.

(** ** Stand-ins for the filters of the tracker

    A robot track remembers the last position, the number of frames and
    the time of the last frame; a ball track remembers its camera and the
    time it was made as well. *)

Record RobotTrack : Type := mkRobotTrack {
  rt_pos : Vector; rt_frames : Z; rt_updated : Z }.

#[export] Instance robotTrackOps : Tracker.RobotFilterOps RobotTrack := {
  rf_filter := {| Tracker.lastUpdate := rt_updated; Tracker.frameCounter := rt_frames |};
  rf_new robot time :=
    mkRobotTrack (coordinates.fromVision (mkVector (robot_x robot) (robot_y robot))) 0 time;
  rf_update _ f := f;
  rf_distanceTo f robot :=
    Vec.distance (rt_pos f)
      (coordinates.fromVision (mkVector (robot_x robot) (robot_y robot)));
  rf_addVisionFrame _ robot time f :=
    mkRobotTrack (coordinates.fromVision (mkVector (robot_x robot) (robot_y robot)))
                 (rt_frames f + 1) time;
  rf_robotPos := rt_pos;
  rf_dribblerPos := rt_pos;
  rf_kickIsChip _ := false;
  rf_kickIsLinear _ := false }.

Record BallTrack : Type := mkBallTrack {
  bk_pos : Vector; bk_camera : N; bk_frames : Z; bk_updated : Z; bk_init : Z }.

Definition ballPosition (ball : SSL_DetectionBall) : Vector :=
  coordinates.fromVision (mkVector (ball_x ball) (ball_y ball)).

#[export] Instance ballTrackOps : Tracker.BallTrackerOps BallTrack := {
  bt_filter := {| Tracker.lastUpdate := bk_updated; Tracker.frameCounter := bk_frames |};
  bt_new ball time camera _ _ := mkBallTrack (ballPosition ball) camera 0 time time;
  bt_copy b camera :=
    mkBallTrack (bk_pos b) camera (bk_frames b) (bk_updated b) (bk_init b);
  bt_update _ b := b;
  bt_acceptDetection b ball _ _ _ :=
    Rltb (Vec.distance (bk_pos b) (ballPosition ball)) 0.5;
  bt_primaryCamera := bk_camera;
  bt_addVisionFrame ball time _ _ b :=
    mkBallTrack (ballPosition ball) (bk_camera b) (bk_frames b + 1) time (bk_init b);
  bt_distToCamera _ _ := 0;
  bt_isFlying _ := false;
  bt_initTime := bk_init }.

(** A tracker after a reset that knows the calibration of camera 0 only. *)
Definition oneCamera : CameraInfo :=
  mkCameraInfo {[ 0%N := mkVector3 0 0 4 ]} {[ 0%N := 500 ]}.

Definition freshTracker : Tracker.t RobotTrack BallTrack :=
  Tracker.mk oneCamera false 0 0 [] false false 0 [] ∅ ∅ [] None 0
             false 0 0 0 0.

(** A ball at the centre and the yellow robot 3 next to it, as camera 1
    would report them. *)
Definition centreBall : SSL_DetectionBall := mkBall 0 0.
Definition robot3 : SSL_DetectionRobot := mkRobot (Some 3%N) 100 0 0.

(** A ball track that has one frame, taken at time 0, on camera 0. *)
Definition youngBall : Tracker.BallObj BallTrack :=
  Tracker.mkBallObj 0 (mkBallTrack (mkVector 0 0) 0 1 0 0).

End Examples.

(** ** The invalidation rule in the words of the specification

    "The limit is per-filter: [max_time] if another filter of the same id
    exists and the filter is already mature, else [max_time_last]." *)

Module InvalidateSpec.

Section Spec.
Context {F : Type} `{Tracker.Filter F}.
Variables (maxTime maxTimeLast : Z) (now : Z).

Definition limit (filters : list F) (f : F) : Z :=
  if (1 <? Z.of_nat (List.length filters))%Z
     && (Tracker.minFrameCount <=? Tracker.frameCounter f)%Z
  then maxTime else maxTimeLast.

Definition dropped (filters : list F) (f : F) : bool :=
  (Tracker.lastUpdate f + limit filters f <? now)%Z.

Definition invalidate (filters : list F) : list F :=
  List.filter (fun f => negb (dropped filters f)) filters.

End Spec.

End InvalidateSpec.

(** A filter outlives the limit: [last_update + limit < now] fails. *)
Definition alive {F : Type} `{Tracker.Filter F} (now limit : Z) (f : F) : bool :=
  negb (Tracker.lastUpdate f + limit <? now)%Z.

(** ** Vocabulary for the statements about trajectories *)

Module TrajectoryAux.

Import Trajectory.

(** [stateAtTime] read with [ConstantAcceleration2D] alone. *)
Fixpoint stateAtTime_const (corr : Vector) (profile : list VT)
    (offset : Vector) (totalTime time : R) : RobotState :=
  match profile with
  | first :: (second :: _) as rest =>
      let segmentTime := t second - t first in
      if Rgtb (totalTime + segmentTime) time then
        let inf := ConstantAcceleration2D.partialSegmentOffsetAndSpeed first second
                     (ConstantAcceleration2D.precomputeSegment first second)
                     totalTime time in
        mkRobotState (offset +v corr *v time +v fst inf) (snd inf)
      else
        stateAtTime_const corr rest
          (offset +v ConstantAcceleration2D.segmentOffset first second
                       (ConstantAcceleration2D.precomputeSegment first second))
          (totalTime + segmentTime) time
  | _ => mkRobotState (offset +v corr *v totalTime) (back_v profile)
  end.

(** All times of the profile are at most [bound]. *)
Definition times_le (bound : R) (profile : list VT) : Prop :=
  Forall (fun p => t p <= bound) profile.

(** Adjacent points: times do not decrease, and two points at the same
    time have the same speed. *)
Fixpoint wellFormed (profile : list VT) : Prop :=
  match profile with
  | p :: (q :: _) as rest => t p <= t q /\ (t p = t q -> v p = v q) /\ wellFormed rest
  | _ => True
  end.

Definition startsAtZero (profile : list VT) : Prop :=
  match profile with p :: _ => t p = 0 | [] => True end.

(** A robot that brakes from 1 m/s to rest within one second. *)
Definition braking (slowDown : R) : trajectory :=
  mk [mkVT (mkVector 1 0) 0; mkVT (mkVector 0 0) 1] (mkVector 0 0) (mkVector 0 0)
     slowDown.

End TrajectoryAux.

(** ** The closed-form condition in the words of the specification

    "the per-axis deceleration magnitudes are within [[a, 1.2 a]] and
    per-axis stop times match within 0.1 s" *)

Module ClosedFormSpec.

Import AlphaTimeTrajectory.

Definition perAxisCondition (v0 position : Vector) (a : R) : Prop :=
  let necessaryAcc := necessaryAcceleration v0 position in
  a <= Rabs (vx necessaryAcc) <= 1.2 * a
  /\ a <= Rabs (vy necessaryAcc) <= 1.2 * a
  /\ Rabs (Rabs (vx v0) / Rabs (vx necessaryAcc)
           - Rabs (vy v0) / Rabs (vy necessaryAcc)) < 0.1.

(** The condition the code tests. *)
Definition codeCondition (v0 position : Vector) (acc : R) : Prop :=
  let necessaryAcc := necessaryAcceleration v0 position in
  acc < Vec.length necessaryAcc
  /\ Vec.length necessaryAcc < acc * 1.2
  /\ Rabs (Rabs (vx v0) / vx necessaryAcc - Rabs (vy v0) / vy necessaryAcc) < 0.1.

End ClosedFormSpec.

(** ** A stand-in for the profile queries

    Every profile is empty and rests at its start: times, positions and
    speeds are zero. *)

Module Resting.

Import AlphaTimeTrajectory.

Definition noProfile : Profile1D := mkProfile1D 0 0 [].

#[export] Instance restingOps : ProfileOps := {
  emptyProfile := mkSpeedProfile true noProfile noProfile 0 0;
  calculate1DTrajectory _ _ _ _ _ := noProfile;
  calculate1DTrajectoryFastEndSpeed _ _ _ _ _ _ := noProfile;
  integrateTime p := p;
  calculateSlowDownPos _ _ := mkVector 0 0;
  continuationSpeed _ := mkVector 0 0;
  time _ := 0;
  timeWithSlowDown _ _ := 0;
  positionForTime _ _ := mkVector 0 0;
  positionForTimeSlowDown _ _ _ := mkVector 0 0;
  speedForTime _ _ := mkVector 0 0;
  speedForTimeSlowDown _ _ _ := mkVector 0 0;
  angle _ := 0 }.

End Resting.

(** ** A robot and a ground estimator for the collision filter *)

Module GroundExamples.

Import BallGroundCollisionFilter.

(** A resting robot at the origin that faces along the x axis, its dribbler
    line at [x = dribblerX]. *)
Definition facingRobot (dribblerX : R) : RobotInfo :=
  mkRobotInfo 0 (mkVector 0 0) (mkVector dribblerX 0) (mkVector 0 0) false false.

(** An estimator that is its estimate and writes it. *)
#[export] Instance estimateOps : GroundFilterOps Ball := {
  gf_processVisionFrame _ g := g;
  gf_reset _ g := g;
  gf_acceptDetection _ _ := true;
  gf_writeBallState g _ _ _ := (g, g) }.

(** The ground estimate is [(0.03, 0)], the past estimate [(0.02, 0)], both
    with the speed [(1, 0)]. *)
Definition collisionFilter : t Ball :=
  mk (mkBall 0.03 0 1 0) (mkBall 0.02 0 1 0) 0%Z None None (mkVector 0 0) false false
     (mkCameraInfo ∅ ∅) 0%N.

End GroundExamples.

(** ** The planner without the re-check of the last mid-point, and the
    shapes of its result *)

Module PlannerSpec.

Import AlphaTimeTrajectory TrajectoryPath.
#[local] Open Scope planner_scope.

Section NoRecheck.
Context `{ProfileOps} {RNG : Type} `{RNGOps RNG}.
Variable isInputValidFastEndSpeed : Vector -> Vector -> R -> R -> bool.

(** [searchPath] with the statement
    [if (m_bestResultInfo.valid) checkMidPoint(...)] taken out. *)
Definition searchPath_noRecheck (fuel : nat) : M RNG unit :=
  lastTrajectoryInfo <- gets m_bestResultInfo ;;
  modify (fun st => set_bestResultInfo (set_best_time Infinity (m_bestResultInfo st)) st) ;;;
  modify (fun st => set_bestResultInfo (set_best_valid false (m_bestResultInfo st)) st) ;;;
  st <- gets (fun st => st) ;;
  if isInStaticObstacle st (s0 (request st))
     || isInMovingObstacle st (s0 (request st)) 0
  then escapeObstacles
  else if isInStaticObstacle st (s1 (request st))
  then findPathEndInObstacle
  else
    forEach (List.seq 0 100) (searchRound isInputValidFastEndSpeed fuel lastTrajectoryInfo) ;;;
    bestValid <- gets (fun st => best_valid (m_bestResultInfo st)) ;;
    if negb bestValid then escapeObstacles else ret tt.

Definition findPathAlphaT_noRecheck (fuel : nat) : M RNG unit :=
  modify collectObstacles ;;;
  modify (set_generationInfo []) ;;;
  st <- gets (fun st => st) ;;
  let r := request st in
  let direct := directTrajectory r in
  if directAccepted st
  then
    modify (set_generationInfo
      [mkInfo (inputTime direct) (inputAngle direct) (directSlowDownTime r)
              (v0 r) (v1 r) (distance r) true])
  else searchPath_noRecheck fuel.

End NoRecheck.

Section Shape.
Context `{ProfileOps}.

(** The time the second part of a trajectory over a mid-point takes with
    the slowdown, as [checkMidPoint] computes it and as [getResultPath]
    computes it again from the entry. *)
Definition secondPartTime (r : Request) (second : TrajectoryGenerationInfo) : R :=
  timeWithSlowDown
    (calculateTrajectoryFastEndSpeed (info_v0 second) (info_v1 second) (info_time second)
       (info_angle second) (ACCELERATION r) (MAX_SPEED r) (-1))
    TOTAL_SLOW_DOWN_TIME.

(** The entries [m_generationInfo] can hold when the planner is done: the
    direct trajectory, a trajectory over a mid-point, or a trajectory
    without slowdown (towards an end point outside of the obstacles, or
    out of an obstacle). *)
Definition directEntry (r : Request) (infos : list TrajectoryGenerationInfo) : Prop :=
  exists info, infos = [info] /\ fastEndSpeed info = true
               /\ slowDownTime info = directSlowDownTime r.

(** Over a mid-point: the second part leads from the mid-point speed to the
    end speed with the slowdown of the request; the first part leads from
    the start speed to the mid-point speed and has the slowdown that the
    second part leaves over, [max(0, 0.3 - time of the second part)], or
    none when the request has none. *)
Definition midPointEntries (r : Request) (infos : list TrajectoryGenerationInfo) : Prop :=
  exists first second, infos = [first; second]
    /\ fastEndSpeed first = false /\ fastEndSpeed second = true
    /\ info_v0 first = v0 r /\ info_v1 first = info_v0 second /\ info_v1 second = v1 r
    /\ slowDownTime second = directSlowDownTime r
    /\ slowDownTime first
       = (if exponentialSlowDown r
          then Rmax 0 (TOTAL_SLOW_DOWN_TIME - secondPartTime r second)
          else 0).

Definition plainEntry (infos : list TrajectoryGenerationInfo) : Prop :=
  exists info, infos = [info] /\ fastEndSpeed info = false /\ slowDownTime info = 0
               /\ info_v1 info = mkVector 0 0.

Definition resultShape (r : Request) (infos : list TrajectoryGenerationInfo) : Prop :=
  directEntry r infos \/ midPointEntries r infos \/ plainEntry infos.

(** What holds of the planner's state from the moment [findPathAlphaT] has
    cleared [m_generationInfo]. *)
Definition searching {RNG : Type} (r : Request) (st : t RNG) : Prop :=
  request st = r
  /\ (m_generationInfo st = [] \/ resultShape r (m_generationInfo st))
  /\ (best_valid (m_bestResultInfo st) = true -> m_generationInfo st <> []).

End Shape.

(** A computation of the planner keeps a property of the state, and
    returns from every state. *)
Definition keeps {RNG A : Type} (P : t RNG -> Prop) (m : M RNG A) : Prop :=
  forall st a st', P st -> m st = Some (a, st') -> P st'.

Definition returns {RNG A : Type} (m : M RNG A) : Prop :=
  forall st, exists a st', m st = Some (a, st').

End PlannerSpec.

(** ** A field with one obstacle, and a random number generator that
    always returns the lower end *)

Module PlannerExamples.

Import AlphaTimeTrajectory TrajectoryPath.

#[export] Instance lowestRNG : RNGOps unit := {
  uniformInt _ := (0%Z, tt);
  uniformFloat a _ _ := (a, tt) }.

Definition anyInput (_ _ : Vector) (_ _ : R) : bool := true.

(** The field is the square from [(-5, -5)] to [(5, 5)], the robot has the
    radius 0.1, and a disc of radius 0.5 lies at [(0.65, 0)]. *)
Definition field : World :=
  mkWorld (Path.mkRect (mkVector (-5) (-5)) (mkVector 5 5)) 0.1
    [Path.Circle (mkVector 0.65 0) 0.5 1] [] [] [] [] []
    (-5) (-5) (mkVector 10 10).

Definition noRequest : Request :=
  mkRequest (mkVector 0 0) (mkVector 0 0) (mkVector 0 0) (mkVector 0 0) (mkVector 0 0)
    false 3.5 9 3.

(** The planner as it is constructed. *)
Definition fresh : t unit :=
  mk field noRequest tt [] (mkBest (Finite 0) 0 0 (mkVector 0 0) false) []
     (mkVector 0 0) (Finite 0) 2 0.

(** The planner after a request that was answered over a mid-point with
    the speed [(2, 0)]. *)
Definition afterFastRequest : t unit :=
  mk field noRequest tt [] (mkBest (Finite 1) 0.5 0 (mkVector 2 0) true) []
     (mkVector 0 0) (Finite 0) 2 0.

End PlannerExamples.

(** ** A random number generator that always returns the middle *)

Module PlannerExamples2.

Import TrajectoryPath.

#[export] Instance middleRNG : RNGOps unit := {
  uniformInt _ := (0%Z, tt);
  uniformFloat a b _ := ((a + b) / 2, tt) }.

(** The field of the examples without its obstacle, and the planner as it
    is constructed on it. *)
Definition openField : World :=
  mkWorld (Path.mkRect (mkVector (-5) (-5)) (mkVector 5 5)) 0.1
    [] [] [] [] [] [] (-5) (-5) (mkVector 10 10).

Definition freshOpen : t unit :=
  mk openField PlannerExamples.noRequest tt []
     (mkBest (Finite 0) 0 0 (mkVector 0 0) false) []
     (mkVector 0 0) (Finite 0) 2 0.

End PlannerExamples2.

(** ** Measures of a one-dimensional profile

    Before [integrateTime] the time of a point is the time its segment
    takes.  The profile is linear in between: a segment from the speed [a]
    to the speed [b] covers the distance [(a + b) / 2] times its time, as
    [ConstantAcceleration2D::segmentOffset] has it. *)

Module ProfileSpec.

Import SpeedProfile1D.

Definition duration (profile : profile1D) : R :=
  List.fold_right (fun p sum => t p + sum) 0 profile.

Fixpoint distanceFrom (speed : R) (profile : profile1D) : R :=
  match profile with
  | [] => 0
  | p :: rest => 0.5 * (speed + v p) * t p + distanceFrom (v p) rest
  end.

Definition distanceCovered (profile : profile1D) : R :=
  match profile with
  | [] => 0
  | p :: rest => distanceFrom (v p) rest
  end.

Definition lastSpeed (profile : profile1D) : R := v (List.last profile (mkVT 0 0)).

End ProfileSpec.

(** * Properties *)

#[local] Existing Instance Tracker.rf_filter.
#[local] Existing Instance Tracker.bt_filter.
#[local] Existing Instance Tracker.BallObj_filter.
#[local] Existing Instance Examples.robotTrackOps.
#[local] Existing Instance Examples.ballTrackOps.

(** ** Comparisons *)

Lemma Rltb_true a b : a < b -> Rltb a b = true.
Proof. intros Hlt. unfold Rltb. destruct (Rlt_dec a b); [reflexivity | contradiction]. Qed.

Lemma Rltb_false a b : b <= a -> Rltb a b = false.
Proof. intros Hle. unfold Rltb. destruct (Rlt_dec a b); [lra | reflexivity]. Qed.

Lemma Rltb_spec a b : Rltb a b = true <-> a < b.
Proof. unfold Rltb. destruct (Rlt_dec a b); split; intros; try easy. Qed.

Lemma Rleb_true a b : a <= b -> Rleb a b = true.
Proof. intros Hle. unfold Rleb. destruct (Rle_dec a b); [reflexivity | contradiction]. Qed.

Lemma Rleb_false a b : b < a -> Rleb a b = false.
Proof. intros Hlt. unfold Rleb. destruct (Rle_dec a b); [lra | reflexivity]. Qed.

Lemma Rleb_spec a b : Rleb a b = true <-> a <= b.
Proof. unfold Rleb. destruct (Rle_dec a b); split; intros; try easy. Qed.

Lemma Rgtb_true a b : b < a -> Rgtb a b = true.
Proof. apply Rltb_true. Qed.

Lemma Rgtb_false a b : a <= b -> Rgtb a b = false.
Proof. apply Rltb_false. Qed.

Lemma Rgeb_true a b : b <= a -> Rgeb a b = true.
Proof. apply Rleb_true. Qed.

Lemma Rgeb_false a b : a < b -> Rgeb a b = false.
Proof. apply Rleb_false. Qed.

Lemma Reqb_true a b : a = b -> Reqb a b = true.
Proof. intros Heq. unfold Reqb. destruct (Req_dec_T a b); [reflexivity | contradiction]. Qed.

Lemma Reqb_false a b : a <> b -> Reqb a b = false.
Proof. intros Hne. unfold Reqb. destruct (Req_dec_T a b); [contradiction | reflexivity]. Qed.

Lemma Reqb_spec a b : Reqb a b = true <-> a = b.
Proof. unfold Reqb. destruct (Req_dec_T a b); split; intros; try easy. Qed.

Lemma Vec_eqb_spec a b : Vec.eqb a b = true <-> a = b.
Proof.
  destruct a as [ax ay], b as [bx b_y]; unfold Vec.eqb; simpl.
  rewrite andb_true_iff, !Reqb_spec. split.
  - intros [-> ->]; reflexivity.
  - intros Heq; injection Heq; auto.
Qed.

Lemma Vec_eqb_refl a : Vec.eqb a a = true.
Proof. apply Vec_eqb_spec; reflexivity. Qed.


Lemma lengthSquared_nonneg a : 0 <= Vec.lengthSquared a.
Proof. unfold Vec.lengthSquared. nra. Qed.

Lemma sqrt_sq (x : R) : 0 <= x -> sqrt (x * x) = x.
Proof. intros Hx. apply sqrt_square; assumption. Qed.

(** Rewriting of the comparisons whose outcome [lra] decides. *)
Ltac cmp :=
  repeat first
    [ rewrite Rltb_true by lra | rewrite Rltb_false by lra
    | rewrite Rleb_true by lra | rewrite Rleb_false by lra
    | rewrite Rgtb_true by lra | rewrite Rgtb_false by lra
    | rewrite Rgeb_true by lra | rewrite Rgeb_false by lra
    | rewrite Reqb_true by lra | rewrite Reqb_false by lra ].

(** ** Coordinate conversion *)

(** C8: the conversions between vision and field coordinates are mutually
    inverse in real arithmetic, [toVision] maps [(x, y)] to
    [(y * 1000, -x * 1000)] and [fromVision] maps [(vx, vy)] to
    [(-vy / 1000, vx / 1000)]. *)
Theorem fromVision_toVision_inverse :
  (forall p, coordinates.fromVision (coordinates.toVision p) = p)
  /\ (forall q, coordinates.toVision (coordinates.fromVision q) = q)
  /\ (forall x y, coordinates.toVision (mkVector x y) = mkVector (y * 1000) (- x * 1000))
  /\ (forall x y, coordinates.fromVision (mkVector x y) = mkVector (- y / 1000) (x / 1000)).
Proof.
  repeat split.
  - intros [x y]. unfold coordinates.fromVision, coordinates.toVision; simpl.
    f_equal; field.
  - intros [x y]. unfold coordinates.fromVision, coordinates.toVision; simpl.
    f_equal; field.
Qed.

(** ** Moving obstacles *)

Lemma FLT_MAX_pos : 0 < FLT_MAX.
Proof.
  unfold FLT_MAX.
  assert (H23 : 1 <= 2 ^ 23) by (apply pow_R1_Rle; lra).
  assert (H127 : 0 < 2 ^ 127) by (apply pow_lt; lra).
  assert (Hinv : / 2 ^ 23 <= 1).
  { rewrite <- Rinv_1. apply Rinv_le_contravar; lra. }
  apply Rmult_lt_0_compat; lra.
Qed.

(** Outside of [[startTime, endTime]] a moving circle is at distance
    [FLT_MAX] and intersects nothing. *)
Lemma MovingCircle_outside_window o p time :
  time < MovingCircle.startTime o \/ MovingCircle.endTime o < time ->
  MovingCircle.distance o p time = FLT_MAX
  /\ MovingCircle.intersects o p time = false.
Proof.
  intros Hout. unfold MovingCircle.distance, MovingCircle.intersects.
  destruct Hout as [Hlt | Hgt].
  - rewrite (Rltb_true _ _ Hlt). simpl. split; reflexivity.
  - rewrite (Rgtb_true _ _ Hgt), orb_true_r. split; reflexivity.
Qed.

(** The same for a moving line. *)
Lemma MovingLine_outside_window o p time :
  time < MovingLine.startTime o \/ MovingLine.endTime o < time ->
  MovingLine.distance o p time = FLT_MAX
  /\ MovingLine.intersects o p time = false.
Proof.
  intros Hout. unfold MovingLine.distance, MovingLine.intersects.
  destruct Hout as [Hlt | Hgt].
  - rewrite (Rltb_true _ _ Hlt). simpl. split; reflexivity.
  - rewrite (Rgtb_true _ _ Hgt), orb_true_r. split; reflexivity.
Qed.

Lemma sqrt_lt_radius (d r : R) : 0 <= d -> 0 <= r -> (sqrt d - r < 0 <-> d < r * r).
Proof.
  intros Hd Hr. split; intros Hlt.
  - assert (Hs : sqrt d < r) by lra.
    assert (H0 : 0 <= sqrt d) by apply sqrt_pos.
    rewrite <- (sqrt_sqrt d Hd). nra.
  - assert (Hs : sqrt d < sqrt (r * r)) by (apply sqrt_lt_1_alt; lra).
    rewrite sqrt_square in Hs by assumption. lra.
Qed.

(** Within the window the two queries of a moving circle agree, provided
    that its radius is not negative. *)
Lemma MovingCircle_queries_agree o p time :
  MovingCircle.startTime o <= time <= MovingCircle.endTime o ->
  0 <= MovingCircle.radius o ->
  (MovingCircle.distance o p time < 0 <-> MovingCircle.intersects o p time = true).
Proof.
  intros [Hlo Hhi] Hr. unfold MovingCircle.distance, MovingCircle.intersects.
  rewrite (Rltb_false _ _ Hlo), (Rgtb_false _ _ Hhi). simpl.
  rewrite Rltb_spec. unfold Vec.distance, Vec.distanceSq, Vec.length.
  apply sqrt_lt_radius; [apply lengthSquared_nonneg | assumption].
Qed.

(** The distance from a point above or below a horizontal segment. *)
Lemma LineSegment_distance_horizontal a b h x y :
  a < b -> a <= x <= b ->
  LineSegment.distance (LineSegment.mk (mkVector a h) (mkVector b h)) (mkVector x y)
  = Rabs (y - h).
Proof.
  intros Hab Hx. unfold LineSegment.distance. simpl.
  assert (Hlen : Vec.lengthSquared (mkVector b h -v mkVector a h) = (b - a) * (b - a)).
  { unfold Vec.lengthSquared, Vec.sub; simpl. ring. }
  rewrite Hlen. rewrite Reqb_false by nra.
  assert (Hu : Vec.dot (mkVector x y -v mkVector a h) (mkVector b h -v mkVector a h)
               / ((b - a) * (b - a)) = (x - a) / (b - a)).
  { unfold Vec.dot, Vec.sub; simpl. field. lra. }
  rewrite Hu. unfold LineSegment.clamp01.
  assert (H0 : 0 <= (x - a) / (b - a)).
  { apply Rmult_le_pos; [lra |]. left. apply Rinv_0_lt_compat. lra. }
  assert (H1 : (x - a) / (b - a) <= 1).
  { apply Rmult_le_reg_r with (b - a); [lra |].
    unfold Rdiv. rewrite Rmult_assoc, Rinv_l by lra. lra. }
  rewrite (Rmin_right 1), Rmax_right by assumption.
  unfold Vec.distance, Vec.length, Vec.lengthSquared, Vec.sub, Vec.add, Vec.scale; simpl.
  replace (a + (b - a) * ((x - a) / (b - a)) - x) with 0 by (field; lra).
  replace (0 * 0 + (h + (h - h) * ((x - a) / (b - a)) - y) *
                   (h + (h - h) * ((x - a) / (b - a)) - y))
    with (Rsqr (y - h)) by (unfold Rsqr; ring).
  apply sqrt_Rsqr_abs.
Qed.

(** C7, at a moving line that starts at time 1: at time 2, inside of its
    window, the point [(0.5, 1)] lies on the line as [intersects] places it
    and 0.9 away from the line as [distance] places it. *)
Theorem MovingLine_queries_disagree :
  MovingLine.startTime Examples.line <= 2 <= MovingLine.endTime Examples.line
  /\ MovingLine.intersects Examples.line Examples.onLine 2 = true
  /\ MovingLine.distance Examples.line Examples.onLine 2 = 0.9.
Proof.
  unfold MovingLine.intersects, MovingLine.distance, Examples.line, Examples.onLine.
  simpl. split; [lra |].
  cmp. simpl.
  replace (mkVector 0 0 +v mkVector 0 1 *v (2 - 1) +v mkVector 0 0 *v (0.5 * (2 - 1) * (2 - 1)))
    with (mkVector 0 1)
    by (unfold Vec.add, Vec.scale; simpl; f_equal; lra).
  replace (mkVector 1 0 +v mkVector 0 1 *v (2 - 1) +v mkVector 0 0 *v (0.5 * (2 - 1) * (2 - 1)))
    with (mkVector 1 1)
    by (unfold Vec.add, Vec.scale; simpl; f_equal; lra).
  replace (mkVector 0 0 +v mkVector 0 1 *v 2) with (mkVector 0 2)
    by (unfold Vec.add, Vec.scale; simpl; f_equal; lra).
  replace (mkVector 1 0 +v mkVector 0 1 *v 2) with (mkVector 1 2)
    by (unfold Vec.add, Vec.scale; simpl; f_equal; lra).
  rewrite !LineSegment_distance_horizontal by lra.
  replace (1 - 1) with 0 by lra. rewrite Rabs_R0.
  rewrite (Rabs_left (1 - 2)) by lra.
  split; [apply Rltb_true; lra | lra].
Qed.

(** ** Invalidation of stale filters *)

Section InvalidateProps.
Context {F : Type} `{Tracker.Filter F}.
Variables (maxTime maxTimeLast : Z) (now : Z).

(** While another filter waits behind the current one, the list has more
    than one element and the limit is [maxTime]. *)
Lemma invalidate_from_init (init : list F) : forall (kept : list F) (last : F),
  Tracker.invalidate_from maxTime maxTimeLast now kept (init ++ [last])
  = Tracker.invalidate_from maxTime maxTimeLast now
      (kept ++ List.filter (alive now maxTime) init) [last].
Proof.
  induction init as [| f init IH]; intros kept last.
  - simpl. rewrite app_nil_r. reflexivity.
  - transitivity
      (Tracker.invalidate_from maxTime maxTimeLast now
         (if alive now maxTime f then kept ++ [f] else kept) (init ++ [last])).
    + cbn [app Tracker.invalidate_from].
      assert (Hsize :
        (1 <? Z.of_nat (List.length kept + List.length (f :: init ++ [last])))%Z = true).
      { apply Z.ltb_lt. cbn [List.length]. rewrite length_app. cbn [List.length]. lia. }
      rewrite Hsize. cbn [orb]. unfold alive.
      destruct (Tracker.lastUpdate f + maxTime <? now)%Z; reflexivity.
    + rewrite IH. cbn [List.filter].
      destruct (alive now maxTime f); [rewrite <- app_assoc |]; reflexivity.
Qed.

Lemma invalidate_from_last (kept : list F) (last : F) :
  Tracker.invalidate_from maxTime maxTimeLast now kept [last]
  = kept ++ (if alive now (if negb (Nat.eqb (List.length kept) 0)
                          || (Tracker.frameCounter last <? Tracker.minFrameCount)%Z
                       then maxTime else maxTimeLast) last
             then [last] else []).
Proof.
  cbn [Tracker.invalidate_from List.length].
  assert (Hsize : (1 <? Z.of_nat (List.length kept + 1))%Z
                  = negb (Nat.eqb (List.length kept) 0)).
  { destruct kept; cbn [List.length Nat.eqb negb].
    - reflexivity.
    - apply Z.ltb_lt. lia. }
  rewrite Hsize. unfold alive.
  destruct (_ + _ <? now)%Z; cbn [negb].
  - rewrite app_nil_r. reflexivity.
  - reflexivity.
Qed.

(** The closed form of [invalidate]: every filter but the last one lives by
    [maxTime]; the last one lives by [maxTimeLast] exactly when no earlier
    filter is left and it has at least [minFrameCount] frames. *)
Lemma invalidate_closed_form (init : list F) (last : F) :
  Tracker.invalidate maxTime maxTimeLast now (init ++ [last])
  = let survivors := List.filter (alive now maxTime) init in
    let limit :=
      if negb (Nat.eqb (List.length survivors) 0)
         || (Tracker.frameCounter last <? Tracker.minFrameCount)%Z
      then maxTime else maxTimeLast in
    survivors ++ (if alive now limit last then [last] else []).
Proof.
  unfold Tracker.invalidate. rewrite invalidate_from_init, invalidate_from_last.
  reflexivity.
Qed.

End InvalidateProps.

(** C2, as the code has it: a filter is dropped exactly when
    [last_update + limit < now]; the limit is [max_time] for every filter
    that is not the last one of its list, and for the last one when an
    earlier filter of the list is kept or it has fewer than 5 frames; it is
    [max_time_last] for a last filter that is alone and has 5 frames or
    more.  [process] applies the rule to the ball list with the limits
    0.1 s and 1 s and to the list of every robot id with 0.2 s and 1 s. *)
Theorem invalidate_limits :
  (forall (F : Type) (H : Tracker.Filter F) (maxTime maxTimeLast now : Z)
          (init : list F) (last : F),
     Tracker.invalidate maxTime maxTimeLast now [] = @nil F
     /\ Tracker.invalidate maxTime maxTimeLast now (init ++ [last])
        = let survivors := List.filter (alive now maxTime) init in
          let limit :=
            if negb (Nat.eqb (List.length survivors) 0)
               || (Tracker.frameCounter last <? 5)%Z
            then maxTime else maxTimeLast in
          survivors ++ (if alive now limit last then [last] else []))
  /\ (forall (RF BT : Type) (HR : Tracker.RobotFilterOps RF)
             (HB : Tracker.BallTrackerOps BT) (now : Z) (tr : Tracker.t RF BT)
             (id : N),
        Tracker.m_ballFilter (Tracker.invalidateAll now tr)
        = Tracker.invalidate 100000000 1000000000 now (Tracker.m_ballFilter tr)
        /\ Tracker.m_robotFilterYellow (Tracker.invalidateAll now tr) !! id
           = Tracker.invalidate 200000000 1000000000 now
               <$> Tracker.m_robotFilterYellow tr !! id
        /\ Tracker.m_robotFilterBlue (Tracker.invalidateAll now tr) !! id
           = Tracker.invalidate 200000000 1000000000 now
               <$> Tracker.m_robotFilterBlue tr !! id).
Proof.
  split.
  - intros F H maxTime maxTimeLast now init last. split; [reflexivity |].
    apply invalidate_closed_form.
  - intros RF BT HR HB now tr id.
    unfold Tracker.invalidateAll, Tracker.set_robotFilters, Tracker.set_ballFilter.
    cbn [Tracker.m_ballFilter Tracker.m_robotFilterYellow Tracker.m_robotFilterBlue].
    unfold Tracker.invalidateRobots. rewrite !lookup_fmap. repeat split.
Qed.

(** C2, as the claim states it, fails: a ball track that is alone in the
    list and has one frame, last updated 0.5 s ago, is dropped by the code;
    with the limit [max_time_last] of the claim it would stay. *)
Lemma sole_immature_filter_dropped :
  Tracker.invalidateBall 500000000 [Examples.youngBall] = []
  /\ InvalidateSpec.invalidate Tracker.ball_maxTime Tracker.ball_maxTimeLast 500000000
       [Examples.youngBall] = [Examples.youngBall].
Proof. split; reflexivity. Qed.

(** ** Detections on a camera without calibration *)

Section TrackRobot.
Context {RF : Type} `{Tracker.RobotFilterOps RF}.

Lemma nearestFilter_from_bound (robot : SSL_DetectionRobot) (l : list RF) :
  forall (i : nat) (nearest : R) (found : option nat) (k : nat),
    (forall j, found = Some j -> (j < i)%nat) ->
    Tracker.nearestFilter_from robot l i nearest found = Some k ->
    (k < i + List.length l)%nat.
Proof.
  induction l as [| f l IH]; intros i nearest found k Hfound Hk; simpl in Hk.
  - apply Hfound in Hk. simpl. lia.
  - simpl. destruct (Rltb (Tracker.rf_distanceTo f robot) nearest).
    + apply IH in Hk; [lia |]. intros j Hj. injection Hj as <-. lia.
    + apply IH in Hk; [lia |]. intros j Hj. apply Hfound in Hj. lia.
Qed.

(** [trackRobotList] hands the frame to a filter of the list it returns:
    to the nearest one, or to the one it makes. *)
Lemma trackRobotList_takes_frame (robot : SSL_DetectionRobot) (time : Z) (cam : N)
    (l : list RF) :
  exists f : RF,
    In (Tracker.rf_addVisionFrame cam robot time f)
       (Tracker.trackRobotList robot time cam l).
Proof.
  unfold Tracker.trackRobotList.
  destruct (Tracker.nearestFilter_from robot _ 0 0.5 None) as [k |] eqn:Hk.
  - apply nearestFilter_from_bound in Hk; [| discriminate].
    simpl in Hk.
    destruct (lookup_lt_is_Some_2 (List.map (Tracker.rf_update time) l) k Hk) as [f Hf].
    exists f. apply list_elem_of_In. apply list_elem_of_lookup. exists k.
    rewrite list_lookup_alter, Hf. rewrite decide_True by reflexivity. reflexivity.
  - exists (Tracker.rf_new robot time). apply in_or_app. right. left. reflexivity.
Qed.

End TrackRobot.

(** C4, as the code has it: a ball detection on a camera without stored
    calibration leaves the tracker as it is; a robot detection is not
    checked against the calibration: with a robot id and inside of the
    area of interest it is handed to a filter of its id, whatever the
    camera and the calibration are. *)
Theorem missing_calibration_drops_ball_only :
  (forall (RF BT : Type) (HR : Tracker.RobotFilterOps RF)
          (HB : Tracker.BallTrackerOps BT) (ball : SSL_DetectionBall) (time : Z)
          (cam : N) (bestRobots : list RF) (tr : Tracker.t RF BT),
     cameraPosition (Tracker.m_cameraInfo tr) !! cam = None ->
     Tracker.trackBall ball time cam bestRobots tr = tr)
  /\ (forall (RF BT : Type) (HR : Tracker.RobotFilterOps RF)
             (HB : Tracker.BallTrackerOps BT) (robot : SSL_DetectionRobot) (time : Z)
             (cam id : N) (map : Tracker.RobotMap RF) (tr : Tracker.t RF BT),
        robot_id robot = Some id ->
        Tracker.m_aoiEnabled tr
        && negb (Tracker.isInAOI (robot_x robot) (robot_y robot) (Tracker.m_flip tr)
                   (Tracker.m_aoi_x1 tr) (Tracker.m_aoi_y1 tr)
                   (Tracker.m_aoi_x2 tr) (Tracker.m_aoi_y2 tr)) = false ->
        exists (l : list RF) (f : RF),
          Tracker.trackRobot map robot time cam tr !! id = Some l
          /\ In (Tracker.rf_addVisionFrame cam robot time f) l).
Proof.
  split.
  - intros RF BT HR HB ball time cam bestRobots tr Hcam.
    unfold Tracker.trackBall.
    destruct (_ && _); [reflexivity |].
    rewrite Hcam. rewrite bool_decide_eq_false_2; [reflexivity |].
    intros [x Hx]. discriminate.
  - intros RF BT HR HB robot time cam id map tr Hid Haoi.
    unfold Tracker.trackRobot. rewrite Hid, Haoi.
    destruct (trackRobotList_takes_frame robot time cam (default [] (map !! id)))
      as [f Hf].
    eexists. exists f. rewrite lookup_insert_eq. split; [reflexivity | exact Hf].
Qed.

(** On the fresh tracker, which has no calibration of camera 1, the ball
    seen by camera 1 is dropped; seen by camera 0 it makes a ball track. *)
Lemma missing_calibration_witness :
  cameraPosition (Tracker.m_cameraInfo Examples.freshTracker) !! 1%N = None
  /\ Tracker.trackBall Examples.centreBall 1000 1%N [] Examples.freshTracker
     = Examples.freshTracker
  /\ List.length
       (Tracker.m_ballFilter
          (Tracker.trackBall Examples.centreBall 1000 0%N [] Examples.freshTracker))
     = 1%nat.
Proof.
  split; [reflexivity |]. split.
  - apply (proj1 missing_calibration_drops_ball_only). reflexivity.
  - reflexivity.
Defined.

(** C4, as the claim states it, fails for robots: camera 1 has no
    calibration, and yet its detection of robot 3 makes a filter in the
    empty map of the fresh tracker. *)
Lemma robot_tracked_without_calibration :
  cameraPosition (Tracker.m_cameraInfo Examples.freshTracker) !! 1%N = None
  /\ Tracker.m_robotFilterYellow Examples.freshTracker !! 3%N = None
  /\ Tracker.trackRobot (Tracker.m_robotFilterYellow Examples.freshTracker)
       Examples.robot3 1000 1%N Examples.freshTracker !! 3%N
     = Some [Examples.mkRobotTrack
               (coordinates.fromVision (mkVector 100 0)) 1 1000].
Proof.
  split; [reflexivity |]. split; [reflexivity |].
  unfold Tracker.trackRobot. simpl. rewrite lookup_insert_eq. reflexivity.
Qed.

(** ** Truncation of a trajectory *)

Module TrajectoryProps.

Import Trajectory TrajectoryAux.

Ltac req := solve [lra | field; lra | field | ring].

Lemma stateAtTime_from_step acc corr first second rest offset totalTime time :
  stateAtTime_from acc corr (first :: second :: rest) offset totalTime time
  = let precomputation := S.precomputeSegment acc first second in
    let segmentTime := S.timeForSegment acc first second precomputation in
    if Rgtb (totalTime + segmentTime) time then
      let inf := S.partialSegmentOffsetAndSpeed acc first second precomputation
                   totalTime time in
      mkRobotState (offset +v corr *v time +v fst inf) (snd inf)
    else
      stateAtTime_from acc corr (second :: rest)
        (offset +v S.segmentOffset acc first second precomputation)
        (totalTime + segmentTime) time.
Proof. reflexivity. Qed.

Lemma stateAtTime_const_step corr first second rest offset totalTime time :
  stateAtTime_const corr (first :: second :: rest) offset totalTime time
  = let segmentTime := t second - t first in
    if Rgtb (totalTime + segmentTime) time then
      let inf := ConstantAcceleration2D.partialSegmentOffsetAndSpeed first second
                   (ConstantAcceleration2D.precomputeSegment first second)
                   totalTime time in
      mkRobotState (offset +v corr *v time +v fst inf) (snd inf)
    else
      stateAtTime_const corr (second :: rest)
        (offset +v ConstantAcceleration2D.segmentOffset first second
                     (ConstantAcceleration2D.precomputeSegment first second))
        (totalTime + segmentTime) time.
Proof. reflexivity. Qed.

Lemma stateAtTime_from_const acc corr profile : forall offset totalTime time,
  times_le (S.slowDownStartTime acc) profile ->
  time <= S.slowDownStartTime acc ->
  stateAtTime_from acc corr profile offset totalTime time
  = stateAtTime_const corr profile offset totalTime time.
Proof.
  induction profile as [| first rest IH]; intros offset totalTime time Hle Htime.
  - reflexivity.
  - destruct rest as [| second rest'].
    + reflexivity.
    + rewrite stateAtTime_from_step, stateAtTime_const_step. cbv zeta.
      assert (Hsecond : t second <= S.slowDownStartTime acc).
      { inversion Hle as [| ? ? _ Hrest]; subst. inversion Hrest; subst. assumption. }
      unfold S.timeForSegment, S.partialSegmentOffsetAndSpeed, S.segmentOffset,
        S.precomputeSegment.
      rewrite (Rleb_true _ _ Hsecond), (Rleb_true _ _ Htime).
      cbn [orb S.constantPrecomputation].
      destruct (Rgtb (totalTime + (t second - t first)) time).
      * reflexivity.
      * apply IH; [| assumption]. inversion Hle; assumption.
Qed.

Ltac vec_eq :=
  unfold Vec.add, Vec.sub, Vec.scale, Vec.zero; cbn [vx vy];
  f_equal; try (field; lra); try lra.

Lemma stateAtTime_const_at_head corr rest : forall p offset,
  wellFormed (p :: rest) ->
  stateAtTime_const corr (p :: rest) offset (t p) (t p)
  = mkRobotState (offset +v corr *v t p) (v p).
Proof.
  induction rest as [| q rest IH]; intros p offset Hwf.
  - reflexivity.
  - rewrite stateAtTime_const_step. cbv zeta.
    destruct Hwf as (Hle & Hcont & Hwf).
    destruct (Rlt_dec (t p) (t q)) as [Hlt | Hge].
    + rewrite Rgtb_true by lra.
      unfold ConstantAcceleration2D.partialSegmentOffsetAndSpeed,
        ConstantAcceleration2D.precomputeSegment.
      cbn [fst snd ConstantAcceleration2D.invSegmentTime].
      rewrite Reqb_false by lra.
      destruct p as [[px py] tp], q as [[qx qy] tq], offset as [ox oy], corr as [cx cy].
      cbn [t v] in *. f_equal; vec_eq.
    + assert (Heq : t p = t q) by lra.
      rewrite Rgtb_false by lra.
      unfold ConstantAcceleration2D.segmentOffset.
      rewrite (Hcont Heq), Heq.
      replace (t q + (t q - t q)) with (t q) by lra.
      rewrite IH by assumption.
      destruct p as [[px py] tp], q as [[qx qy] tq], offset as [ox oy], corr as [cx cy].
      cbn [t v] in *. f_equal; vec_eq.
Qed.

Lemma limitToTime_from_head T p rest :
  exists tail, limitToTime_from T (p :: rest) = p :: tail.
Proof.
  destruct rest as [| q rest]; cbn [limitToTime_from].
  - exists []. reflexivity.
  - destruct (Rgeb (t q) T); eexists; reflexivity.
Qed.

Lemma limitToTime_from_step T p q rest :
  limitToTime_from T (p :: q :: rest)
  = if Rgeb (t q) T then
      [p; mkVT (v p +v (v q -v v p)
                  *v (if Reqb (t q) (t p) then 1 else (T - t p) / (t q - t p))) T]
    else p :: limitToTime_from T (q :: rest).
Proof. reflexivity. Qed.

Lemma stateAtTime_const_single corr p offset totalTime time :
  stateAtTime_const corr [p] offset totalTime time
  = mkRobotState (offset +v corr *v totalTime) (v p).
Proof. reflexivity. Qed.

Lemma limitToTime_const corr rest : forall p offset time T,
  wellFormed (p :: rest) ->
  t p <= time -> time <= T ->
  stateAtTime_const corr (limitToTime_from T (p :: rest)) offset (t p) time
  = stateAtTime_const corr (p :: rest) offset (t p) time.
Proof.
  induction rest as [| q rest IH]; intros p offset time T Hwf Hlo Hhi.
  - reflexivity.
  - destruct Hwf as (Hle & Hcont & Hwf).
    rewrite limitToTime_from_step.
    destruct (Rle_dec T (t q)) as [Hcut | Hkeep].
    + rewrite Rgeb_true by assumption.
      rewrite !stateAtTime_const_step. cbv zeta. cbn [t v].
      destruct (Rlt_dec time T) as [Hbefore | Hat].
      * (* strictly before the cut *)
        rewrite !Rgtb_true by lra.
        unfold ConstantAcceleration2D.partialSegmentOffsetAndSpeed,
          ConstantAcceleration2D.precomputeSegment.
        cbn [fst snd ConstantAcceleration2D.invSegmentTime t v].
        rewrite (Reqb_false (t q) (t p)) by lra.
        rewrite (Reqb_false T (t p)) by lra.
        destruct p as [[px py] tp], q as [[qx qy] tq], offset as [ox oy], corr as [cx cy].
        cbn [t v] in *. f_equal; vec_eq.
      * (* at the cut *)
        assert (HT : time = T) by lra. subst time.
        rewrite (Rgtb_false (t p + (T - t p)) T) by lra.
        rewrite stateAtTime_const_single. cbn [t v].
        destruct (Rlt_dec T (t q)) as [Hin | Hend].
        -- rewrite Rgtb_true by lra.
           unfold ConstantAcceleration2D.partialSegmentOffsetAndSpeed,
             ConstantAcceleration2D.precomputeSegment,
             ConstantAcceleration2D.segmentOffset.
           cbn [fst snd ConstantAcceleration2D.invSegmentTime t v].
           rewrite !(Reqb_false (t q) (t p)) by lra.
           destruct p as [[px py] tp], q as [[qx qy] tq], offset as [ox oy],
             corr as [cx cy].
           cbn [t v] in *. f_equal; vec_eq.
        -- assert (HTq : T = t q) by lra. subst T.
           rewrite Rgtb_false by lra.
           replace (t p + (t q - t p)) with (t q) by lra.
           rewrite stateAtTime_const_at_head by assumption.
           unfold ConstantAcceleration2D.segmentOffset. cbn [t v].
           assert (HvT : v p +v (v q -v v p)
                           *v (if Reqb (t q) (t p) then 1 else (t q - t p) / (t q - t p))
                         = v q).
           { destruct (Req_dec_T (t q) (t p)) as [Heq | Hne].
             - rewrite Reqb_true by assumption.
               destruct p as [[px py] tp], q as [[qx qy] tq]. cbn [t v] in *. vec_eq.
             - rewrite Reqb_false by assumption.
               destruct p as [[px py] tp], q as [[qx qy] tq]. cbn [t v] in *. vec_eq. }
           rewrite HvT.
           destruct p as [[px py] tp], q as [[qx qy] tq], offset as [ox oy],
             corr as [cx cy].
           cbn [t v] in *. f_equal; vec_eq.
    + rewrite Rgeb_false by lra.
      destruct (limitToTime_from_head T q rest) as [tail Htail].
      rewrite Htail, !stateAtTime_const_step. cbv zeta. rewrite <- Htail.
      destruct (Rlt_dec time (t q)) as [Hin | Hpast].
      * rewrite Rgtb_true by lra. reflexivity.
      * rewrite Rgtb_false by lra.
        replace (t p + (t q - t p)) with (t q) by lra.
        apply IH; [assumption | lra | lra].
Qed.

Lemma wellFormed_le_back rest : forall p,
  wellFormed (p :: rest) -> times_le (back_t (p :: rest)) (p :: rest).
Proof.
  induction rest as [| q rest IH]; intros p Hwf.
  - apply List.Forall_cons; [unfold back_t; simpl; lra | apply List.Forall_nil].
  - destruct Hwf as (Hle & _ & Hwf). specialize (IH q Hwf).
    change (back_t (p :: q :: rest)) with (back_t (q :: rest)).
    apply List.Forall_cons; [| exact IH].
    inversion IH; subst. lra.
Qed.

Lemma times_le_weaken a b profile : a <= b -> times_le a profile -> times_le b profile.
Proof.
  intros Hab Hle. unfold times_le in *.
  induction Hle; [apply List.Forall_nil | apply List.Forall_cons; [lra | assumption]].
Qed.

Lemma limitToTime_from_times T rest : forall p,
  wellFormed (p :: rest) -> t p <= T -> T <= back_t (p :: rest) ->
  times_le T (limitToTime_from T (p :: rest))
  /\ back_t (limitToTime_from T (p :: rest)) = T.
Proof.
  induction rest as [| q rest IH]; intros p Hwf Hlo Hhi.
  - unfold back_t in *. simpl in *.
    split; [apply List.Forall_cons; [lra | apply List.Forall_nil] | lra].
  - destruct Hwf as (Hle & _ & Hwf). rewrite limitToTime_from_step.
    destruct (Rle_dec T (t q)) as [Hcut | Hkeep].
    + rewrite Rgeb_true by assumption. split.
      * apply List.Forall_cons; [lra |].
        apply List.Forall_cons; [simpl; lra | apply List.Forall_nil].
      * reflexivity.
    + rewrite Rgeb_false by lra.
      change (back_t (p :: q :: rest)) with (back_t (q :: rest)) in Hhi.
      destruct (IH q Hwf) as [Hall Hback]; [lra | assumption |].
      destruct (limitToTime_from_head T q rest) as [tail Htail].
      split.
      * apply List.Forall_cons; [lra | exact Hall].
      * rewrite Htail in *. exact Hback.
Qed.

Lemma computeAcceleration_start : S.computeAcceleration 0.3 = 1.
Proof.
  unfold S.computeAcceleration, SLOW_DOWN_TIME, MIN_ACC_FACTOR.
  replace (1 + 2 * (1 - 0.3 / 0.3) * ((0.3 - 1) / (2 / (1 + 0.3)))) with 1 by (field; lra).
  apply sqrt_1.
Qed.

Lemma computeAcceleration_end : S.computeAcceleration 0 = 0.3.
Proof.
  unfold S.computeAcceleration, SLOW_DOWN_TIME, MIN_ACC_FACTOR.
  replace (1 + 2 * (1 - 0 / 0.3) * ((0.3 - 1) / (2 / (1 + 0.3)))) with (0.3 * 0.3)
    by (field; lra).
  apply sqrt_square. lra.
Qed.

Lemma sign_neg x : x < 0 -> sign x = -1.
Proof. intros Hx. unfold sign. rewrite Rltb_true by assumption. reflexivity. Qed.

Lemma sign_nonneg x : 0 <= x -> sign x = 1.
Proof. intros Hx. unfold sign. rewrite Rltb_false by assumption. reflexivity. Qed.


(** The precomputation of a braking segment from [(1, 0)] at time 0 to
    [(w, 0)] at time [total], the last 0.3 s of which are slowed down. *)
Lemma precompute_braking (total w : R) :
  0.3 < total -> w <= 1 ->
  S.precomputeSegment (S.make total 0.3)
    (mkVT (mkVector 1 0) 0) (mkVT (mkVector w 0) total)
  = S.mkPre (ConstantAcceleration2D.mkPre (1 / total))
      (mkVector (1 + (w - 1) * (total - 0.3) / total) 0)
      (mkVector ((1 - w) / total) 0)
      (mkVector (0.3 * (1 - w) / total) 0)
      (6 / 13)
      (mkVector (0.5 * (total - 0.3) * (2 + (w - 1) * (total - 0.3) / total)) 0).
Proof.
  intros Htotal Hw. unfold S.precomputeSegment, S.make, SLOW_DOWN_TIME.
  cbn [S.slowDownStartTime S.endTime t v].
  rewrite (Rleb_false total (total - 0.3)) by lra.
  rewrite (Reqb_false 0 total) by lra.
  rewrite (Rltb_true 0 (total - 0.3)) by lra.
  cbn [orb].
  unfold ConstantAcceleration2D.partialSegmentOffsetAndSpeed,
    ConstantAcceleration2D.precomputeSegment.
  cbn [fst snd ConstantAcceleration2D.invSegmentTime t v].
  rewrite (Reqb_false total 0) by lra.
  replace (total + 0.3 - 0.3 - (total - 0.3)) with 0.3 by lra.
  replace (total + 0.3 - 0.3 - total) with 0 by lra.
  rewrite computeAcceleration_start, computeAcceleration_end.
  unfold Vec.abs, Vec.sub, Vec.add, Vec.scale. cbn [vx vy].
  rewrite (Rabs_right (1 - w)) by lra.
  replace (0 - 0) with 0 by lra. rewrite Rabs_R0.
  f_equal.
  - f_equal. field. lra.
  - f_equal; field; lra.
  - f_equal; field; lra.
  - f_equal; field; lra.
  - lra.
  - f_equal; field; lra.
Qed.

Lemma limitToTime_braking (slowDown : R) :
  profile (limitToTime 0.5 (braking slowDown))
  = [mkVT (mkVector 1 0) 0; mkVT (mkVector 0.5 0) 0.5].
Proof.
  unfold limitToTime, braking. cbn [profile limitToTime_from t v].
  rewrite Rgeb_true by lra. rewrite Reqb_false by lra.
  f_equal. f_equal. f_equal. unfold Vec.add, Vec.sub, Vec.scale. cbn [vx vy].
  f_equal; req.
Qed.

(** The original trajectory: at time 0.4 the constant deceleration has
    brought the speed to 0.6. *)
Lemma braking_original :
  speed (stateAtTime (braking 0.3) 0.4) = mkVector 0.6 0.
Proof.
  unfold stateAtTime, braking. cbn [profile s0 correctionOffsetPerSecond slowDownTime].
  unfold back_t. cbn [List.last t].
  rewrite stateAtTime_from_step. cbv zeta.
  rewrite precompute_braking by lra.
  unfold S.timeForSegment, S.partialSegmentOffsetAndSpeed, S.make, SLOW_DOWN_TIME.
  cbn [S.slowDownStartTime S.segmentTime S.constantPrecomputation t v].
  rewrite (Rleb_false 1 (1 - 0.3)) by lra.
  rewrite (Rltb_true 0 (1 - 0.3)) by lra.
  rewrite Rgtb_true by lra.
  rewrite (Rleb_true 0.4 (1 - 0.3)) by lra. cbn [orb speed snd].
  unfold ConstantAcceleration2D.partialSegmentOffsetAndSpeed.
  cbn [snd ConstantAcceleration2D.invSegmentTime t v].
  rewrite Reqb_false by lra.
  unfold Vec.add, Vec.sub, Vec.scale. cbn [vx vy]. f_equal; req.
Qed.

(** The truncated trajectory slows down from time 0.2 on. *)
Lemma braking_truncated :
  speed (stateAtTime (limitToTime 0.5 (braking 0.3)) 0.4) = mkVector (1891 / 3000) 0.
Proof.
  unfold stateAtTime. rewrite limitToTime_braking.
  cbn [limitToTime braking s0 correctionOffsetPerSecond slowDownTime].
  unfold back_t. cbn [List.last t].
  rewrite stateAtTime_from_step. cbv zeta.
  rewrite precompute_braking by lra.
  unfold S.timeForSegment, S.partialSegmentOffsetAndSpeed, S.make, SLOW_DOWN_TIME.
  cbn [S.slowDownStartTime S.segmentTime S.constantPrecomputation S.pre_v0 S.pre_a0
       S.pre_a1 S.partialDistance t v].
  rewrite (Rleb_false 0.5 (0.5 - 0.3)) by lra.
  rewrite (Rltb_true 0 (0.5 - 0.3)) by lra.
  rewrite Rgtb_true by lra.
  rewrite (Rleb_false 0.4 (0.5 - 0.3)) by lra.
  rewrite (Reqb_false 0 0.5) by lra.
  rewrite (Rgtb_false 0 (0.5 - 0.3)) by lra.
  cbn [orb speed snd].
  unfold S.signedBy, Vec.add, Vec.sub, Vec.scale. cbn [vx vy].
  rewrite (sign_neg (0.5 - (1 + (0.5 - 1) * (0.5 - 0.3) / 0.5))) by lra.
  rewrite (sign_nonneg (0 - 0)) by lra.
  f_equal; req.
Qed.

Lemma braking_time : 0.5 <= Trajectory.time (braking 0.3).
Proof.
  unfold Trajectory.time, braking. cbn [profile slowDownTime].
  rewrite Reqb_false by lra.
  unfold back_t. cbn [List.last t time_from].
  rewrite precompute_braking by lra.
  unfold S.timeForSegment, S.make, SLOW_DOWN_TIME.
  cbn [S.slowDownStartTime S.segmentTime t].
  rewrite (Rleb_false 1 (1 - 0.3)) by lra.
  rewrite (Rltb_true 0 (1 - 0.3)) by lra.
  lra.
Qed.

(** C6, as the code has it: for a trajectory without slowdown (the stored
    slowdown time is -1, which the constructor stores for 0) whose profile
    starts at time 0 with non-decreasing times and no jump of the speed,
    and for every cutoff [T <= time()], [stateAtTime] answers every
    [0 <= t <= T] after [limitToTime(T)] as it did before. *)
Theorem limitToTime_preserves_state (tr : trajectory) (T time : R) :
  slowDownTime tr = -1 ->
  startsAtZero (profile tr) -> wellFormed (profile tr) ->
  0 <= time -> time <= T -> T <= Trajectory.time tr ->
  stateAtTime (limitToTime T tr) time = stateAtTime tr time.
Proof.
  intros Hslow Hzero Hwf H0 HT Hend.
  unfold stateAtTime, limitToTime, Trajectory.time in *.
  cbn [profile s0 correctionOffsetPerSecond slowDownTime] in *.
  rewrite Hslow in *. rewrite Reqb_true in Hend by reflexivity.
  destruct (profile tr) as [| p rest] eqn:Hprofile; [reflexivity |].
  simpl in Hzero.
  destruct (limitToTime_from_times T rest p Hwf) as [Hall Hback]; [lra | assumption |].
  rewrite !stateAtTime_from_const.
  - rewrite <- Hzero. apply limitToTime_const; [assumption | lra | lra].
  - unfold S.make; cbn [S.slowDownStartTime].
    apply times_le_weaken with (back_t (p :: rest)); [lra |].
    apply wellFormed_le_back; assumption.
  - unfold S.make; cbn [S.slowDownStartTime]. lra.
  - unfold S.make; cbn [S.slowDownStartTime]. rewrite Hback.
    apply times_le_weaken with T; [lra | assumption].
  - unfold S.make; cbn [S.slowDownStartTime]. rewrite Hback. lra.
Qed.

(** The braking robot without slowdown, cut at 0.5 s and asked at 0.25 s. *)
Lemma limitToTime_preserves_state_witness :
  stateAtTime (limitToTime 0.5 (braking (-1))) 0.25 = stateAtTime (braking (-1)) 0.25.
Proof.
  apply (limitToTime_preserves_state (braking (-1)) 0.5 0.25).
  - reflexivity.
  - reflexivity.
  - simpl. repeat split; try lra.
  - lra.
  - lra.
  - unfold Trajectory.time, braking, back_t. cbn [slowDownTime profile List.last t].
    rewrite Reqb_true by reflexivity. lra.
Defined.

(** C6, as the claim states it, fails with a slowdown time: the braking
    robot with the 0.3 s slowdown, cut at [T = 0.5 <= time()], moves at
    0.6 m/s at [t = 0.4 <= T] before the cut and at 1891/3000 m/s after it,
    because the slowdown of the cut profile starts at 0.2 s. *)
Lemma limitToTime_moves_slowdown :
  0.4 <= 0.5 /\ 0.5 <= Trajectory.time (braking 0.3)
  /\ speed (stateAtTime (braking 0.3) 0.4) = mkVector 0.6 0
  /\ speed (stateAtTime (limitToTime 0.5 (braking 0.3)) 0.4) = mkVector (1891 / 3000) 0
  /\ stateAtTime (limitToTime 0.5 (braking 0.3)) 0.4 <> stateAtTime (braking 0.3) 0.4.
Proof.
  split; [lra |]. split; [apply braking_time |].
  split; [apply braking_original |]. split; [apply braking_truncated |].
  intros Heq. apply (f_equal speed) in Heq.
  rewrite braking_original, braking_truncated in Heq.
  injection Heq as Hx. lra.
Qed.

End TrajectoryProps.

(** ** The closed form of [findTrajectoryExactEndSpeed] *)

Module AlphaTimeProps.

Import AlphaTimeTrajectory ClosedFormSpec.

Lemma sqrt_between (lo hi x : R) :
  0 <= lo -> lo * lo < x -> x < hi * hi -> 0 <= hi -> lo < sqrt x < hi.
Proof.
  intros Hlo Hlox Hxhi Hhi. split.
  - rewrite <- (sqrt_square lo) by assumption. apply sqrt_lt_1_alt. nra.
  - rewrite <- (sqrt_square hi) by assumption. apply sqrt_lt_1_alt. nra.
Qed.

(** C5, as the code has it: with [v1 = (0, 0)], whenever the length of the
    acceleration vector needed to stop at the requested position lies
    strictly between [a] and [1.2 a] and the two stop times differ by less
    than 0.1 s, the function returns the valid profile of one ramp per axis
    from [v0] to rest and does not search.  (The position and [v0] are not
    zero on either axis: the source divides by them.) *)
Theorem findTrajectoryExactEndSpeed_closed_form `{ProfileOps}
    (v0 position : Vector) (acc vMax slowDownTime : R) (highPrecision : bool) :
  vx position <> 0 -> vy position <> 0 -> vx v0 <> 0 -> vy v0 <> 0 ->
  codeCondition v0 position acc ->
  let necessaryAcc := necessaryAcceleration v0 position in
  let result :=
    findTrajectoryExactEndSpeed v0 (mkVector 0 0) position acc vMax slowDownTime
      highPrecision in
  result = closedFormProfile v0 necessaryAcc
  /\ valid result = true
  /\ xProfile result
     = mkProfile1D (vx necessaryAcc) 2
         [SpeedProfile1D.mkVT (vx v0) 0;
          SpeedProfile1D.mkVT 0 (Rabs (vx v0 / vx necessaryAcc))]
  /\ yProfile result
     = mkProfile1D (vy necessaryAcc) 2
         [SpeedProfile1D.mkVT (vy v0) 0;
          SpeedProfile1D.mkVT 0 (Rabs (vy v0 / vy necessaryAcc))].
Proof.
  intros _ _ _ _ Hcond necessaryAcc result.
  unfold codeCondition in Hcond. cbv zeta in Hcond.
  destruct Hcond as (Hlo & Hhi & Htime).
  assert (Hresult : result = closedFormProfile v0 necessaryAcc).
  { unfold result, necessaryAcc, findTrajectoryExactEndSpeed.
    rewrite Vec_eqb_refl. cbv zeta.
    rewrite (Rgtb_true _ _ Hlo).
    unfold MAX_ACCELERATION_FACTOR. rewrite (Rltb_true _ _ Hhi).
    rewrite (Rltb_true _ _ Htime). reflexivity. }
  rewrite Hresult. repeat split.
Qed.

(** When the test fails, or the end speed is not zero, the function
    searches. *)
Lemma findTrajectoryExactEndSpeed_searches `{ProfileOps}
    (v0 v1 position : Vector) (acc vMax slowDownTime : R) (highPrecision : bool) :
  v1 <> mkVector 0 0 \/ ~ codeCondition v0 position acc ->
  findTrajectoryExactEndSpeed v0 v1 position acc vMax slowDownTime highPrecision
  = iterativeSearchExactEndSpeed v0 v1 position acc vMax slowDownTime highPrecision.
Proof.
  intros Hno. unfold findTrajectoryExactEndSpeed.
  destruct (Vec.eqb v1 (mkVector 0 0)) eqn:Hv1; [| reflexivity].
  destruct Hno as [Hne | Hcond].
  - apply Vec_eqb_spec in Hv1. contradiction.
  - destruct (Rgtb _ acc) eqn:Hlo; [| reflexivity].
    destruct (Rltb _ (acc * MAX_ACCELERATION_FACTOR)) eqn:Hhi; [| reflexivity].
    destruct (Rltb _ 0.1) eqn:Htime; [| reflexivity].
    exfalso. apply Hcond. unfold codeCondition.
    apply Rltb_spec in Hlo, Hhi, Htime. unfold MAX_ACCELERATION_FACTOR in Hhi.
    repeat split; assumption.
Qed.

(** From [v0 = (1, 1)] to the position [(0.625, 0.625)] with [a = 1]: the
    needed acceleration is [(0.8, 0.8)], of length about 1.13. *)
Lemma findTrajectoryExactEndSpeed_closed_form_witness :
  xProfile
    (findTrajectoryExactEndSpeed (H := Resting.restingOps) (mkVector 1 1)
       (mkVector 0 0) (mkVector 0.625 0.625) 1 3 0 false)
  = mkProfile1D
      (vx (necessaryAcceleration (mkVector 1 1) (mkVector 0.625 0.625))) 2
      [SpeedProfile1D.mkVT 1 0;
       SpeedProfile1D.mkVT 0
         (Rabs (1 / vx (necessaryAcceleration (mkVector 1 1) (mkVector 0.625 0.625))))].
Proof.
  assert (Hacc : necessaryAcceleration (mkVector 1 1) (mkVector 0.625 0.625)
                 = mkVector 0.8 0.8).
  { unfold necessaryAcceleration. cbn [vx vy]. rewrite Rabs_R1. f_equal; lra. }
  apply (findTrajectoryExactEndSpeed_closed_form (H := Resting.restingOps)
           (mkVector 1 1) (mkVector 0.625 0.625) 1 3 0 false); cbn [vx vy]; try lra.
  unfold codeCondition. rewrite Hacc. cbn [vx vy].
  unfold Vec.length, Vec.lengthSquared. cbn [vx vy].
  destruct (sqrt_between 1 1.2 (0.8 * 0.8 + 0.8 * 0.8)) as [Hlo Hhi]; try lra.
  repeat split; try lra.
  rewrite Rabs_R1. replace (1 / 0.8 - 1 / 0.8) with 0 by lra. rewrite Rabs_R0. lra.
Defined.

(** Under the stand-in queries every profile the search returns is empty,
    which the closed form is not. *)
Lemma resting_search_empty (rounds : nat) :
  forall (i : nat) (v0 v1 position : Vector) (acc vMax slowDownTime : R)
         (highPrecision : bool) (minimumTime : R) (useMin : bool) (minPos : Vector)
         (st : SearchState),
    counter (xProfile (result st)) = 0%nat ->
    counter (xProfile
      (searchExactEndSpeed (H := Resting.restingOps) rounds i v0 v1 position acc vMax
         slowDownTime highPrecision minimumTime useMin minPos st)) = 0%nat.
Proof.
  induction rounds as [| rounds IH]; intros i v0 v1 position acc vMax slowDownTime
    highPrecision minimumTime useMin minPos st Hst.
  - exact Hst.
  - cbn [searchExactEndSpeed].
    destruct (Rgtb slowDownTime 0).
    + destruct (Rltb _ (targetPrecision highPrecision)).
      * destruct (Rleb slowDownTime 0); reflexivity.
      * apply IH. reflexivity.
    + destruct (Rltb _ (targetPrecision highPrecision)).
      * destruct (Rleb slowDownTime 0); [reflexivity | exact Hst].
      * apply IH. exact Hst.
Qed.

(** C5, as the claim states it, fails: from [v0 = (1, 1)] to the position
    [(0.5, 0.5)] with [a = 1] each axis needs the deceleration 1, within
    [[a, 1.2 a]], and both axes stop after 1 s; the code compares the
    length [sqrt 2] of the acceleration vector with [1.2 a] and searches. *)
Lemma per_axis_condition_searches :
  perAxisCondition (mkVector 1 1) (mkVector 0.5 0.5) 1
  /\ (forall (ops : ProfileOps) (vMax slowDownTime : R) (highPrecision : bool),
        findTrajectoryExactEndSpeed (mkVector 1 1) (mkVector 0 0) (mkVector 0.5 0.5) 1
          vMax slowDownTime highPrecision
        = iterativeSearchExactEndSpeed (mkVector 1 1) (mkVector 0 0) (mkVector 0.5 0.5) 1
            vMax slowDownTime highPrecision)
  /\ findTrajectoryExactEndSpeed (H := Resting.restingOps) (mkVector 1 1) (mkVector 0 0)
       (mkVector 0.5 0.5) 1 3 0 false
     <> closedFormProfile (H := Resting.restingOps) (mkVector 1 1)
          (necessaryAcceleration (mkVector 1 1) (mkVector 0.5 0.5)).
Proof.
  assert (Hacc : necessaryAcceleration (mkVector 1 1) (mkVector 0.5 0.5) = mkVector 1 1).
  { unfold necessaryAcceleration. cbn [vx vy]. rewrite Rabs_R1. f_equal; lra. }
  assert (Hsearch : forall (ops : ProfileOps) vMax slowDownTime highPrecision,
            findTrajectoryExactEndSpeed (mkVector 1 1) (mkVector 0 0) (mkVector 0.5 0.5) 1
              vMax slowDownTime highPrecision
            = iterativeSearchExactEndSpeed (mkVector 1 1) (mkVector 0 0)
                (mkVector 0.5 0.5) 1 vMax slowDownTime highPrecision).
  { intros ops vMax slowDownTime highPrecision.
    apply findTrajectoryExactEndSpeed_searches. right.
    unfold codeCondition. rewrite Hacc. intros (_ & Hhi & _).
    unfold Vec.length, Vec.lengthSquared in Hhi. cbn [vx vy] in Hhi.
    assert (Hsq : 1.2 <= sqrt (1 * 1 + 1 * 1)).
    { rewrite <- (sqrt_square 1.2) by lra. apply sqrt_le_1_alt. lra. }
    lra. }
  split; [| split].
  - unfold perAxisCondition. rewrite Hacc. cbn [vx vy]. rewrite Rabs_R1.
    replace (1 / 1 - 1 / 1) with 0 by lra. rewrite Rabs_R0. lra.
  - exact Hsearch.
  - assert (Hempty :
      counter (xProfile
        (findTrajectoryExactEndSpeed (H := Resting.restingOps) (mkVector 1 1)
           (mkVector 0 0) (mkVector 0.5 0.5) 1 3 0 false)) = 0%nat).
    { rewrite Hsearch. apply resting_search_empty. reflexivity. }
    intros Heq. rewrite Heq in Hempty. discriminate Hempty.
Qed.

End AlphaTimeProps.

(** ** The ball filter with robot collisions *)

Module GroundFilterProps.

Import BallGroundCollisionFilter GroundExamples.

Lemma length_x (a : R) : Vec.length (mkVector a 0) = Rabs a.
Proof.
  unfold Vec.length, Vec.lengthSquared. cbn [vx vy].
  replace (a * a + 0 * 0) with (Rsqr a) by (unfold Rsqr; ring).
  apply sqrt_Rsqr_abs.
Qed.

Lemma length_y (a : R) : Vec.length (mkVector 0 a) = Rabs a.
Proof.
  unfold Vec.length, Vec.lengthSquared. cbn [vx vy].
  replace (0 * 0 + a * a) with (Rsqr a) by (unfold Rsqr; ring).
  apply sqrt_Rsqr_abs.
Qed.

Lemma normalized_x_pos (a : R) : 0 < a -> normalized (mkVector a 0) = mkVector 1 0.
Proof.
  intros Ha. unfold normalized. rewrite length_x, (Rabs_right a) by lra.
  unfold Vec.lengthSquared. cbn [vx vy]. rewrite Rgtb_true by nra.
  unfold Vec.scale. cbn [vx vy]. f_equal; field; lra.
Qed.

Lemma normalized_x_neg (a : R) : a < 0 -> normalized (mkVector a 0) = mkVector (-1) 0.
Proof.
  intros Ha. unfold normalized. rewrite length_x, (Rabs_left a) by lra.
  unfold Vec.lengthSquared. cbn [vx vy]. rewrite Rgtb_true by nra.
  unfold Vec.scale. cbn [vx vy]. f_equal; field; lra.
Qed.

Ltac struct_eq :=
  repeat first
    [ apply (f_equal2 (@cons _)) | apply (f_equal2 (@pair _ _))
    | apply (f_equal2 mkVector)
    | match goal with |- @nil _ = @nil _ => reflexivity end ].

Lemma sqrt_four_sq (r : R) : 0 <= r -> sqrt (4 * (r * r)) = 2 * r.
Proof.
  intros Hr. replace (4 * (r * r)) with ((2 * r) * (2 * r)) by ring.
  apply sqrt_square. lra.
Qed.

(** A line along the x axis through a disc centred at the origin. *)
Lemma intersectLineCircle_x_right (a d r : R) :
  0 < d -> 0.01 <= r ->
  intersectLineCircle (mkVector a 0) (mkVector d 0) (mkVector 0 0) r
  = [(mkVector r 0, r - a); (mkVector (- r) 0, - r - a)].
Proof.
  intros Hd Hr. unfold intersectLineCircle. rewrite normalized_x_pos by assumption.
  unfold Vec.dot, Vec.sub, Vec.add, Vec.scale. cbn [vx vy].
  replace ((2 * (1 * (a - 0) + 0 * (0 - 0))) * (2 * (1 * (a - 0) + 0 * (0 - 0)))
           - 4 * (1 * 1 + 0 * 0) * ((a - 0) * (a - 0) + (0 - 0) * (0 - 0) - r * r))
    with (4 * (r * r)) by ring.
  rewrite Rltb_false by nra. rewrite Rltb_false by nra.
  rewrite sqrt_four_sq by lra.
  struct_eq; field.
Qed.

Lemma intersectLineCircle_x_left (a d r : R) :
  d < 0 -> 0.01 <= r ->
  intersectLineCircle (mkVector a 0) (mkVector d 0) (mkVector 0 0) r
  = [(mkVector (- r) 0, a + r); (mkVector r 0, a - r)].
Proof.
  intros Hd Hr. unfold intersectLineCircle. rewrite normalized_x_neg by assumption.
  unfold Vec.dot, Vec.sub, Vec.add, Vec.scale. cbn [vx vy].
  replace ((2 * (-1 * (a - 0) + 0 * (0 - 0))) * (2 * (-1 * (a - 0) + 0 * (0 - 0)))
           - 4 * (-1 * -1 + 0 * 0) * ((a - 0) * (a - 0) + (0 - 0) * (0 - 0) - r * r))
    with (4 * (r * r)) by ring.
  rewrite Rltb_false by nra. rewrite Rltb_false by nra.
  rewrite sqrt_four_sq by lra.
  struct_eq; field.
Qed.

(** From a point inside the disc, a segment along the x axis that leaves
    the disc meets the circle where it leaves. *)
Lemma intersectLineSegmentCircle_x_right (a b r : R) :
  0.01 <= r -> - r < a < r -> r <= b ->
  intersectLineSegmentCircle (mkVector a 0) (mkVector b 0) (mkVector 0 0) r
  = Some (mkVector r 0).
Proof.
  intros Hr Ha Hb. unfold intersectLineSegmentCircle.
  replace (mkVector b 0 -v mkVector a 0) with (mkVector (b - a) 0)
    by (unfold Vec.sub; cbn [vx vy]; f_equal; lra).
  rewrite intersectLineCircle_x_right by lra.
  rewrite length_x, (Rabs_right (b - a)) by lra.
  cbn [snd fst]. rewrite Rgtb_true by lra. cbn [snd fst].
  rewrite (Rgeb_false (- r - a)) by lra. cbn [andb].
  rewrite (Rgeb_true (r - a)) by lra. rewrite Rleb_true by lra. reflexivity.
Qed.

Lemma intersectLineSegmentCircle_x_left (a b r : R) :
  0.01 <= r -> - r < a < r -> b <= - r ->
  intersectLineSegmentCircle (mkVector a 0) (mkVector b 0) (mkVector 0 0) r
  = Some (mkVector (- r) 0).
Proof.
  intros Hr Ha Hb. unfold intersectLineSegmentCircle.
  replace (mkVector b 0 -v mkVector a 0) with (mkVector (b - a) 0)
    by (unfold Vec.sub; cbn [vx vy]; f_equal; lra).
  rewrite intersectLineCircle_x_left by lra.
  rewrite length_x, (Rabs_left (b - a)) by lra.
  cbn [snd fst]. rewrite Rgtb_true by lra. cbn [snd fst].
  rewrite (Rgeb_false (a - r)) by lra. cbn [andb].
  rewrite (Rgeb_true (a + r)) by lra. rewrite Rleb_true by lra. reflexivity.
Qed.

(** The dribbler line of a robot that faces along the x axis, met by a line
    along the x axis. *)
Lemma intersectLineLine_dribbler (dx a d : R) :
  d <> 0 ->
  intersectLineLine (mkVector dx 0) (perpendicular (mkVector 1 0)) (mkVector a 0)
    (mkVector d 0)
  = Some (0, (dx - a) / d).
Proof.
  intros Hd. unfold intersectLineLine, perpendicular. cbn [vx vy].
  rewrite length_y, length_x.
  unfold Vec.dot, Vec.sub. cbn [vx vy].
  replace (- (1) * d + - 0 * 0) with (- d) by ring.
  rewrite !Rabs_Ropp, Rabs_R1.
  replace (Rabs d / (1 * Rabs d)) with 1 by (field; apply Rabs_no_R0; assumption).
  rewrite Rltb_false by lra.
  f_equal. apply (f_equal2 pair); field; assumption.
Qed.

(** A robot at the origin that faces along the x axis, crossed along the x
    axis from the point [(a, 0)] behind its dribbler line: towards the back
    the segment leaves through the hull, towards the front it meets the
    dribbler line first. *)
Lemma intersectLineSegmentRobot_back (dx a b : R) :
  0 < dx -> - ROBOT_RADIUS < a < dx -> dx < ROBOT_RADIUS -> b <= - ROBOT_RADIUS ->
  intersectLineSegmentRobot (mkVector a 0) (mkVector b 0) (facingRobot dx) ROBOT_RADIUS 1
  = Some (mkVector (- ROBOT_RADIUS) 0).
Proof.
  intros Hdx Ha Hr Hb. unfold ROBOT_RADIUS in *.
  unfold intersectLineSegmentRobot, facingRobot. cbn [robotPos dribblerPos].
  rewrite !Reqb_true by lra.
  replace (mkVector dx 0 -v mkVector 0 0) with (mkVector dx 0)
    by (unfold Vec.sub; cbn [vx vy]; f_equal; lra).
  rewrite normalized_x_pos by assumption.
  replace (mkVector b 0 -v mkVector a 0) with (mkVector (b - a) 0)
    by (unfold Vec.sub; cbn [vx vy]; f_equal; lra).
  rewrite intersectLineLine_dribbler by lra.
  rewrite Rabs_R0. rewrite (Rleb_true 0) by (unfold DRIBBLER_WIDTH; lra).
  assert (Hneg : (dx - a) / (b - a) < 0).
  { apply Ropp_lt_cancel. rewrite Ropp_0.
    replace (- ((dx - a) / (b - a))) with ((dx - a) / (a - b)) by (field; lra).
    apply Rdiv_lt_0_compat; lra. }
  rewrite Rgeb_false by lra. cbn [andb].
  apply intersectLineSegmentCircle_x_left; lra.
Qed.

Lemma intersectLineSegmentRobot_front (dx a b : R) :
  0 < dx -> - ROBOT_RADIUS < a < dx -> dx < ROBOT_RADIUS -> ROBOT_RADIUS <= b ->
  intersectLineSegmentRobot (mkVector a 0) (mkVector b 0) (facingRobot dx) ROBOT_RADIUS 1
  = Some (mkVector dx 0).
Proof.
  intros Hdx Ha Hr Hb. unfold ROBOT_RADIUS in *.
  unfold intersectLineSegmentRobot, facingRobot. cbn [robotPos dribblerPos].
  rewrite !Reqb_true by lra.
  replace (mkVector dx 0 -v mkVector 0 0) with (mkVector dx 0)
    by (unfold Vec.sub; cbn [vx vy]; f_equal; lra).
  rewrite normalized_x_pos by assumption.
  replace (mkVector b 0 -v mkVector a 0) with (mkVector (b - a) 0)
    by (unfold Vec.sub; cbn [vx vy]; f_equal; lra).
  rewrite intersectLineLine_dribbler by lra.
  rewrite Rabs_R0. rewrite (Rleb_true 0) by (unfold DRIBBLER_WIDTH; lra).
  assert (Hpos : 0 < (dx - a) / (b - a)) by (apply Rdiv_lt_0_compat; lra).
  assert (Hle : (dx - a) / (b - a) <= 1).
  { apply Rmult_le_reg_r with (b - a); [lra |].
    replace ((dx - a) / (b - a) * (b - a)) with (dx - a) by (field; lra). lra. }
  rewrite Rgeb_true by lra. rewrite Rleb_true by lra. cbn [andb].
  replace (mkVector dx 0 +v perpendicular (mkVector 1 0) *v 0) with (mkVector dx 0)
    by (unfold Vec.add, Vec.scale, perpendicular; cbn [vx vy]; f_equal; lra).
  replace (Vec.dot (mkVector a 0 -v mkVector dx 0) (mkVector 1 0)) with (a - dx)
    by (unfold Vec.dot, Vec.sub; cbn [vx vy]; lra).
  rewrite Rgeb_false by lra.
  rewrite intersectLineSegmentCircle_x_right by lra.
  replace (mkVector 0.088 0 -v mkVector a 0) with (mkVector (0.088 - a) 0)
    by (unfold Vec.sub; cbn [vx vy]; f_equal; lra).
  replace (mkVector dx 0 -v mkVector a 0) with (mkVector (dx - a) 0)
    by (unfold Vec.sub; cbn [vx vy]; f_equal; lra).
  rewrite !length_x, !Rabs_right by lra.
  rewrite Rltb_false by lra. reflexivity.
Qed.

Lemma isInsideRobot_facing (dx a : R) :
  0 < dx -> - ROBOT_RADIUS <= a <= dx -> dx <= ROBOT_RADIUS ->
  isInsideRobot (mkVector a 0) (facingRobot dx) ROBOT_RADIUS = true.
Proof.
  intros Hdx Ha Hr. unfold isInsideRobot, facingRobot. cbn [robotPos dribblerPos].
  replace (mkVector a 0 -v mkVector 0 0) with (mkVector a 0)
    by (unfold Vec.sub; cbn [vx vy]; f_equal; lra).
  rewrite length_x.
  rewrite Rgtb_false by (apply Rabs_le; lra).
  replace (mkVector dx 0 -v mkVector 0 0) with (mkVector dx 0)
    by (unfold Vec.sub; cbn [vx vy]; f_equal; lra).
  rewrite normalized_x_pos by assumption.
  apply Rleb_true. unfold Vec.dot, Vec.sub. cbn [vx vy]. lra.
Qed.

(** The projection of the second rule for a ball at [(a, 0)] that moves
    along the x axis relative to the robot. *)
Lemma insideRobotProjection_facing (dx a s : R) :
  0 < dx -> - ROBOT_RADIUS < a < dx -> dx < ROBOT_RADIUS -> 0.001 < s ->
  insideRobotProjection (mkBall a 0 s 0) (facingRobot dx)
  = Some (if Rltb (a + ROBOT_RADIUS) ((dx - a) * 2)
          then mkVector (- ROBOT_RADIUS) 0 else mkVector dx 0).
Proof.
  intros Hdx Ha Hr Hs. unfold insideRobotProjection. cbn [p_x p_y v_x v_y].
  cbn [speed facingRobot].
  replace (mkVector s 0 -v mkVector 0 0) with (mkVector s 0)
    by (unfold Vec.sub; cbn [vx vy]; f_equal; lra).
  unfold isZero. cbn [vx vy]. rewrite (Rabs_right s) by lra.
  rewrite (Rleb_false s) by lra. cbn [andb].
  replace (Vec.neg (mkVector s 0) *v 1000) with (mkVector (- s * 1000) 0)
    by (unfold Vec.neg, Vec.scale; cbn [vx vy]; f_equal; lra).
  replace (Vec.neg (Vec.neg (mkVector s 0)) *v 1000) with (mkVector (s * 1000) 0)
    by (unfold Vec.neg, Vec.scale; cbn [vx vy]; f_equal; lra).
  fold (facingRobot dx).
  rewrite intersectLineSegmentRobot_back by (unfold ROBOT_RADIUS in *; lra).
  rewrite intersectLineSegmentRobot_front by (unfold ROBOT_RADIUS in *; lra).
  replace (mkVector (- ROBOT_RADIUS) 0 -v mkVector a 0)
    with (mkVector (- ROBOT_RADIUS - a) 0)
    by (unfold Vec.sub; cbn [vx vy]; f_equal; lra).
  replace (mkVector dx 0 -v mkVector a 0) with (mkVector (dx - a) 0)
    by (unfold Vec.sub; cbn [vx vy]; f_equal; lra).
  rewrite !length_x. rewrite (Rabs_left (- ROBOT_RADIUS - a)) by lra.
  rewrite (Rabs_right (dx - a)) by lra.
  replace (- (- ROBOT_RADIUS - a)) with (a + ROBOT_RADIUS) by ring.
  reflexivity.
Qed.


(** C3, as the code has it: [computeBallState] returns before the collision
    rules, so [writeBallState] reports the state the ground filter writes,
    remembers its position and leaves both ball offsets as they were,
    wherever the past estimate lies. *)
Theorem writeBallState_reports_ground_filter {GF : Type} `{GroundFilterOps GF}
    (f : t GF) (ball : Ball) (time : Z) (robots : list RobotInfo) :
  let ground := snd (gf_writeBallState (m_groundFilter f) ball time robots) in
  let result := writeBallState f ball time robots in
  snd result = ground
  /\ m_lastReportedBallPos (fst result) = mkVector (p_x ground) (p_y ground)
  /\ m_localBallOffset (fst result) = m_localBallOffset f
  /\ m_insideRobotOffset (fst result) = m_insideRobotOffset f.
Proof.
  unfold writeBallState, computeBallState. cbv zeta.
  destruct (gf_writeBallState (m_groundFilter f) ball time robots) as [ground written].
  destruct (gf_writeBallState (m_pastFilter f) (mkBall 0 0 0 0)
              (m_lastVisionTime f + 1)%Z robots) as [past pastState].
  repeat split.
Qed.

(** C3, as the claim states it, fails: the past estimate [(0.02, 0)] lies
    inside a robot at the origin whose dribbler line is at [x = 0.06]; the
    projection along the relative velocity is [(0.06, 0)], and the rules
    behind the [return] would write it, but the reported position is the
    one of the ground filter, [(0.03, 0)]. *)
Lemma past_estimate_inside_robot_not_projected :
  let f := collisionFilter in
  let robots := [facingRobot 0.06] in
  let ground := snd (gf_writeBallState (m_groundFilter f) (mkBall 0 0 0 0) 1%Z robots) in
  let pastState :=
    snd (gf_writeBallState (m_pastFilter f) (mkBall 0 0 0 0) (m_lastVisionTime f + 1)%Z
           robots) in
  isInsideRobot (mkVector (p_x pastState) (p_y pastState)) (facingRobot 0.06) ROBOT_RADIUS
  = true
  /\ insideRobotProjection pastState (facingRobot 0.06) = Some (mkVector 0.06 0)
  /\ snd (collisionRules f ground pastState 1%Z robots) = mkBall 0.06 0 1 0
  /\ snd (writeBallState f (mkBall 0 0 0 0) 1%Z robots) = mkBall 0.03 0 1 0
  /\ m_lastReportedBallPos (fst (writeBallState f (mkBall 0 0 0 0) 1%Z robots))
     = mkVector 0.03 0.
Proof.
  cbv zeta. cbn [gf_writeBallState estimateOps collisionFilter m_pastFilter
                 m_groundFilter snd p_x p_y].
  assert (Hinside : isInsideRobot (mkVector 0.02 0) (facingRobot 0.06) ROBOT_RADIUS = true).
  { apply isInsideRobot_facing; unfold ROBOT_RADIUS; lra. }
  assert (Hproject : insideRobotProjection (mkBall 0.02 0 1 0) (facingRobot 0.06)
                     = Some (mkVector 0.06 0)).
  { rewrite insideRobotProjection_facing by (unfold ROBOT_RADIUS; lra).
    unfold ROBOT_RADIUS. rewrite Rltb_false by lra. reflexivity. }
  split; [exact Hinside |]. split; [exact Hproject |]. split; [| split; reflexivity].
  unfold collisionRules. cbn [m_lastVisionTime].
  replace (Z.quot (1 - 0) 1000000) with 0%Z by reflexivity.
  cbn [Z.ltb Z.leb Z.compare ACTIVATE_DRIBBLING_TIME RESET_SPEED_TIME].
  cbn [robotsLoop p_x p_y set_offsets m_insideRobotOffset].
  rewrite Hinside, Hproject. reflexivity.
Qed.

End GroundFilterProps.

(** ** The planner *)

Module PlannerProps.

Import AlphaTimeTrajectory TrajectoryPath PlannerSpec.
#[local] Open Scope planner_scope.

Section Monad.
Context {RNG : Type}.

Lemma keeps_ret {A} (P : t RNG -> Prop) (a : A) : keeps P (ret a).
Proof. intros st a' st' HP Heq. inversion Heq; subst. exact HP. Qed.

Lemma keeps_gets {A} (P : t RNG -> Prop) (f : t RNG -> A) : keeps P (gets f).
Proof. intros st a' st' HP Heq. inversion Heq; subst. exact HP. Qed.

Lemma keeps_outOfFuel {A} (P : t RNG -> Prop) : keeps P (@outOfFuel RNG A).
Proof. intros st a' st' HP Heq. discriminate Heq. Qed.

Lemma keeps_modify (P : t RNG -> Prop) (f : t RNG -> t RNG) :
  (forall st, P st -> P (f st)) -> keeps P (modify f).
Proof. intros Hf st a' st' HP Heq. inversion Heq; subst. apply Hf, HP. Qed.

Lemma keeps_bind {A B} (P : t RNG -> Prop) (m : M RNG A) (k : A -> M RNG B) :
  keeps P m -> (forall a, keeps P (k a)) -> keeps P (bind m k).
Proof.
  intros Hm Hk st b st' HP Heq. unfold bind in Heq.
  destruct (m st) as [[a st1] |] eqn:Hrun; [| discriminate Heq].
  exact (Hk a st1 b st' (Hm st a st1 HP Hrun) Heq).
Qed.

Lemma bind_inv {A B} (m : M RNG A) (k : A -> M RNG B) (st st' : t RNG) (b : B) :
  bind m k st = Some (b, st') ->
  exists a st1, m st = Some (a, st1) /\ k a st1 = Some (b, st').
Proof.
  unfold bind. destruct (m st) as [[a st1] |]; [| discriminate].
  intros Heq. exists a, st1. split; [reflexivity | exact Heq].
Qed.

(** A computation that reads the state it runs from. *)
Lemma keeps_reading {A} (P : t RNG -> Prop) (m : t RNG -> M RNG A) :
  (forall st0, keeps P (m st0)) -> keeps P (fun st => m st st).
Proof. intros Hm st a st' HP Heq. exact (Hm st st a st' HP Heq). Qed.

Lemma returns_ret {A} (a : A) : returns (@ret RNG A a).
Proof. intros st. exists a, st. reflexivity. Qed.

Lemma returns_gets {A} (f : t RNG -> A) : returns (gets f).
Proof. intros st. exists (f st), st. reflexivity. Qed.

Lemma returns_modify (f : t RNG -> t RNG) : returns (modify f).
Proof. intros st. exists tt, (f st). reflexivity. Qed.

Lemma returns_bind {A B} (m : M RNG A) (k : A -> M RNG B) :
  returns m -> (forall a, returns (k a)) -> returns (bind m k).
Proof.
  intros Hm Hk st. destruct (Hm st) as (a & st1 & Hrun).
  destruct (Hk a st1) as (b & st2 & Hrun2).
  exists b, st2. unfold bind. rewrite Hrun. exact Hrun2.
Qed.

Lemma returns_reading {A} (m : t RNG -> M RNG A) :
  (forall st0, returns (m st0)) -> returns (fun st => m st st).
Proof. intros Hm st. exact (Hm st st). Qed.

End Monad.

(** One step through a computation of the planner. *)
Ltac planner_step lemmas :=
  first
    [ apply keeps_ret | apply keeps_gets | apply keeps_outOfFuel
    | apply returns_ret | apply returns_gets | apply returns_modify
    | lemmas
    | apply keeps_bind; [| intros ?] | apply returns_bind; [| intros ?]
    | match goal with
      | |- keeps _ (if ?c then _ else _) => destruct c
      | |- returns (if ?c then _ else _) => destruct c
      | |- keeps _ (let '(_, _) := ?p in _) => destruct p
      | |- returns (let '(_, _) := ?p in _) => destruct p
      | |- keeps _ (match ?p with Some _ => _ | None => _ end) => destruct p
      end ].

(** The first computation of [Heq] is run: it gives [a] and the state [s],
    and keeps [HP] by [lemma]. *)
Tactic Notation "advance" hyp(HP) hyp(Heq) "by" constr(lemma) "as" ident(a) ident(s) :=
  let Hstep := fresh "Hstep" in
  apply bind_inv in Heq; destruct Heq as (a & s & Hstep & Heq);
  apply (lemma _ _ _ HP) in Hstep; clear HP; rename Hstep into HP.

Section Planner.
Context `{ProfileOps} {RNG : Type} `{RNGOps RNG}.
Variable isInputValidFastEndSpeed : Vector -> Vector -> R -> R -> bool.
Variable r : Request.

#[local] Abbreviation state := (t RNG).

(** *** What the state keeps while the planner searches *)

Lemma searching_other (st st' : state) :
  request st' = request st -> m_generationInfo st' = m_generationInfo st ->
  m_bestResultInfo st' = m_bestResultInfo st ->
  searching r st -> searching r st'.
Proof.
  intros Hr Hg Hb (Hreq & Hshape & Hvalid). unfold searching.
  rewrite Hr, Hg, Hb. repeat split; assumption.
Qed.

Lemma searching_invalid (st : state) :
  searching r st ->
  searching r (set_bestResultInfo (set_best_valid false (m_bestResultInfo st)) st).
Proof.
  intros (Hreq & Hshape & Hvalid). repeat split; try assumption.
  cbn. intros Hfalse. discriminate Hfalse.
Qed.

Lemma keeps_rngInt : keeps (searching r) (rngInt (RNG := RNG)).
Proof.
  intros st a st' HP Heq. unfold rngInt in Heq.
  destruct (uniformInt (m_rng st)) as [n rng]. inversion Heq; subst.
  revert HP. apply searching_other; reflexivity.
Qed.

Lemma keeps_rngFloat (a b : R) : keeps (searching r) (rngFloat (RNG := RNG) a b).
Proof.
  intros st x st' HP Heq. unfold rngFloat in Heq.
  destruct (uniformFloat a b (m_rng st)) as [y rng]. inversion Heq; subst.
  revert HP. apply searching_other; reflexivity.
Qed.

Lemma returns_rngInt : returns (rngInt (RNG := RNG)).
Proof.
  intros st. unfold rngInt. destruct (uniformInt (m_rng st)) as [n rng].
  eexists _, _. reflexivity.
Qed.

Lemma returns_rngFloat (a b : R) : returns (rngFloat (RNG := RNG) a b).
Proof.
  intros st. unfold rngFloat. destruct (uniformFloat a b (m_rng st)) as [y rng].
  eexists _, _. reflexivity.
Qed.

Ltac rng_lemmas :=
  first [ apply keeps_rngInt | apply keeps_rngFloat
        | apply returns_rngInt | apply returns_rngFloat ].

Lemma directSlowDownTime_nonneg (q : Request) : 0 <= directSlowDownTime q.
Proof.
  unfold directSlowDownTime, TOTAL_SLOW_DOWN_TIME. destruct (exponentialSlowDown q); lra.
Qed.

Lemma keeps_checkMidPoint (midSpeed : Vector) (time angle : R) :
  keeps (RNG := RNG) (searching r)
    (checkMidPoint isInputValidFastEndSpeed midSpeed time angle).
Proof.
  intros st ok st' HP Heq. unfold checkMidPoint in Heq.
  repeat match type of Heq with
         | (if ?c then _ else _) = _ =>
             destruct c eqn:?; [inversion Heq; subst; exact HP |]
         end.
  inversion Heq; subst. clear Heq.
  destruct HP as (Hreq & _ & _). rewrite Hreq in *.
  split; [exact Hreq |]. split; [| cbn; discriminate].
  right. right. left. cbn [m_generationInfo set_generationInfo].
  eexists _, _. split; [reflexivity |]. cbn [fastEndSpeed slowDownTime].
  split; [reflexivity |]. split; [reflexivity |].
  cbn [info_v0 info_v1 info_time info_angle].
  repeat (split; [reflexivity |]).
  unfold secondPartTime. cbn [info_v0 info_v1 info_time info_angle].
  destruct (exponentialSlowDown r); reflexivity.
Qed.

Lemma returns_checkMidPoint (midSpeed : Vector) (time angle : R) :
  returns (checkMidPoint isInputValidFastEndSpeed (RNG := RNG) midSpeed time angle).
Proof.
  intros st. unfold checkMidPoint.
  repeat match goal with
         | |- exists _ _, (if ?c then _ else _) = _ =>
             destruct c; [eexists _, _; reflexivity |]
         end.
  eexists _, _; reflexivity.
Qed.

Lemma keeps_testEndPoint (endPoint : Vector) :
  keeps (searching r) (testEndPoint (RNG := RNG) endPoint).
Proof.
  intros st ok st' HP Heq. unfold testEndPoint in Heq.
  repeat match type of Heq with
         | (if ?c then _ else _) = _ =>
             destruct c eqn:?; [inversion Heq; subst; exact HP |]
         end.
  inversion Heq; subst. clear Heq.
  destruct HP as (Hreq & _ & _).
  split; [exact Hreq |]. split; [| cbn; discriminate].
  right. right. right. cbn [m_generationInfo set_generationInfo].
  eexists. repeat split.
Qed.

Lemma returns_testEndPoint (endPoint : Vector) :
  returns (testEndPoint (RNG := RNG) endPoint).
Proof.
  intros st. unfold testEndPoint.
  repeat match goal with
         | |- exists _ _, (if ?c then _ else _) = _ =>
             destruct c; [eexists _, _; reflexivity |]
         end.
  eexists _, _; reflexivity.
Qed.

Lemma keeps_escapeRound (b : EscapeBest) : keeps (searching r) (escapeRound (RNG := RNG) b).
Proof.
  unfold escapeRound.
  repeat planner_step rng_lemmas.
  apply keeps_modify. intros st. apply searching_other; reflexivity.
Qed.

Lemma returns_escapeRound (b : EscapeBest) : returns (escapeRound (RNG := RNG) b).
Proof. unfold escapeRound. repeat planner_step rng_lemmas. Qed.

Lemma keeps_escapeLoop (rounds : nat) :
  forall b, keeps (searching r) (escapeLoop (RNG := RNG) rounds b).
Proof.
  induction rounds as [| rounds IH]; intros b; cbn [escapeLoop].
  - apply keeps_ret.
  - repeat planner_step ltac:(first [apply keeps_escapeRound | apply IH]).
Qed.

Lemma returns_escapeLoop (rounds : nat) :
  forall b, returns (escapeLoop (RNG := RNG) rounds b).
Proof.
  induction rounds as [| rounds IH]; intros b; cbn [escapeLoop].
  - apply returns_ret.
  - repeat planner_step ltac:(first [apply returns_escapeRound | apply IH]).
Qed.

(** The escape records one entry without slowdown, whatever it found. *)
Lemma escapeObstacles_entry (st st' : state) (u : unit) :
  searching r st -> escapeObstacles st = Some (u, st') ->
  searching r st'
  /\ m_generationInfo st'
     = [mkInfo (m_bestEscapingTime st') (m_bestEscapingAngle st') 0 (v0 r)
               (mkVector 0 0) (mkVector 0 0) false].
Proof.
  intros HP Heq. unfold escapeObstacles in Heq.
  unfold bind at 1 in Heq. cbn [gets] in Heq.
  unfold bind in Heq.
  destruct (escapeLoop 100 _ st) as [[u1 st1] |] eqn:Hloop; [| discriminate Heq].
  inversion Heq; subst. clear Heq.
  apply (keeps_escapeLoop _ _ _ _ _ HP) in Hloop.
  destruct Hloop as (Hreq & _ & _).
  cbn [m_generationInfo set_generationInfo m_bestEscapingTime m_bestEscapingAngle].
  rewrite Hreq. split; [| reflexivity].
  split; [exact Hreq |]. split; [| cbn; discriminate].
  right. right. right. cbn. eexists. repeat split.
Qed.

Lemma keeps_escapeObstacles : keeps (searching r) (escapeObstacles (RNG := RNG)).
Proof. intros st [] st' HP Heq. exact (proj1 (escapeObstacles_entry st st' tt HP Heq)). Qed.

Lemma returns_escapeObstacles : returns (escapeObstacles (RNG := RNG)).
Proof.
  unfold escapeObstacles.
  repeat planner_step ltac:(apply returns_escapeLoop).
Qed.

Lemma keeps_randomPointInField : keeps (searching r) (randomPointInField (RNG := RNG)).
Proof.
  unfold randomPointInField.
  apply keeps_bind; [intros st x st' HP Heq; exact (keeps_rngFloat _ _ st x st' HP Heq) |].
  intros x.
  apply keeps_bind; [intros st y st' HP Heq; exact (keeps_rngFloat _ _ st y st' HP Heq) |].
  intros y. apply keeps_ret.
Qed.

Lemma returns_randomPointInField : returns (randomPointInField (RNG := RNG)).
Proof.
  unfold randomPointInField.
  apply returns_bind; [intros st; apply returns_rngFloat |]. intros x.
  apply returns_bind; [intros st; apply returns_rngFloat |]. intros y.
  apply returns_ret.
Qed.

Lemma keeps_endPointRound (i : nat) : keeps (searching r) (endPointRound (RNG := RNG) i).
Proof.
  unfold endPointRound.
  repeat planner_step ltac:(first
    [ rng_lemmas | apply keeps_testEndPoint | apply keeps_randomPointInField
    | apply keeps_modify; intros st; destruct (negb _); [| exact (fun HP => HP)];
      apply searching_other; reflexivity ]).
Qed.

Lemma returns_endPointRound (i : nat) : returns (endPointRound (RNG := RNG) i).
Proof.
  unfold endPointRound.
  repeat planner_step ltac:(first
    [ rng_lemmas | apply returns_testEndPoint | apply returns_randomPointInField ]).
Qed.

Lemma keeps_forEach (P : state -> Prop) (body : nat -> M RNG unit) (idx : list nat) :
  (forall i, keeps P (body i)) -> keeps P (forEach idx body).
Proof.
  intros Hbody. induction idx as [| i idx IH]; cbn [forEach].
  - apply keeps_ret.
  - apply keeps_bind; [apply Hbody | intros _; exact IH].
Qed.

Lemma returns_forEach (body : nat -> M RNG unit) (idx : list nat) :
  (forall i, returns (body i)) -> returns (forEach idx body).
Proof.
  intros Hbody. induction idx as [| i idx IH]; cbn [forEach].
  - apply returns_ret.
  - apply returns_bind; [apply Hbody | intros _; exact IH].
Qed.

Lemma keeps_findPathEndInObstacle :
  keeps (searching r) (findPathEndInObstacle (RNG := RNG)).
Proof.
  unfold findPathEndInObstacle.
  repeat planner_step ltac:(first
    [ apply keeps_testEndPoint | apply keeps_escapeObstacles
    | apply keeps_forEach; apply keeps_endPointRound
    | apply keeps_modify; intros st; apply searching_invalid
    | apply keeps_modify; intros st; apply searching_other; reflexivity ]).
Qed.

Lemma returns_findPathEndInObstacle : returns (findPathEndInObstacle (RNG := RNG)).
Proof.
  unfold findPathEndInObstacle.
  repeat planner_step ltac:(first
    [ apply returns_testEndPoint | apply returns_escapeObstacles
    | apply returns_forEach; apply returns_endPointRound ]).
Qed.

Lemma keeps_randomSpeed (fuel : nat) : keeps (searching r) (randomSpeed (RNG := RNG) fuel).
Proof.
  induction fuel as [| fuel IH]; cbn [randomSpeed].
  - apply keeps_outOfFuel.
  - repeat planner_step ltac:(first [rng_lemmas | exact IH]).
Qed.

Lemma keeps_sampleAround (fuel : nat) (chosenMidSpeed : Vector) :
  keeps (searching r) (sampleAround (RNG := RNG) fuel chosenMidSpeed).
Proof.
  induction fuel as [| fuel IH]; cbn [sampleAround].
  - apply keeps_outOfFuel.
  - repeat planner_step ltac:(first [rng_lemmas | exact IH]).
Qed.

Lemma keeps_chooseMode (i : nat) (last : BestTrajectoryInfo) :
  keeps (searching r) (chooseMode (RNG := RNG) i last).
Proof. unfold chooseMode. repeat planner_step rng_lemmas. Qed.

Lemma keeps_searchRound (fuel : nat) (last : BestTrajectoryInfo) (i : nat) :
  keeps (searching r) (searchRound isInputValidFastEndSpeed (RNG := RNG) fuel last i).
Proof.
  unfold searchRound.
  apply keeps_bind; [apply keeps_chooseMode | intros mode].
  apply keeps_bind.
  - destruct mode;
      repeat planner_step ltac:(first
        [ rng_lemmas | apply keeps_randomSpeed | apply keeps_sampleAround ]).
  - intros [[speed angle] time].
    repeat planner_step ltac:(apply keeps_checkMidPoint).
Qed.

(** When the planner is done, [m_generationInfo] holds a result. *)
Lemma searching_done (st : state) :
  searching r st -> best_valid (m_bestResultInfo st) = true ->
  resultShape r (m_generationInfo st).
Proof.
  intros (_ & [Hempty | Hshape] & Hvalid) Hbest; [| exact Hshape].
  exfalso. exact (Hvalid Hbest Hempty).
Qed.

(** The last statement of the searches: without a valid result the planner
    escapes. *)
Lemma escape_unless_valid (st st' : state) (u : unit) :
  searching r st ->
  bind (gets (fun st => best_valid (m_bestResultInfo st)))
       (fun bestValid => if negb bestValid then escapeObstacles else ret tt) st
  = Some (u, st') ->
  request st' = r /\ resultShape r (m_generationInfo st').
Proof.
  intros HP Heq. unfold bind in Heq. cbn [gets] in Heq.
  destruct (best_valid (m_bestResultInfo st)) eqn:Hvalid; cbn [negb] in Heq.
  - inversion Heq; subst. split; [apply HP | apply searching_done; assumption].
  - destruct (escapeObstacles_entry st st' u HP Heq) as [(Hreq & _) Hgen].
    split; [exact Hreq |]. rewrite Hgen. right. right. eexists. repeat split.
Qed.

Lemma findPathEndInObstacle_result (st st' : state) (u : unit) :
  searching r st -> findPathEndInObstacle st = Some (u, st') ->
  request st' = r /\ resultShape r (m_generationInfo st').
Proof.
  intros HP Heq. unfold findPathEndInObstacle in Heq.
  advance HP Heq by (keeps_gets (searching r) (m_bestEndPointDistance (RNG := RNG)))
    as prevBestDistance st1.
  advance HP Heq by (keeps_modify (searching r) (set_bestEndPointDistance Infinity)
                       (fun st => searching_other st _ eq_refl eq_refl eq_refl))
    as u2 st2.
  advance HP Heq by (keeps_modify (searching r) _ searching_invalid) as u3 st3.
  advance HP Heq by (keeps_gets (searching r) (m_bestEndPoint (RNG := RNG)))
    as lastBest st4.
  advance HP Heq by (keeps_testEndPoint lastBest) as ok st5.
  apply bind_inv in Heq. destruct Heq as (u6 & st6 & Hstep & Heq).
  assert (HP5 : searching r st6).
  { destruct (negb ok).
    - inversion Hstep; subst. revert HP. apply searching_other; reflexivity.
    - inversion Hstep; subst. exact HP. }
  clear HP Hstep.
  advance HP5 Heq by (keeps_forEach (searching r) endPointRound (List.seq 0 200)
                        keeps_endPointRound) as u7 st7.
  exact (escape_unless_valid _ _ _ HP5 Heq).
Qed.

(** [searchPath] ends with a result in [m_generationInfo]. *)
Lemma searchPath_result (fuel : nat) (st st' : state) (u : unit) :
  request st = r -> m_generationInfo st = [] ->
  searchPath isInputValidFastEndSpeed fuel st = Some (u, st') ->
  request st' = r /\ resultShape r (m_generationInfo st').
Proof.
  intros Hreq Hempty Heq. unfold searchPath in Heq.
  unfold bind at 1 2 3 4 5 in Heq. cbn [gets modify] in Heq.
  cbn [m_bestResultInfo set_bestResultInfo best_valid set_best_valid] in Heq.
  cbn [ret] in Heq. unfold bind at 1 in Heq. cbn [gets] in Heq.
  set (st0 := set_bestResultInfo _ _) in Heq.
  assert (HP0 : searching r st0).
  { split; [exact Hreq |]. split; [left; exact Hempty |].
    cbn. intros Hfalse. discriminate Hfalse. }
  clearbody st0.
  destruct (isInStaticObstacle st0 (s0 (request st0))
            || isInMovingObstacle st0 (s0 (request st0)) 0).
  { destruct (escapeObstacles_entry st0 st' u HP0 Heq) as [(Hreq' & _) Hgen].
    split; [exact Hreq' |]. rewrite Hgen. right. right. eexists. repeat split. }
  destruct (isInStaticObstacle st0 (s1 (request st0))).
  - exact (findPathEndInObstacle_result _ _ _ HP0 Heq).
  - advance HP0 Heq by (keeps_forEach (searching r) _ (List.seq 0 100)
                          (keeps_searchRound fuel (m_bestResultInfo st))) as u1 st1.
    exact (escape_unless_valid _ _ _ HP0 Heq).
Qed.

End Planner.

Section Results.
Context `{ProfileOps} {RNG : Type} `{RNGOps RNG}.
Variable isInputValidFastEndSpeed : Vector -> Vector -> R -> R -> bool.

#[local] Abbreviation state := (t RNG).

(** [findPathAlphaT] ends with a result in [m_generationInfo] and leaves the
    request as it is. *)
Lemma findPathAlphaT_result (fuel : nat) (st st' : state) (u : unit) :
  findPathAlphaT isInputValidFastEndSpeed fuel st = Some (u, st') ->
  request st' = request st
  /\ resultShape (request st) (m_generationInfo st').
Proof.
  intros Heq. unfold findPathAlphaT in Heq.
  unfold bind at 1 2 3 in Heq. cbn [gets modify] in Heq.
  set (st0 := set_generationInfo [] (collectObstacles st)) in Heq.
  assert (Hreq0 : request st0 = request st) by reflexivity.
  destruct (directAccepted st0).
  - inversion Heq; subst. split; [reflexivity |]. left.
    eexists. split; [reflexivity |]. split; reflexivity.
  - apply (searchPath_result isInputValidFastEndSpeed (request st) fuel st0 st' u);
      [exact Hreq0 | | exact Heq].
    reflexivity.
Qed.

(** C10: [findPathAlphaT] sets [m_bestResultInfo.valid] to [false] right
    before the guard of the re-check of the last mid-point, so the re-check
    never runs: for every fuel and every state, random number generator
    included, [findPathAlphaT] gives the result and the final state of the
    same function without that statement. *)
Theorem findPathAlphaT_recheck_dead (fuel : nat) (st : state) :
  findPathAlphaT isInputValidFastEndSpeed fuel st
  = findPathAlphaT_noRecheck isInputValidFastEndSpeed fuel st.
Proof.
  unfold findPathAlphaT, findPathAlphaT_noRecheck, bind, modify, gets.
  destruct (directAccepted _); reflexivity.
Qed.

Lemma sampleTimes_length (totalTime : R) : List.length (sampleTimes totalTime) = 40%nat.
Proof. unfold sampleTimes. rewrite length_map, length_seq. reflexivity. Qed.

Lemma entryPoints_length (q : Request) (info : TrajectoryGenerationInfo)
    (startPos : Vector) (timeSum : R) :
  List.length (entryPoints q info startPos timeSum) = 40%nat.
Proof.
  unfold entryPoints. destruct (if negb _ then _ else _) as [xScale yScale].
  rewrite length_map. apply sampleTimes_length.
Qed.

Lemma getResultPath_from_length (q : Request) (infos : list TrajectoryGenerationInfo) :
  forall startPos timeSum result,
    List.length (getResultPath_from q infos startPos timeSum result)
    = (List.length result + 40 * List.length infos)%nat.
Proof.
  induction infos as [| info infos IH]; intros startPos timeSum result.
  - cbn. lia.
  - cbn [getResultPath_from]. rewrite IH, length_app, entryPoints_length.
    cbn [List.length]. lia.
Qed.

(** The loop over [chosenMidSpeed] tests [info.midSpeed], which it does not
    change: it never ends when that speed is above the maximum. *)
Lemma shrinkMidSpeed_never (fuel : nat) (infoMidSpeed : Vector) (maxSpeedSquared : R) :
  Vec.lengthSquared infoMidSpeed > maxSpeedSquared ->
  forall chosenMidSpeed,
    shrinkMidSpeed fuel infoMidSpeed chosenMidSpeed maxSpeedSquared = None.
Proof.
  intros Habove. induction fuel as [| fuel IH]; intros chosenMidSpeed.
  - reflexivity.
  - cbn [shrinkMidSpeed]. rewrite Rgtb_true by assumption. apply IH.
Qed.

(** ... and ends at once, with the speed unchanged, when it is not. *)
Lemma shrinkMidSpeed_within (fuel : nat) (infoMidSpeed chosenMidSpeed : Vector)
    (maxSpeedSquared : R) :
  Vec.lengthSquared infoMidSpeed <= maxSpeedSquared ->
  shrinkMidSpeed (S fuel) infoMidSpeed chosenMidSpeed maxSpeedSquared
  = Some chosenMidSpeed.
Proof. intros Hwithin. cbn [shrinkMidSpeed]. rewrite Rgtb_false by assumption. reflexivity. Qed.

(** C1, as the code has it: a request whose direct trajectory is rejected,
    with start and end outside of the obstacles, never returns when the
    mid-point speed kept from the last request is above the new maximum
    speed: the first round of the search samples around the last best
    trajectory, and the loop [while (info.midSpeed.lengthSquared() >
    MAX_SPEED_SQUARED) chosenMidSpeed *= 0.9f] does not end.  No amount of
    fuel gives a result. *)
Theorem calculateTrajectory_no_result (fuel : nat) (s0 v0 s1 v1 : Vector)
    (maxSpeed acceleration : R) (st : state) :
  let q := mkRequest v0 v1 (s1 -v s0) s0 s1 (Vec.eqb v1 (mkVector 0 0))
             maxSpeed (maxSpeed * maxSpeed) acceleration in
  let st0 := set_generationInfo [] (collectObstacles (set_request q st)) in
  directAccepted st0 = false ->
  isInStaticObstacle st0 s0 = false ->
  isInMovingObstacle st0 s0 0 = false ->
  isInStaticObstacle st0 s1 = false ->
  Vec.lengthSquared (midSpeed (m_bestResultInfo st)) > maxSpeed * maxSpeed ->
  calculateTrajectory isInputValidFastEndSpeed fuel s0 v0 s1 v1 maxSpeed acceleration st
  = None.
Proof.
  intros q st0 Hdirect Hstart Hmoving Hend Habove.
  unfold calculateTrajectory. unfold bind at 1. cbn [modify]. fold q.
  unfold bind at 1.
  assert (Hfind : findPathAlphaT isInputValidFastEndSpeed fuel (set_request q st) = None);
    [| rewrite Hfind; reflexivity].
  unfold findPathAlphaT. unfold bind at 1 2 3. cbn [modify gets]. fold st0.
  rewrite Hdirect.
  unfold searchPath. unfold bind at 1 2 3 4 5. cbn [gets modify].
  cbn [m_bestResultInfo set_bestResultInfo best_valid set_best_valid].
  cbn [ret]. unfold bind at 1. cbn [gets].
  set (st1 := set_bestResultInfo _ _).
  change (isInStaticObstacle st1 (TrajectoryPath.s0 (request st1)))
    with (isInStaticObstacle st0 s0).
  change (isInMovingObstacle st1 (TrajectoryPath.s0 (request st1)) 0)
    with (isInMovingObstacle st0 s0 0).
  change (isInStaticObstacle st1 (TrajectoryPath.s1 (request st1)))
    with (isInStaticObstacle st0 s1).
  rewrite Hstart, Hmoving, Hend. cbn [orb].
  change (List.seq 0 100) with (0%nat :: List.seq 1 99). cbn [forEach].
  unfold bind at 1 2.
  assert (Hround : searchRound isInputValidFastEndSpeed fuel
                     (m_bestResultInfo st0) 0 st1 = None);
    [| rewrite Hround; reflexivity].
  unfold searchRound. unfold bind at 1 2.
  unfold chooseMode. unfold bind at 1. cbn [gets].
  change (best_valid (m_bestResultInfo st1)) with false. cbn [negb Nat.ltb Nat.leb ret].
  unfold bind at 1 2. cbn [gets].
  change (MAX_SPEED_SQUARED (request st1)) with (maxSpeed * maxSpeed).
  change (m_bestResultInfo st0) with (m_bestResultInfo st).
  rewrite shrinkMidSpeed_never by assumption. reflexivity.
Qed.

Lemma calculateTrajectory_inv (fuel : nat) (s0 v0 s1 v1 : Vector)
    (maxSpeed acceleration : R) (st st' : state) (path : list Point) :
  let q := mkRequest v0 v1 (s1 -v s0) s0 s1 (Vec.eqb v1 (mkVector 0 0))
             maxSpeed (maxSpeed * maxSpeed) acceleration in
  calculateTrajectory isInputValidFastEndSpeed fuel s0 v0 s1 v1 maxSpeed acceleration st
  = Some (path, st') ->
  findPathAlphaT isInputValidFastEndSpeed fuel (set_request q st) = Some (tt, st')
  /\ path = getResultPath st'.
Proof.
  intros q Heq. unfold calculateTrajectory in Heq.
  apply bind_inv in Heq. destruct Heq as (u1 & st1 & Hset & Heq).
  inversion Hset; subst. clear Hset.
  apply bind_inv in Heq. destruct Heq as ([] & st2 & Hfind & Heq).
  inversion Heq; subst. split; [exact Hfind | reflexivity].
Qed.


(** X18: whenever the planner returns, it returns the forty points of one
    trajectory or the eighty points of two. *)
Lemma calculateTrajectory_points (fuel : nat) (s0 v0 s1 v1 : Vector)
    (maxSpeed acceleration : R) (st st' : state) (path : list Point) :
  calculateTrajectory isInputValidFastEndSpeed fuel s0 v0 s1 v1 maxSpeed acceleration st
  = Some (path, st') ->
  List.length path = 40%nat \/ List.length path = 80%nat.
Proof.
  intros Heq. destruct (calculateTrajectory_inv _ _ _ _ _ _ _ _ _ _ Heq) as [Hfind ->].
  apply findPathAlphaT_result in Hfind. destruct Hfind as [_ Hshape].
  unfold getResultPath. rewrite getResultPath_from_length.
  destruct Hshape as [(info & -> & _) | [Hmid | (info & -> & _)]].
  - left. reflexivity.
  - destruct Hmid as (first & second & -> & _). right. reflexivity.
  - left. reflexivity.
Qed.

(** From a start inside an obstacle or outside of the field, the planner
    returns, whatever the fuel: the forty points of the escape, which has
    no slowdown. *)
Lemma calculateTrajectory_escapes (fuel : nat) (s0 v0 s1 v1 : Vector)
    (maxSpeed acceleration : R) (st : state) :
  let q := mkRequest v0 v1 (s1 -v s0) s0 s1 (Vec.eqb v1 (mkVector 0 0))
             maxSpeed (maxSpeed * maxSpeed) acceleration in
  let st0 := set_generationInfo [] (collectObstacles (set_request q st)) in
  directAccepted st0 = false ->
  isInStaticObstacle st0 s0 || isInMovingObstacle st0 s0 0 = true ->
  exists st',
    calculateTrajectory isInputValidFastEndSpeed fuel s0 v0 s1 v1 maxSpeed acceleration st
    = Some (getResultPath st', st')
    /\ request st' = q
    /\ m_generationInfo st'
       = [mkInfo (m_bestEscapingTime st') (m_bestEscapingAngle st') 0 v0
                 (mkVector 0 0) (mkVector 0 0) false]
    /\ List.length (getResultPath st') = 40%nat.
Proof.
  intros q st0 Hdirect Hstart.
  set (st1 := set_bestResultInfo
                (set_best_valid false (set_best_time Infinity (m_bestResultInfo st0)))
                (set_bestResultInfo (set_best_time Infinity (m_bestResultInfo st0)) st0)).
  destruct (returns_escapeObstacles st1) as ([] & st' & Hescape).
  assert (HP : searching q st1).
  { split; [reflexivity |]. split; [left; reflexivity |]. cbn. discriminate. }
  destruct (escapeObstacles_entry q st1 st' tt HP Hescape) as [(Hreq & _) Hgen].
  exists st'. split; [| split; [exact Hreq | split; [exact Hgen |]]].
  - unfold calculateTrajectory. unfold bind at 1. cbn [modify]. fold q.
    unfold bind at 1.
    assert (Hfind : findPathAlphaT isInputValidFastEndSpeed fuel (set_request q st)
                    = Some (tt, st')); [| rewrite Hfind; reflexivity].
    unfold findPathAlphaT. unfold bind at 1 2 3. cbn [modify gets]. fold st0.
    rewrite Hdirect.
    unfold searchPath. unfold bind at 1 2 3 4 5. cbn [gets modify].
    cbn [m_bestResultInfo set_bestResultInfo best_valid set_best_valid].
    cbn [ret]. unfold bind at 1. cbn [gets].
    change (set_bestResultInfo _ _) with st1.
    change (isInStaticObstacle st1 (TrajectoryPath.s0 (request st1)))
      with (isInStaticObstacle st0 s0).
    change (isInMovingObstacle st1 (TrajectoryPath.s0 (request st1)) 0)
      with (isInMovingObstacle st0 s0 0).
    rewrite Hstart. exact Hescape.
  - unfold getResultPath. rewrite getResultPath_from_length, Hgen. reflexivity.
Qed.

End Results.

(** *** Runs with the stand-ins for the profiles and the random numbers *)

Section Runs.

Import PlannerExamples.
#[local] Existing Instance Resting.restingOps.
#[local] Existing Instance lowestRNG.

Lemma resting_search_invalid (rounds : nat) :
  forall (i : nat) (v0 v1 position : Vector) (acc vMax slowDownTime : R)
         (highPrecision : bool) (minimumTime : R) (useMin : bool) (minPos : Vector)
         (st : SearchState),
    0 < slowDownTime ->
    targetPrecision highPrecision <= Vec.distance position (mkVector 0 0) ->
    valid (searchExactEndSpeed rounds i v0 v1 position acc vMax slowDownTime
             highPrecision minimumTime useMin minPos st) = false.
Proof.
  induction rounds as [| rounds IH]; intros i v0 v1 position acc vMax slowDownTime
    highPrecision minimumTime useMin minPos st Hslow Hfar.
  - reflexivity.
  - cbn [searchExactEndSpeed]. rewrite Rgtb_true by assumption.
    cbn [calculateSlowDownPos Resting.restingOps].
    rewrite Rltb_false by assumption.
    apply IH; assumption.
Qed.

(** A stop request from rest over at least 0.1 m: the search for the direct
    trajectory does not converge on the resting profiles. *)
Lemma resting_direct_invalid (q : Request) :
  v0 q = mkVector 0 0 -> v1 q = mkVector 0 0 -> exponentialSlowDown q = true ->
  0 < ACCELERATION q -> 0.1 <= Vec.length (distance q) ->
  0.01 <= Vec.distance (distance q) (mkVector 0 0) ->
  valid (directTrajectory q) = false.
Proof.
  intros Hv0 Hv1 Hslow Hacc Hlength Hfar.
  unfold directTrajectory, directSlowDownTime. rewrite Hv0, Hv1, Hslow.
  rewrite (Rltb_false (Vec.length (distance q))) by assumption. cbn [andb].
  unfold findTrajectoryFastEndSpeed. cbn [vx vy].
  rewrite !Reqb_true by reflexivity. cbn [andb].
  unfold findTrajectoryExactEndSpeed. rewrite Vec_eqb_refl. cbv zeta.
  assert (Hzero : Vec.length (necessaryAcceleration (mkVector 0 0) (distance q)) = 0).
  { unfold necessaryAcceleration, Vec.length, Vec.lengthSquared. cbn [vx vy].
    transitivity (sqrt 0); [f_equal; unfold Rdiv; ring | apply sqrt_0]. }
  rewrite Hzero, Rgtb_false by lra. cbn [andb].
  unfold iterativeSearchExactEndSpeed.
  apply resting_search_invalid; [unfold TOTAL_SLOW_DOWN_TIME; lra |].
  exact Hfar.
Qed.

Lemma playfield_centre (x : R) :
  -4 <= x <= 4 ->
  Path.pointInPlayfield (m_boundary field) (mkVector x 0) (m_radius field) = true.
Proof.
  intros Hx. unfold Path.pointInPlayfield, field.
  cbn [m_boundary m_radius Path.bottom_left Path.top_right vx vy].
  rewrite !Rltb_false, !Rgtb_false by lra. reflexivity.
Qed.

(** The request of the run without result: from rest at the origin to a
    stop at [(2, 0)] with the maximum speed 1, after a mid-point speed of
    [(2, 0)]. *)
Lemma calculateTrajectory_no_result_witness :
  calculateTrajectory anyInput 1000 (mkVector 0 0) (mkVector 0 0) (mkVector 2 0)
    (mkVector 0 0) 1 3 afterFastRequest
  = None.
Proof.
  apply calculateTrajectory_no_result.
  - unfold directAccepted. rewrite resting_direct_invalid; [reflexivity | ..];
      cbn [request set_generationInfo collectObstacles set_obstacles set_request
           v0 v1 exponentialSlowDown ACCELERATION distance];
      try reflexivity.
    + apply Vec_eqb_refl.
    + lra.
    + replace (mkVector 2 0 -v mkVector 0 0) with (mkVector 2 0)
        by (unfold Vec.sub; cbn [vx vy]; f_equal; lra).
      rewrite GroundFilterProps.length_x, Rabs_right by lra. lra.
    + unfold Vec.distance.
      replace (mkVector 0 0 -v (mkVector 2 0 -v mkVector 0 0)) with (mkVector (-2) 0)
        by (unfold Vec.sub; cbn [vx vy]; f_equal; lra).
      rewrite GroundFilterProps.length_x, Rabs_left by lra. lra.
  - unfold isInStaticObstacle.
    cbn [world set_generationInfo collectObstacles set_obstacles set_request
         afterFastRequest m_obstacles].
    rewrite playfield_centre by lra. cbn [negb].
    cbn [field m_circleObstacles m_rectObstacles m_triangleObstacles m_lineObstacles
         app List.existsb m_radius Path.distance].
    unfold Vec.distance.
    replace (mkVector 0.65 0 -v mkVector 0 0) with (mkVector 0.65 0)
      by (unfold Vec.sub; cbn [vx vy]; f_equal; lra).
    rewrite GroundFilterProps.length_x, Rabs_right by lra.
    rewrite Rltb_false by lra. reflexivity.
  - reflexivity.
  - unfold isInStaticObstacle.
    cbn [world set_generationInfo collectObstacles set_obstacles set_request
         afterFastRequest m_obstacles].
    rewrite playfield_centre by lra. cbn [negb].
    cbn [field m_circleObstacles m_rectObstacles m_triangleObstacles m_lineObstacles
         app List.existsb m_radius Path.distance].
    unfold Vec.distance.
    replace (mkVector 0.65 0 -v mkVector 2 0) with (mkVector (-1.35) 0)
      by (unfold Vec.sub; cbn [vx vy]; f_equal; lra).
    rewrite GroundFilterProps.length_x, Rabs_left by lra.
    rewrite Rltb_false by lra. reflexivity.
  - unfold Vec.lengthSquared. cbn [afterFastRequest m_bestResultInfo midSpeed vx vy]. lra.
Defined.

(** A stop request from [(6, 0)], outside of the field, to the origin. *)
Lemma run_from_outside :
  exists st',
    calculateTrajectory anyInput 0 (mkVector 6 0) (mkVector 0 0) (mkVector 0 0)
      (mkVector 0 0) 3.5 3 fresh
    = Some (getResultPath st', st')
    /\ exponentialSlowDown (request st') = true
    /\ m_generationInfo st'
       = [mkInfo (m_bestEscapingTime st') (m_bestEscapingAngle st') 0 (mkVector 0 0)
                 (mkVector 0 0) (mkVector 0 0) false]
    /\ List.length (getResultPath st') = 40%nat.
Proof.
  destruct (calculateTrajectory_escapes anyInput 0 (mkVector 6 0) (mkVector 0 0)
              (mkVector 0 0) (mkVector 0 0) 3.5 3 fresh) as (st' & Hrun & Hreq & Hgen & Hlen).
  - unfold directAccepted. rewrite resting_direct_invalid; [reflexivity | ..];
      cbn [request set_generationInfo collectObstacles set_obstacles set_request
           v0 v1 exponentialSlowDown ACCELERATION distance];
      try reflexivity.
    + apply Vec_eqb_refl.
    + lra.
    + replace (mkVector 0 0 -v mkVector 6 0) with (mkVector (-6) 0)
        by (unfold Vec.sub; cbn [vx vy]; f_equal; lra).
      rewrite GroundFilterProps.length_x, Rabs_left by lra. lra.
    + unfold Vec.distance.
      replace (mkVector 0 0 -v (mkVector 0 0 -v mkVector 6 0)) with (mkVector 6 0)
        by (unfold Vec.sub; cbn [vx vy]; f_equal; lra).
      rewrite GroundFilterProps.length_x, Rabs_right by lra. lra.
  - unfold isInStaticObstacle, Path.pointInPlayfield.
    cbn [world set_generationInfo collectObstacles set_obstacles set_request fresh field
         m_boundary m_radius Path.bottom_left Path.top_right vx vy].
    rewrite (Rgtb_true (6 + 0.1)) by lra.
    rewrite orb_true_r. reflexivity.
  - exists st'. split; [exact Hrun |]. split; [| split; assumption].
    rewrite Hreq. cbn [exponentialSlowDown]. apply Vec_eqb_refl.
Qed.



End Runs.

End PlannerProps.

(** ** The tracker: what its steps keep *)

Module TrackerProps.

Import Tracker.

Section Invalidate.
Context {F : Type} `{Filter F}.
Variables (maxTime maxTimeLast now : Z).

Lemma invalidate_from_sublist (rest : list F) : forall kept,
  sublist (invalidate_from maxTime maxTimeLast now kept rest) (kept ++ rest).
Proof.
  induction rest as [| f rest IH]; intros kept; cbn [invalidate_from].
  - rewrite app_nil_r. reflexivity.
  - destruct (_ <? now)%Z.
    + etransitivity; [apply IH |]. apply sublist_app; [reflexivity |].
      apply sublist_cons. reflexivity.
    + specialize (IH (kept ++ [f])). rewrite <- app_assoc in IH. exact IH.
Qed.

Lemma invalidate_from_fresh (rest : list F) : forall kept f,
  (maxTime <= maxTimeLast)%Z ->
  f ∈ kept \/ (f ∈ rest /\ (now <= lastUpdate f + maxTime)%Z) ->
  f ∈ invalidate_from maxTime maxTimeLast now kept rest.
Proof.
  induction rest as [| g rest IH]; intros kept f Hle Hin; cbn [invalidate_from].
  - destruct Hin as [Hin | [Hin _]]; [exact Hin | inversion Hin].
  - set (limit := if (_ || _) then maxTime else maxTimeLast).
    assert (Hlimit : (maxTime <= limit)%Z) by (unfold limit; destruct (_ || _); lia).
    clearbody limit.
    destruct (lastUpdate g + limit <? now)%Z eqn:Hold.
    + apply Z.ltb_lt in Hold. apply IH; [exact Hle |].
      destruct Hin as [Hin | [Hin Hfresh]]; [left; exact Hin |].
      apply elem_of_cons in Hin. destruct Hin as [-> | Hin]; [lia |].
      right. split; assumption.
    + apply IH; [exact Hle |].
      destruct Hin as [Hin | [Hin Hfresh]].
      * left. apply elem_of_app. left. exact Hin.
      * apply elem_of_cons in Hin. destruct Hin as [-> | Hin].
        -- left. apply elem_of_app. right. apply list_elem_of_singleton. reflexivity.
        -- right. split; assumption.
Qed.

Lemma invalidate_from_stale (rest : list F) : forall kept f,
  (maxTime <= maxTimeLast)%Z ->
  f ∈ invalidate_from maxTime maxTimeLast now kept rest ->
  f ∈ kept \/ (now <= lastUpdate f + maxTimeLast)%Z.
Proof.
  induction rest as [| g rest IH]; intros kept f Hle Hin; cbn [invalidate_from] in Hin.
  - left. exact Hin.
  - set (limit := if (_ || _) then maxTime else maxTimeLast) in Hin.
    assert (Hlimit : (limit <= maxTimeLast)%Z) by (unfold limit; destruct (_ || _); lia).
    clearbody limit.
    destruct (lastUpdate g + limit <? now)%Z eqn:Hold.
    + apply IH in Hin; assumption.
    + apply Z.ltb_ge in Hold. apply IH in Hin; [| exact Hle].
      destruct Hin as [Hin | Hin]; [| right; exact Hin].
      apply elem_of_app in Hin. destruct Hin as [Hin | Hin]; [left; exact Hin |].
      apply list_elem_of_singleton in Hin. subst. right. lia.
Qed.

End Invalidate.

Section BestFilter.
Context {F : Type} `{Filter F}.

Lemma bestFilter_from_spec (minFrames : Z) (rest : list F) : forall passed,
  Forall (fun f => (frameCounter f < minFrames)%Z) passed ->
  match bestFilter_from minFrames passed rest with
  | (Some item, l) =>
      exists before after,
        passed ++ rest = before ++ item :: after
        /\ Forall (fun f => (frameCounter f < minFrames)%Z) before
        /\ (minFrames <= frameCounter item)%Z
        /\ l = item :: before ++ after
  | (None, l) =>
      l = passed ++ rest
      /\ Forall (fun f => (frameCounter f < minFrames)%Z) (passed ++ rest)
  end.
Proof.
  induction rest as [| item rest IH]; intros passed Hpassed; cbn [bestFilter_from].
  - rewrite app_nil_r. split; [reflexivity | exact Hpassed].
  - destruct (minFrames <=? frameCounter item)%Z eqn:Hitem.
    + apply Z.leb_le in Hitem. exists passed, rest. repeat split; assumption.
    + apply Z.leb_gt in Hitem.
      specialize (IH (passed ++ [item])). rewrite <- app_assoc in IH. cbn [app] in IH.
      apply IH. apply Forall_app. split; [exact Hpassed |].
      constructor; [exact Hitem | constructor].
Qed.

(** X1: [bestFilter] loses no filter and keeps the others in their order: it
    returns the first filter of the list that has the frames asked for and
    moves it to the front; when there is none, the list is as it was. *)
Theorem bestFilter_first_mature (filters : list F) (minFrames : Z) :
  match bestFilter filters minFrames with
  | (Some item, l) =>
      exists before after,
        filters = before ++ item :: after
        /\ Forall (fun f => (frameCounter f < minFrames)%Z) before
        /\ (minFrames <= frameCounter item)%Z
        /\ l = item :: before ++ after
        /\ l ≡ₚ filters
  | (None, l) =>
      l = filters /\ Forall (fun f => (frameCounter f < minFrames)%Z) filters
  end.
Proof.
  unfold bestFilter.
  pose proof (bestFilter_from_spec minFrames filters [] (List.Forall_nil _)) as Hspec.
  destruct (bestFilter_from minFrames [] filters) as [[item |] l]; cbn [app] in Hspec.
  - destruct Hspec as (before & after & Hsplit & Hbefore & Hitem & Hl).
    exists before, after. repeat split; try assumption.
    rewrite Hl, Hsplit. apply Permutation_middle.
  - exact Hspec.
Qed.

End BestFilter.

Section Tracking.
Context {RF BT : Type} `{RobotFilterOps RF} `{BallTrackerOps BT}.

#[local] Abbreviation Tracker := (t RF BT).

(** X2: [invalidateBall] and [invalidateRobots] only take filters out: what is
    left is in the order it was in.  A ball filter updated within the last
    0.1 s and a robot filter updated within the last 0.2 s always stay, and
    no filter stays that was not updated for more than 1 s. *)
Theorem invalidate_fresh_and_stale (now : Z) (balls : list (BallObj BT))
    (map : RobotMap RF) (id : N) :
  sublist (invalidateBall now balls) balls
  /\ (forall o, o ∈ balls -> (now <= lastUpdate o + 100000000)%Z ->
                o ∈ invalidateBall now balls)
  /\ (forall o, o ∈ invalidateBall now balls -> (now <= lastUpdate o + 1000000000)%Z)
  /\ sublist (default [] (invalidateRobots now map !! id)) (default [] (map !! id))
  /\ (forall f, f ∈ default [] (map !! id) -> (now <= lastUpdate f + 200000000)%Z ->
                f ∈ default [] (invalidateRobots now map !! id))
  /\ (forall f, f ∈ default [] (invalidateRobots now map !! id) ->
                (now <= lastUpdate f + 1000000000)%Z)
  /\ (map !! id = None -> invalidateRobots now map !! id = None).
Proof.
  assert (Hball : (ball_maxTime <= ball_maxTimeLast)%Z) by (unfold ball_maxTime, ball_maxTimeLast; lia).
  assert (Hrobot : (robot_maxTime <= robot_maxTimeLast)%Z)
    by (unfold robot_maxTime, robot_maxTimeLast; lia).
  unfold invalidateBall, invalidateRobots, invalidate.
  rewrite lookup_fmap.
  split; [apply (invalidate_from_sublist _ _ _ balls []) |].
  split.
  { intros o Hin Hfresh. apply invalidate_from_fresh; [exact Hball |].
    right. split; assumption. }
  split.
  { intros o Hin. apply invalidate_from_stale in Hin; [| exact Hball].
    destruct Hin as [Hin | Hin]; [inversion Hin | exact Hin]. }
  destruct (map !! id) as [l |]; cbn [fmap option_fmap option_map default].
  - split; [apply (invalidate_from_sublist _ _ _ l []) |].
    split.
    { intros f Hin Hfresh. apply invalidate_from_fresh; [exact Hrobot |].
      right. split; assumption. }
    split; [| discriminate].
    intros f Hin. apply invalidate_from_stale in Hin; [| exact Hrobot].
    destruct Hin as [Hin | Hin]; [inversion Hin | exact Hin].
  - split; [reflexivity |]. split; [intros f Hin; inversion Hin |].
    split; [intros f Hin; inversion Hin | reflexivity].
Qed.

Lemma set_ballFilter_same (tr : Tracker) :
  set_ballFilter (m_ballFilter tr) (m_nextAddr tr) tr = tr.
Proof. destruct tr. reflexivity. Qed.

Lemma offerBall_length (ball : SSL_DetectionBall) (time : Z) (cam : N)
    (info : RobotInfo) (filters : list (BallObj BT)) :
  forall withCam other,
    List.length (fst (fst (offerBall ball time cam info filters withCam other)))
    = List.length filters.
Proof.
  induction filters as [| o filters IH]; intros withCam other; cbn [offerBall].
  - reflexivity.
  - destruct (bt_acceptDetection _ _ _ _ _); [destruct (N.eqb _ _) |];
      match goal with
      | |- context [offerBall ball time cam info filters ?w ?x] =>
          specialize (IH w x); destruct (offerBall ball time cam info filters w x)
            as [[l w'] other']
      end;
      cbn [fst List.length] in *; rewrite IH; reflexivity.
Qed.

Lemma insert_sorted_length (key : BallObj BT -> R) (x : BallObj BT) (l : list (BallObj BT)) :
  List.length (insert_sorted key x l) = S (List.length l).
Proof.
  induction l as [| y l IH]; cbn [insert_sorted List.length]; [reflexivity |].
  destruct (Cmp.Rltb _ _); cbn [List.length]; [rewrite IH |]; reflexivity.
Qed.

Lemma sorted_length (key : BallObj BT -> R) (l : list (BallObj BT)) :
  List.length (List.fold_right (insert_sorted key) [] l) = List.length l.
Proof.
  induction l as [| x l IH]; cbn [List.fold_right List.length]; [reflexivity |].
  rewrite insert_sorted_length, IH. reflexivity.
Qed.

Lemma trackBall_frame (ball : SSL_DetectionBall) (time : Z) (cam : N)
    (bestRobots : list RF) (tr : Tracker) :
  exists l next, trackBall ball time cam bestRobots tr = set_ballFilter l next tr.
Proof.
  unfold trackBall.
  destruct (m_aoiEnabled tr && _);
    [exists (m_ballFilter tr), (m_nextAddr tr); symmetry; apply set_ballFilter_same |].
  destruct (negb (bool_decide _));
    [exists (m_ballFilter tr), (m_nextAddr tr); symmetry; apply set_ballFilter_same |].
  destruct (offerBall _ _ _ _ _ _ _) as [[filters withCam] other].
  destruct withCam; cbn [negb]; eexists _, _; reflexivity.
Qed.

Lemma trackBalls_frame (time : Z) (cam : N) (bestRobots : list RF)
    (balls : list SSL_DetectionBall) : forall tr : Tracker,
  exists l next,
    List.fold_left (fun tr b => trackBall b time cam bestRobots tr) balls tr
    = set_ballFilter l next tr.
Proof.
  induction balls as [| b balls IH]; intros tr; cbn [List.fold_left].
  - exists (m_ballFilter tr), (m_nextAddr tr). symmetry. apply set_ballFilter_same.
  - destruct (trackBall_frame b time cam bestRobots tr) as (l & next & ->).
    destruct (IH (set_ballFilter l next tr)) as (l' & next' & ->).
    exists l', next'. reflexivity.
Qed.

Lemma processPacket_clock (p : Packet) (tr : Tracker) :
  m_resetTime (processPacket p tr) = m_resetTime tr
  /\ m_visionPackets (processPacket p tr) = m_visionPackets tr
  /\ m_hasVisionData (processPacket p tr) = m_hasVisionData tr
  /\ (m_lastUpdateTime tr <= m_lastUpdateTime (processPacket p tr))%Z.
Proof.
  unfold processPacket. destruct (fst p) as [wrapper |]; [| repeat split; lia].
  set (tr1 := match wrapper_geometry wrapper with Some g => _ | None => tr end).
  assert (Hclock : m_resetTime tr1 = m_resetTime tr
                   /\ m_visionPackets tr1 = m_visionPackets tr
                   /\ m_hasVisionData tr1 = m_hasVisionData tr
                   /\ m_lastUpdateTime tr1 = m_lastUpdateTime tr
                   /\ m_systemDelay tr1 = m_systemDelay tr).
  { unfold tr1. destruct (wrapper_geometry wrapper); repeat split. }
  clearbody tr1. destruct Hclock as (Hreset & Hpackets & Hdata & Hlast & Hdelay).
  destruct (wrapper_detection wrapper) as [detection |];
    [| rewrite Hreset, Hpackets, Hdata, Hlast; repeat split; lia].
  destruct (_ <=? m_lastUpdateTime tr1)%Z eqn:Hold;
    [rewrite Hreset, Hpackets, Hdata, Hlast; repeat split; lia |].
  apply Z.leb_gt in Hold.
  unfold getBestRobots.
  cbn [m_resetTime m_robotFilterYellow m_robotFilterBlue set_robotFilters].
  destruct (bestOfMap _ _ _) as [yellow ymap].
  destruct (bestOfMap _ _ _) as [blue bmap].
  match goal with
  | |- context [List.fold_left ?f ?balls ?tr0] =>
      destruct (trackBalls_frame
                  (snd p - to_qint64 ((t_sent detection - t_capture detection) * 1000000000)
                   - m_systemDelay tr1)%Z
                  (camera_id detection) (yellow ++ blue) balls tr0) as (l & next & Hfold)
  end.
  rewrite Hfold. cbn. rewrite Hreset, Hpackets, Hdata. repeat split. lia.
Qed.

Lemma processPackets_clock (packets : list Packet) : forall tr : Tracker,
  let tr' := List.fold_left (fun tr p => processPacket p tr) packets tr in
  m_resetTime tr' = m_resetTime tr
  /\ m_visionPackets tr' = m_visionPackets tr
  /\ m_hasVisionData tr' = m_hasVisionData tr
  /\ (m_lastUpdateTime tr <= m_lastUpdateTime tr')%Z.
Proof.
  induction packets as [| p packets IH]; intros tr; cbn [List.fold_left].
  - repeat split. lia.
  - destruct (IH (processPacket p tr)) as (Hreset & Hpackets & Hdata & Hlast).
    destruct (processPacket_clock p tr) as (Hreset1 & Hpackets1 & Hdata1 & Hlast1).
    cbv zeta. rewrite Hreset, Hpackets, Hdata, Hreset1, Hpackets1, Hdata1.
    repeat split. lia.
Qed.

(** X3: [process] empties the queue of packets and never moves the time of the
    current state back; the first call after a reset notes its time as the
    reset time, later calls leave the reset time alone. *)
Theorem process_clears_queue (currentTime : Z) (tr : Tracker) :
  m_visionPackets (process currentTime tr) = []
  /\ (m_lastUpdateTime tr <= m_lastUpdateTime (process currentTime tr))%Z
  /\ m_resetTime (process currentTime tr)
     = (if (m_resetTime tr =? 0)%Z then currentTime else m_resetTime tr)
  /\ m_hasVisionData (process currentTime tr) = m_hasVisionData tr.
Proof.
  unfold process.
  set (tr0 := if (m_resetTime tr =? 0)%Z then _ else tr).
  assert (Htr0 : m_resetTime tr0 = (if (m_resetTime tr =? 0)%Z then currentTime
                                    else m_resetTime tr)
                 /\ m_hasVisionData tr0 = m_hasVisionData tr
                 /\ m_lastUpdateTime tr0 = m_lastUpdateTime tr).
  { unfold tr0. destruct (m_resetTime tr =? 0)%Z; repeat split. }
  clearbody tr0. destruct Htr0 as (Hreset & Hdata & Hlast).
  cbn [m_visionPackets set_times m_lastUpdateTime m_resetTime m_hasVisionData].
  match goal with
  | |- context [List.fold_left ?f ?packets ?tr1] =>
      destruct (processPackets_clock packets tr1) as (Hreset1 & _ & Hdata1 & Hlast1)
  end.
  cbn [m_resetTime m_hasVisionData m_lastUpdateTime set_geometry invalidateAll
       set_robotFilters set_ballFilter] in Hreset1, Hdata1, Hlast1.
  split; [reflexivity |]. split; [lia |].
  split; [rewrite Hreset1; exact Hreset | rewrite Hdata1; exact Hdata].
Qed.

(** X4: [trackBall] changes the list of ball filters (and the next address)
    and nothing else; it never takes a filter out and adds at most one.
    A detection that is not dropped (the area of interest is off or holds
    it, and the camera is calibrated) leaves at least one ball filter. *)
Theorem trackBall_only_adds (ball : SSL_DetectionBall) (time : Z) (cam : N)
    (bestRobots : list RF) (tr : Tracker) :
  let tr' := trackBall ball time cam bestRobots tr in
  tr' = set_ballFilter (m_ballFilter tr') (m_nextAddr tr') tr
  /\ (List.length (m_ballFilter tr) <= List.length (m_ballFilter tr')
      <= S (List.length (m_ballFilter tr)))%nat
  /\ ((m_aoiEnabled tr
        && negb (isInAOI (ball_x ball) (ball_y ball) (m_flip tr)
                   (m_aoi_x1 tr) (m_aoi_y1 tr) (m_aoi_x2 tr) (m_aoi_y2 tr))
        || negb (bool_decide (is_Some (cameraPosition (m_cameraInfo tr) !! cam))))
       = false ->
      m_ballFilter tr' <> []).
Proof.
  cbv zeta. unfold trackBall.
  destruct (m_aoiEnabled tr && _).
  { rewrite set_ballFilter_same. split; [reflexivity |]. split; [lia | discriminate]. }
  destruct (negb (bool_decide _)).
  { rewrite set_ballFilter_same. split; [reflexivity |]. split; [lia | discriminate]. }
  pose proof (offerBall_length ball time cam (nearestRobotInfo bestRobots ball)
                (m_ballFilter tr) false None) as Hlen.
  destruct (offerBall _ _ _ _ _ _ _) as [[filters withCam] other] eqn:Hoffer.
  cbn [fst] in Hlen.
  destruct withCam; cbn [negb].
  - unfold prioritizeBallFilters.
    cbn [m_ballFilter set_ballFilter m_nextAddr m_currentBallFilter].
    split; [reflexivity |]. rewrite sorted_length, Hlen. split; [lia |].
    intros _ Hnil. apply (f_equal (@List.length _)) in Hnil.
    rewrite sorted_length, Hlen in Hnil.
    destruct (m_ballFilter tr); [discriminate Hoffer | discriminate Hnil].
  - cbn [m_ballFilter set_ballFilter m_nextAddr].
    split; [reflexivity |]. rewrite length_app, Hlen. cbn [List.length].
    split; [lia |]. intros _ Hnil. apply (f_equal (@List.length _)) in Hnil.
    rewrite length_app in Hnil. cbn [List.length] in Hnil. lia.
Qed.

(** X5: a calibration that names the camera position is stored under its
    camera id, in metres and in field coordinates, and found there; the
    entries of the other cameras stay.  A calibration without one of the
    three coordinates changes nothing. *)
Theorem updateCamera_lookup (id : N) (focal : R) (tx ty tz : option R)
    (cam : CameraInfo) (other : N) :
  let cam' := updateCamera (mkCalib id focal tx ty tz) cam in
  match tx, ty, tz with
  | Some x, Some y, Some z =>
      cameraPosition cam' !! id = Some (mkVector3 (- y / 1000) (x / 1000) (z / 1000))
      /\ focalLength cam' !! id = Some focal
      /\ (other <> id ->
          cameraPosition cam' !! other = cameraPosition cam !! other
          /\ focalLength cam' !! other = focalLength cam !! other)
  | _, _, _ => cam' = cam
  end.
Proof.
  cbv zeta. unfold updateCamera.
  cbn [derived_camera_world_tx derived_camera_world_ty derived_camera_world_tz
       calib_camera_id focal_length].
  destruct tx as [x |], ty as [y |], tz as [z |]; try reflexivity.
  cbn [cameraPosition focalLength].
  rewrite !lookup_insert_eq. split; [reflexivity |]. split; [reflexivity |].
  intros Hother. rewrite !lookup_insert_ne by congruence. split; reflexivity.
Qed.

Lemma nearestRobotInfo_from_spec (ball : Vector) (robots : list RF) :
  forall (minDist : R) (rInfo : RobotInfo) (f0 : RF),
    rInfo = mkRobotInfo (rf_robotPos f0) (rf_dribblerPos f0)
                        (rf_kickIsChip f0) (rf_kickIsLinear f0) ->
    minDist = Vec.length (ball -v rf_dribblerPos f0) ->
    exists f,
      f ∈ f0 :: robots
      /\ nearestRobotInfo_from ball robots minDist true rInfo
         = mkRobotInfo (rf_robotPos f) (rf_dribblerPos f)
                       (rf_kickIsChip f) (rf_kickIsLinear f)
      /\ forall g, g ∈ f0 :: robots ->
           Vec.length (ball -v rf_dribblerPos f) <= Vec.length (ball -v rf_dribblerPos g).
Proof.
  induction robots as [| f1 robots IH]; intros minDist rInfo f0 Hinfo Hdist;
    cbn [nearestRobotInfo_from].
  - exists f0. split; [left |]. split; [exact Hinfo |].
    intros g Hg. apply list_elem_of_singleton in Hg. subst. lra.
  - cbn [negb]. rewrite orb_false_r.
    destruct (Cmp.Rltb _ minDist) eqn:Hcloser.
    + apply Rltb_spec in Hcloser.
      destruct (IH _ _ f1 eq_refl eq_refl) as (f & Hin & Hresult & Hmin).
      exists f. split; [right; exact Hin |]. split; [exact Hresult |].
      intros g Hg. apply elem_of_cons in Hg. destruct Hg as [-> | Hg].
      * specialize (Hmin f1 ltac:(left)). lra.
      * apply Hmin, Hg.
    + assert (Hfar : minDist <= Vec.length (ball -v rf_dribblerPos f1)).
      { unfold Cmp.Rltb in Hcloser. destruct (Rlt_dec _ _); [discriminate | lra]. }
      destruct (IH _ _ f0 Hinfo Hdist) as (f & Hin & Hresult & Hmin).
      exists f. split.
      { apply elem_of_cons in Hin. destruct Hin as [-> | Hin];
          [left | right; right; exact Hin]. }
      split; [exact Hresult |].
      intros g Hg. apply elem_of_cons in Hg. destruct Hg as [-> | Hg].
      * apply Hmin. left.
      * apply elem_of_cons in Hg. destruct Hg as [-> | Hg].
        -- specialize (Hmin f0 ltac:(left)). lra.
        -- apply Hmin. right. exact Hg.
Qed.

(** X6: [nearestRobotInfo] describes the robot whose dribbler is nearest to the
    ball, in field coordinates, however far it is; without robots it is
    the robot at the origin that does not kick. *)
Theorem nearestRobotInfo_nearest (robots : list RF) (b : SSL_DetectionBall) :
  let ball := coordinates.fromVision (mkVector (ball_x b) (ball_y b)) in
  match robots with
  | [] => nearestRobotInfo robots b = mkRobotInfo (mkVector 0 0) (mkVector 0 0) false false
  | _ :: _ =>
      exists f,
        f ∈ robots
        /\ nearestRobotInfo robots b
           = mkRobotInfo (rf_robotPos f) (rf_dribblerPos f)
                         (rf_kickIsChip f) (rf_kickIsLinear f)
        /\ forall g, g ∈ robots ->
             Vec.length (ball -v rf_dribblerPos f) <= Vec.length (ball -v rf_dribblerPos g)
  end.
Proof.
  cbv zeta. destruct robots as [| f0 robots]; [reflexivity |].
  unfold nearestRobotInfo. cbn [nearestRobotInfo_from negb]. rewrite orb_true_r.
  apply nearestRobotInfo_from_spec; reflexivity.
Qed.

End Tracking.

(** The tracker of the examples knows camera 0: the ball at the centre is
    not dropped. *)
Lemma trackBall_only_adds_witness :
  exists o l,
    m_ballFilter (trackBall Examples.centreBall 10 0 [] Examples.freshTracker) = o :: l.
Proof.
  pose proof (proj2 (proj2 (trackBall_only_adds Examples.centreBall 10 0 []
                              Examples.freshTracker)) eq_refl) as Hne.
  destruct (m_ballFilter (trackBall Examples.centreBall 10 0 [] Examples.freshTracker))
    as [| o l]; [contradiction Hne; reflexivity | exists o, l; reflexivity].
Defined.

End TrackerProps.

(** ** The geometry of the ball filter *)

Module GroundGeometry.

Import BallGroundCollisionFilter GroundExamples.

Lemma normalized_unit (v : Vector) :
  0 < Vec.lengthSquared v -> Vec.dot (normalized v) (normalized v) = 1.
Proof.
  intros Hpos. unfold normalized. rewrite Rgtb_true by assumption.
  unfold Vec.length. set (s := sqrt (Vec.lengthSquared v)).
  assert (Hs : s * s = Vec.lengthSquared v) by (apply sqrt_sqrt; lra).
  assert (Hs0 : s <> 0) by (intros Hz; rewrite Hz in Hs; lra).
  unfold Vec.dot, Vec.scale. cbn [vx vy].
  unfold Vec.lengthSquared in Hs.
  replace (vx v * / s * (vx v * / s) + vy v * / s * (vy v * / s))
    with ((vx v * vx v + vy v * vy v) * / (s * s)) by (field; exact Hs0).
  rewrite Hs. field. rewrite <- Hs. nra.
Qed.

(** X7: [unprojectRelativePosition] undoes [dribblingInfo]: the offset that is
    remembered for a ball position, relative to a robot that has its
    dribbler off its centre, gives that position back for the same robot. *)
Theorem unproject_dribblingInfo (projectedBallPos : Vector) (robot : RobotInfo) :
  0 < Vec.lengthSquared (dribblerPos robot -v robotPos robot) ->
  unprojectRelativePosition (ballOffset (dribblingInfo projectedBallPos robot)) robot
  = projectedBallPos
  /\ pushingBallPos (dribblingInfo projectedBallPos robot) = projectedBallPos
  /\ robotIdentifier (dribblingInfo projectedBallPos robot) = identifier robot.
Proof.
  intros Hoff. split; [| split; reflexivity].
  pose proof (normalized_unit _ Hoff) as Hunit.
  unfold unprojectRelativePosition, dribblingInfo. cbn [ballOffset vx vy].
  destruct (normalized (dribblerPos robot -v robotPos robot)) as [a b].
  destruct projectedBallPos as [px py]. destruct (robotPos robot) as [rx ry].
  unfold Vec.dot, Vec.add, Vec.sub, Vec.scale, perpendicular in *. cbn [vx vy] in *.
  f_equal.
  - transitivity (rx + (px - rx) * (a * a + b * b)); [ring | rewrite Hunit; ring].
  - transitivity (ry + (py - ry) * (a * a + b * b)); [ring | rewrite Hunit; ring].
Qed.

Lemma unproject_dribblingInfo_witness :
  unprojectRelativePosition
    (ballOffset (dribblingInfo (mkVector 0.02 0.01) (facingRobot 0.06))) (facingRobot 0.06)
  = mkVector 0.02 0.01.
Proof.
  apply (unproject_dribblingInfo (mkVector 0.02 0.01) (facingRobot 0.06)).
  unfold Vec.lengthSquared, Vec.sub, facingRobot. cbn [dribblerPos robotPos vx vy]. lra.
Defined.

(** X8: the two parameters [intersectLineLine] returns name the same point on
    both lines; it returns nothing exactly when the directions are within
    0.0001 of parallel (by the sine of their angle). *)
Theorem intersectLineLine_meets (pos1 dir1 pos2 dir2 : Vector) :
  0 < Vec.lengthSquared dir1 -> 0 < Vec.lengthSquared dir2 ->
  match intersectLineLine pos1 dir1 pos2 dir2 with
  | Some (t1, t2) =>
      pos1 +v dir1 *v t1 = pos2 +v dir2 *v t2
      /\ 0.0001 * (Vec.length dir1 * Vec.length dir2)
         <= Rabs (Vec.dot (perpendicular dir1) dir2)
  | None =>
      Rabs (Vec.dot (perpendicular dir1) dir2)
      < 0.0001 * (Vec.length dir1 * Vec.length dir2)
  end.
Proof.
  intros Hdir1 Hdir2.
  assert (Hlen1 : 0 < Vec.length dir1) by (apply sqrt_lt_R0; assumption).
  assert (Hlen2 : 0 < Vec.length dir2) by (apply sqrt_lt_R0; assumption).
  assert (Hlen : 0 < Vec.length dir1 * Vec.length dir2)
    by (apply Rmult_lt_0_compat; assumption).
  unfold intersectLineLine.
  destruct (Cmp.Rltb _ 0.0001) eqn:Hparallel.
  - apply Rltb_spec in Hparallel.
    apply (Rmult_lt_compat_r _ _ _ Hlen) in Hparallel.
    replace (Rabs (Vec.dot (perpendicular dir1) dir2)
             / (Vec.length dir1 * Vec.length dir2) * (Vec.length dir1 * Vec.length dir2))
      with (Rabs (Vec.dot (perpendicular dir1) dir2)) in Hparallel by (field; lra).
    exact Hparallel.
  - assert (Hcross : 0.0001 * (Vec.length dir1 * Vec.length dir2)
                     <= Rabs (Vec.dot (perpendicular dir1) dir2)).
    { unfold Cmp.Rltb in Hparallel. destruct (Rlt_dec _ _) as [| Hge]; [discriminate |].
      apply Rnot_lt_le in Hge.
      apply (Rmult_le_compat_r _ _ _ (Rlt_le _ _ Hlen)) in Hge.
      replace (Rabs (Vec.dot (perpendicular dir1) dir2)
               / (Vec.length dir1 * Vec.length dir2) * (Vec.length dir1 * Vec.length dir2))
        with (Rabs (Vec.dot (perpendicular dir1) dir2)) in Hge by (field; lra).
      exact Hge. }
    split; [| exact Hcross].
    assert (Hne : Vec.dot (perpendicular dir1) dir2 <> 0).
    { intros Hzero. rewrite Hzero, Rabs_R0 in Hcross. nra. }
    destruct pos1 as [p1x p1y], dir1 as [d1x d1y], pos2 as [p2x p2y], dir2 as [d2x d2y].
    unfold Vec.dot, Vec.add, Vec.sub, Vec.scale, perpendicular in *. cbn [vx vy] in *.
    f_equal; field; nra.
Qed.

Lemma intersectLineLine_meets_witness :
  match intersectLineLine (mkVector 0.06 0) (mkVector 0 (-1)) (mkVector 0.02 0)
          (mkVector 1 0) with
  | Some (t1, t2) =>
      mkVector 0.06 0 +v mkVector 0 (-1) *v t1 = mkVector 0.02 0 +v mkVector 1 0 *v t2
  | None => True
  end.
Proof.
  pose proof (intersectLineLine_meets (mkVector 0.06 0) (mkVector 0 (-1))
                (mkVector 0.02 0) (mkVector 1 0)) as Hmeets.
  destruct (intersectLineLine _ _ _ _) as [[t1 t2] |]; [| exact I].
  apply Hmeets; unfold Vec.lengthSquared; cbn [vx vy]; lra.
Defined.

(** X9: every point [intersectLineCircle] returns lies on the line, at the
    parameter returned with it along the direction of length one, and on
    the circle: exactly when two points are returned, and within 0.0000025
    of the squared radius for the single point of a line that touches.
    Nothing is returned exactly when the line passes the centre at more
    than the radius. *)
Theorem intersectLineCircle_on_circle (offset dir center : Vector) (radius : R) :
  0 < Vec.lengthSquared dir ->
  let u := normalized dir in
  let w := offset -v center in
  let gap := Vec.dot w w - Vec.dot u w * Vec.dot u w - radius * radius in
  match intersectLineCircle offset dir center radius with
  | [] => 0 < gap
  | [(point, lambda)] =>
      point = offset +v u *v lambda
      /\ Vec.distanceSq center point = radius * radius + gap
      /\ - 0.0000025 < gap <= 0
  | [(point1, lambda1); (point2, lambda2)] =>
      point1 = offset +v u *v lambda1 /\ point2 = offset +v u *v lambda2
      /\ Vec.distanceSq center point1 = radius * radius
      /\ Vec.distanceSq center point2 = radius * radius
      /\ lambda2 <= lambda1 /\ gap <= - 0.0000025
  | _ => False
  end.
Proof.
  intros Hdir. cbv zeta. unfold intersectLineCircle.
  pose proof (normalized_unit dir Hdir) as Hunit.
  set (u := normalized dir) in *. set (w := offset -v center).
  rewrite Hunit.
  set (b := 2 * Vec.dot u w). set (c := Vec.dot w w - radius * radius).
  assert (Hgap : Vec.dot w w - Vec.dot u w * Vec.dot u w - radius * radius
                 = - (b * b - 4 * 1 * c) / 4) by (unfold b, c; field).
  rewrite Hgap.
  assert (Hpoint : forall lambda,
            Vec.distanceSq center (offset +v u *v lambda)
            = radius * radius + (lambda * lambda + b * lambda + c)).
  { intros lambda. unfold Vec.distanceSq, Vec.lengthSquared, b, c, w.
    destruct offset as [ox oy], center as [cx cy], u as [ux uy].
    unfold Vec.dot, Vec.add, Vec.sub, Vec.scale in *. cbn [vx vy] in *. nra. }
  destruct (Cmp.Rltb (b * b - 4 * 1 * c) 0) eqn:Hnone.
  { apply Rltb_spec in Hnone. lra. }
  assert (Hdet : 0 <= b * b - 4 * 1 * c).
  { unfold Cmp.Rltb in Hnone. destruct (Rlt_dec _ _); [discriminate | lra]. }
  destruct (Cmp.Rltb (b * b - 4 * 1 * c) 0.00001) eqn:Htouch.
  - apply Rltb_spec in Htouch. split; [reflexivity |].
    split; [| lra]. rewrite Hpoint. f_equal. field.
  - assert (Htwo : 0.00001 <= b * b - 4 * 1 * c).
    { unfold Cmp.Rltb in Htouch. destruct (Rlt_dec _ _); [discriminate | lra]. }
    pose proof (sqrt_sqrt _ Hdet) as Hsq.
    pose proof (sqrt_pos (b * b - 4 * 1 * c)) as Hs0.
    set (s := sqrt (b * b - 4 * 1 * c)) in *.
    split; [reflexivity |]. split; [reflexivity |].
    split; [rewrite Hpoint; nra |]. split; [rewrite Hpoint; nra |].
    split; lra.
Qed.

Lemma intersectLineCircle_on_circle_witness :
  match intersectLineCircle (mkVector 0.02 0) (mkVector 3 0) (mkVector 0 0) ROBOT_RADIUS with
  | [(point1, _); (point2, _)] =>
      Vec.distanceSq (mkVector 0 0) point1 = ROBOT_RADIUS * ROBOT_RADIUS
      /\ Vec.distanceSq (mkVector 0 0) point2 = ROBOT_RADIUS * ROBOT_RADIUS
  | _ => True
  end.
Proof.
  pose proof (intersectLineCircle_on_circle (mkVector 0.02 0) (mkVector 3 0)
                (mkVector 0 0) ROBOT_RADIUS) as Hon.
  destruct (intersectLineCircle _ _ _ _) as [| [point1 lambda1] [| [point2 lambda2] [| ? ?]]];
    try exact I.
  assert (Hdir : 0 < Vec.lengthSquared (mkVector 3 0))
    by (unfold Vec.lengthSquared; cbn [vx vy]; lra).
  destruct (Hon Hdir) as (_ & _ & H1 & H2 & _). split; assumption.
Defined.

Section Offsets.
Context {GF : Type} `{GroundFilterOps GF}.

(** X10: a filter that remembers no ball offset never comes to remember one:
    neither a vision frame nor [writeBallState] sets it, so that after
    every [writeBallState] the ball does not count as feasibly
    invisible. *)
Theorem no_offset_never_invisible (f : t GF) (frame : VisionFrame) (ball : Ball)
    (time : Z) (robots : list RobotInfo) :
  m_localBallOffset f = None ->
  m_localBallOffset (processVisionFrame frame f) = None
  /\ m_localBallOffset (fst (writeBallState f ball time robots)) = None
  /\ m_feasiblyInvisible (fst (writeBallState f ball time robots)) = false.
Proof.
  intros Hnone. split.
  - unfold processVisionFrame. cbn [m_resetFilters].
    destruct (m_resetFilters f); exact Hnone.
  - unfold writeBallState, computeBallState.
    destruct (gf_writeBallState (m_groundFilter f) ball time robots) as [ground written].
    destruct (gf_writeBallState (m_pastFilter f) _ _ robots) as [past pastState].
    cbn [fst m_localBallOffset set_reported set_filters m_feasiblyInvisible].
    split; [exact Hnone |].
    unfold checkFeasibleInvisibility. cbn [m_localBallOffset set_reported set_filters].
    rewrite Hnone. reflexivity.
Qed.

End Offsets.

Lemma no_offset_never_invisible_witness :
  m_feasiblyInvisible
    (fst (writeBallState collisionFilter (mkBall 0 0 0 0) 1%Z [facingRobot 0.06]))
  = false.
Proof.
  apply (no_offset_never_invisible collisionFilter (mkVisionFrame 0 0 0%Z) (mkBall 0 0 0 0)
           1%Z [facingRobot 0.06]).
  reflexivity.
Defined.

End GroundGeometry.

(** ** The planner: obstacles, candidates and the paths that always return *)

Module PlannerExtras.

Import AlphaTimeTrajectory TrajectoryPath PlannerSpec PlannerProps.
#[local] Open Scope planner_scope.

(** X11: the two queries of a moving circle agree at every time, provided that
    its radius is not negative: it intersects a position exactly when its
    distance from it is negative; outside of its time window it intersects
    nothing and is at the distance [FLT_MAX]. *)
Theorem MovingCircle_intersects_iff_negative (o : MovingCircle.t) (p : Vector) (time : R) :
  0 <= MovingCircle.radius o ->
  (MovingCircle.intersects o p time = true <-> MovingCircle.distance o p time < 0)
  /\ (time < MovingCircle.startTime o \/ MovingCircle.endTime o < time ->
      MovingCircle.intersects o p time = false
      /\ MovingCircle.distance o p time = FLT_MAX).
Proof.
  intros Hradius. split.
  - destruct (Rlt_dec time (MovingCircle.startTime o)) as [Hbefore | Hafter].
    + destruct (MovingCircle_outside_window o p time (or_introl Hbefore)) as [-> ->].
      pose proof FLT_MAX_pos. split; [discriminate | lra].
    + destruct (Rlt_dec (MovingCircle.endTime o) time) as [Hlate | Hin].
      * destruct (MovingCircle_outside_window o p time (or_intror Hlate)) as [-> ->].
        pose proof FLT_MAX_pos. split; [discriminate | lra].
      * symmetry. apply MovingCircle_queries_agree; [lra | exact Hradius].
  - intros Hout. destruct (MovingCircle_outside_window o p time Hout) as [-> ->].
    split; reflexivity.
Qed.

Lemma MovingCircle_intersects_iff_negative_witness :
  MovingCircle.intersects
    (MovingCircle.mk (mkVector 0 0) (mkVector 1 0) (mkVector 0 0) 0 2 0.5 1)
    (mkVector 1 0) 3 = false.
Proof.
  apply (MovingCircle_intersects_iff_negative
           (MovingCircle.mk (mkVector 0 0) (mkVector 1 0) (mkVector 0 0) 0 2 0.5 1)
           (mkVector 1 0) 3); cbn [MovingCircle.radius MovingCircle.endTime]; [lra |].
  right. lra.
Defined.

Section Obstacles.
Context `{ProfileOps} {RNG : Type}.

#[local] Abbreviation state := (t RNG).

Lemma scanDistances_inl (ds : list R) : forall m d,
  scanDistances ds m = inl d -> d <= 0.
Proof.
  induction ds as [| x ds IH]; intros m d Hscan; cbn [scanDistances] in Hscan.
  - discriminate Hscan.
  - destruct (Cmp.Rleb x 0) eqn:Hx.
    + injection Hscan as <-. apply Rleb_spec. exact Hx.
    + apply IH in Hscan. exact Hscan.
Qed.

Lemma scanDistances_inr (ds : list R) : forall m m',
  scanDistances ds m = inr m' -> Forall (fun d => 0 < d) ds /\ m' <= m.
Proof.
  induction ds as [| x ds IH]; intros m m' Hscan; cbn [scanDistances] in Hscan.
  - injection Hscan as <-. split; [constructor | lra].
  - destruct (Cmp.Rleb x 0) eqn:Hx; [discriminate Hscan |].
    apply IH in Hscan. destruct Hscan as [Hall Hle].
    assert (Hpos : 0 < x).
    { unfold Cmp.Rleb in Hx. destruct (Rle_dec x 0); [discriminate | lra]. }
    split; [constructor; assumption |].
    pose proof (Rmin_l m x). lra.
Qed.

Lemma minObstacleDistance_from_positive (st : state) (profile : SpeedProfile)
    (timeOffset slowDownTime : R) (startPos : Vector) (times : list R) :
  forall m,
    0 < minObstacleDistance_from st profile timeOffset slowDownTime startPos times m ->
    Forall (fun time =>
              let pos := profilePosition profile slowDownTime time +v startPos in
              Path.pointInPlayfield (m_boundary (world st)) pos (m_radius (world st)) = true
              /\ Forall (fun d => 0 < d) (obstacleDistances st pos (time + timeOffset)))
           times.
Proof.
  induction times as [| time times IH]; intros m Hpos;
    cbn [minObstacleDistance_from] in Hpos.
  - constructor.
  - destruct (Path.pointInPlayfield _ _ _) eqn:Hfield; cbn [negb] in Hpos; [| lra].
    destruct (scanDistances _ m) as [d | m'] eqn:Hscan.
    + apply scanDistances_inl in Hscan. lra.
    + apply scanDistances_inr in Hscan. destruct Hscan as [Hall _].
      constructor; [split; assumption | apply (IH m'), Hpos].
Qed.

(** X12: a trajectory whose least distance from the obstacles is positive is in
    no obstacle at any of its samples, as long as no moving line is set and
    no moving circle has a negative radius: the two scans of the forty
    samples agree. *)
Theorem positive_distance_not_in_obstacle (st : state) (profile : SpeedProfile)
    (timeOffset slowDownTime : R) (startPos : Vector) :
  m_movingLines (world st) = [] ->
  Forall (fun o => 0 <= MovingCircle.radius o) (m_movingCircles (world st)) ->
  0 < minObstacleDistance st profile timeOffset slowDownTime startPos ->
  isTrajectoryInObstacle st profile timeOffset slowDownTime startPos = false.
Proof.
  intros Hlines Hcircles Hpos. unfold minObstacleDistance in Hpos.
  apply minObstacleDistance_from_positive in Hpos.
  unfold isTrajectoryInObstacle.
  induction Hpos as [| time times [Hfield Hdist] _ IH]; [reflexivity |].
  cbn [List.existsb]. rewrite IH, orb_false_r. clear IH.
  unfold obstacleDistances in Hdist. rewrite Hlines in Hdist. cbn [List.map] in Hdist.
  rewrite app_nil_r in Hdist. apply Forall_app in Hdist. destruct Hdist as [Hstatic Hmoving].
  unfold isInStaticObstacle, isInMovingObstacle. rewrite Hfield, Hlines. cbn [negb List.existsb].
  rewrite orb_false_r. apply orb_false_intro.
  - clear Hmoving. induction (m_obstacles st) as [| o obstacles IH]; [reflexivity |].
    cbn [List.map List.existsb] in *. apply Forall_cons in Hstatic.
    destruct Hstatic as [Ho Hrest]. rewrite (IH Hrest), orb_false_r.
    apply Rltb_false. lra.
  - clear Hstatic. induction Hcircles as [| o circles Hradius _ IH]; [reflexivity |].
    cbn [List.map List.existsb] in *. apply Forall_cons in Hmoving.
    destruct Hmoving as [Ho Hrest]. rewrite (IH Hrest), orb_false_r.
    destruct (MovingCircle.intersects o _ _) eqn:Hhit; [| reflexivity].
    destruct (Rlt_dec (time + timeOffset) (MovingCircle.startTime o)) as [Hbefore | Hafter];
      [rewrite (proj2 (MovingCircle_outside_window o _ _ (or_introl Hbefore))) in Hhit;
       discriminate Hhit |].
    destruct (Rlt_dec (MovingCircle.endTime o) (time + timeOffset)) as [Hlate | Hin];
      [rewrite (proj2 (MovingCircle_outside_window o _ _ (or_intror Hlate))) in Hhit;
       discriminate Hhit |].
    apply MovingCircle_queries_agree in Hhit; [lra | lra | exact Hradius].
Qed.

End Obstacles.

(** The next test of a computation that returns at once when it fails. *)
Ltac branch H :=
  match goal with
  | |- match (if ?c then _ else _) with _ => _ end => destruct c eqn:H; [reflexivity |]
  end.

Section Candidates.
Context `{ProfileOps} {RNG : Type} `{RNGOps RNG}.
Variable isInputValidFastEndSpeed : Vector -> Vector -> R -> R -> bool.

#[local] Abbreviation state := (t RNG).

(** X13: [checkMidPoint] always returns.  A mid-point it rejects leaves the
    planner as it was.  A mid-point it accepts becomes the best result: its
    biased time is not above the best time so far, it is marked valid, and
    the result is the two parts of its trajectory: the first part from the
    start speed to the mid-point speed, to the distance that the second part
    leaves, with the slowdown that the second part leaves, and found valid
    by [findTrajectoryExactEndSpeed]; the second part from the mid-point
    speed to the end speed, with the given time and angle and the slowdown
    of the request.  The request, the obstacles and the random number
    generator stay as they were. *)
Theorem checkMidPoint_accepts_improvement (speed : Vector) (time angle : R) (st : state) :
  match checkMidPoint isInputValidFastEndSpeed speed time angle st with
  | Some (true, st') =>
      let r := request st in
      let secondPart :=
        calculateTrajectoryFastEndSpeed speed (v1 r) time angle
          (ACCELERATION r) (MAX_SPEED r) (-1) in
      let slowDown := if exponentialSlowDown r then TOTAL_SLOW_DOWN_TIME else 0 in
      let secondPartTime :=
        if exponentialSlowDown r
        then timeWithSlowDown secondPart TOTAL_SLOW_DOWN_TIME
        else AlphaTimeTrajectory.time secondPart in
      let secondPartOffset :=
        if exponentialSlowDown r
        then positionForTimeSlowDown secondPart secondPartTime TOTAL_SLOW_DOWN_TIME
        else positionForTime secondPart secondPartTime in
      let firstPartPosition := distance r -v secondPartOffset in
      let firstPartSlowDownTime :=
        if exponentialSlowDown r then Rmax 0 (TOTAL_SLOW_DOWN_TIME - secondPartTime)
        else 0 in
      let firstPart :=
        findTrajectoryExactEndSpeed (v0 r) speed firstPartPosition
          (ACCELERATION r) (MAX_SPEED r) firstPartSlowDownTime false in
      let firstPartTime :=
        if exponentialSlowDown r && Cmp.Rgtb firstPartSlowDownTime 0
        then timeWithSlowDown firstPart firstPartSlowDownTime
        else AlphaTimeTrajectory.time firstPart in
      isInputValidFastEndSpeed speed (v1 r) time (ACCELERATION r) = true
      /\ valid firstPart = true
      /\ 0 < minObstacleDistance st firstPart 0 firstPartSlowDownTime (s0 r)
      /\ 0 < minObstacleDistance st secondPart firstPartTime slowDown
               (s1 r -v secondPartOffset)
      /\ m_generationInfo st'
         = [mkInfo (inputTime firstPart) (inputAngle firstPart) firstPartSlowDownTime
                   (v0 r) speed firstPartPosition false;
            mkInfo time angle slowDown speed (v1 r) (mkVector 0 0) true]
      /\ best_valid (m_bestResultInfo st') = true
      /\ midSpeed (m_bestResultInfo st') = speed
      /\ centerTime (m_bestResultInfo st') = time
      /\ best_angle (m_bestResultInfo st') = angle
      /\ (exists bonus,
            (bonus = 1 \/ bonus = OBSTACLE_AVOIDANCE_BONUS)
            /\ best_time (m_bestResultInfo st')
               = Finite ((firstPartTime + secondPartTime) * bonus))
      /\ XFloat.gtb (best_time (m_bestResultInfo st')) (best_time (m_bestResultInfo st))
         = false
      /\ st' = set_generationInfo (m_generationInfo st')
                (set_bestResultInfo (m_bestResultInfo st') st)
  | Some (false, st') => st' = st
  | None => False
  end.
Proof.
  unfold checkMidPoint.
  branch Hinput. apply negb_false_iff in Hinput.
  branch Hsecond. branch Hvalid. apply negb_false_iff in Hvalid.
  branch Hfirst. branch Hfree. branch Hbiased.
  assert (Hpos : forall x, Cmp.Rleb x 0 = false -> 0 < x).
  { intros x Hx. unfold Cmp.Rleb in Hx. destruct (Rle_dec x 0); [discriminate | lra]. }
  cbv zeta.
  split; [exact Hinput |]. split; [exact Hvalid |].
  split; [apply Hpos, Hfirst |]. split; [apply Hpos, Hfree |].
  split; [reflexivity |].
  cbn [m_bestResultInfo set_generationInfo set_bestResultInfo best_valid midSpeed
       centerTime best_angle best_time].
  repeat (split; [reflexivity |]).
  split.
  - match goal with
    | |- context [Cmp.Rltb ?x OBSTACLE_AVOIDANCE_RADIUS] =>
        destruct (Cmp.Rltb x OBSTACLE_AVOIDANCE_RADIUS)
    end.
    + exists OBSTACLE_AVOIDANCE_BONUS. split; [right; reflexivity | reflexivity].
    + exists 1. split; [left; reflexivity | reflexivity].
  - split; [exact Hbiased | reflexivity].
Qed.

(** X14: [testEndPoint] always returns.  An end point it rejects leaves the
    planner as it was.  It accepts an end point only if that is at least
    0.05 closer to the target than the best one so far; the point and its
    distance are then remembered, the result is marked valid and is one
    trajectory to a stop at that point, without slowdown. *)
Theorem testEndPoint_accepts_closer (endPoint : Vector) (st : state) :
  match testEndPoint endPoint st with
  | Some (true, st') =>
      m_bestEndPoint st' = endPoint
      /\ m_bestEndPointDistance st'
         = Finite (Vec.distance endPoint (distance (request st)))
      /\ XFloat.gtb (m_bestEndPointDistance st')
                     (XFloat.add (m_bestEndPointDistance st) (- 0.05)) = false
      /\ best_valid (m_bestResultInfo st') = true
      /\ (exists info, m_generationInfo st' = [info] /\ slowDownTime info = 0
                        /\ info_v1 info = mkVector 0 0
                        /\ desiredDistance info = endPoint
                        /\ fastEndSpeed info = false)
      /\ m_rng st' = m_rng st /\ request st' = request st
  | Some (false, st') => st' = st
  | None => False
  end.
Proof.
  unfold testEndPoint.
  repeat match goal with
         | |- match (if ?c then _ else _) with _ => _ end =>
             destruct c eqn:?; [reflexivity |]
         end.
  repeat split; try assumption.
  eexists. repeat split.
Qed.

Lemma randomSpeed_within (fuel : nat) : forall (st st' : state) (speed : Vector),
  randomSpeed fuel st = Some (speed, st') ->
  Vec.lengthSquared speed <= MAX_SPEED_SQUARED (request st)
  /\ st' = set_rng (m_rng st') st.
Proof.
  induction fuel as [| fuel IH]; intros st st' speed Hrun; cbn [randomSpeed] in Hrun.
  - discriminate Hrun.
  - unfold bind in Hrun. cbn [gets] in Hrun. unfold rngFloat in Hrun.
    destruct (uniformFloat _ _ (m_rng st)) as [x rng1].
    cbn [m_rng set_rng] in Hrun.
    destruct (uniformFloat _ _ rng1) as [y rng2].
    destruct (Cmp.Rgtb _ _) eqn:Habove.
    + apply IH in Hrun. exact Hrun.
    + injection Hrun as <- <-. split; [| reflexivity].
      unfold Cmp.Rgtb, Cmp.Rltb in Habove. destruct (Rlt_dec _ _); [discriminate | lra].
Qed.

Lemma sampleAround_within (fuel : nat) (chosenMidSpeed : Vector) :
  forall (st st' : state) (speed : Vector),
    sampleAround fuel chosenMidSpeed st = Some (speed, st') ->
    Vec.lengthSquared speed < MAX_SPEED_SQUARED (request st)
    /\ st' = set_rng (m_rng st') st.
Proof.
  induction fuel as [| fuel IH]; intros st st' speed Hrun; cbn [sampleAround] in Hrun.
  - discriminate Hrun.
  - unfold bind in Hrun. unfold rngFloat in Hrun.
    destruct (uniformFloat _ _ (m_rng st)) as [x rng1].
    cbn [m_rng set_rng] in Hrun.
    destruct (uniformFloat _ _ rng1) as [y rng2]. cbn [gets] in Hrun.
    destruct (Cmp.Rgeb _ _) eqn:Habove.
    + apply IH in Hrun. exact Hrun.
    + injection Hrun as <- <-. split; [| reflexivity].
      unfold Cmp.Rgeb, Cmp.Rleb in Habove. cbn [request set_rng] in Habove.
      destruct (Rle_dec _ _); [discriminate | lra].
Qed.

(** X15: the speeds the search samples stay within the speed limit of the
    request: a random speed has a squared length of at most
    [MAX_SPEED_SQUARED], a speed sampled around a mid-point one below it;
    both loops change the random number generator and nothing else. *)
Theorem sampled_speed_within_limit (fuel : nat) (chosenMidSpeed : Vector) (st : state) :
  match randomSpeed fuel st with
  | Some (speed, st') =>
      Vec.lengthSquared speed <= MAX_SPEED_SQUARED (request st)
      /\ st' = set_rng (m_rng st') st
  | None => True
  end
  /\ match sampleAround fuel chosenMidSpeed st with
     | Some (speed, st') =>
         Vec.lengthSquared speed < MAX_SPEED_SQUARED (request st)
         /\ st' = set_rng (m_rng st') st
     | None => True
     end.
Proof.
  split.
  - destruct (randomSpeed fuel st) as [[speed st'] |] eqn:Hrun; [| exact I].
    apply (randomSpeed_within fuel st st' speed Hrun).
  - destruct (sampleAround fuel chosenMidSpeed st) as [[speed st'] |] eqn:Hrun; [| exact I].
    apply (sampleAround_within fuel chosenMidSpeed st st' speed Hrun).
Qed.

Lemma resultShape_points (q q' : Request) (infos : list TrajectoryGenerationInfo)
    (startPos : Vector) :
  resultShape q infos ->
  List.length (getResultPath_from q' infos startPos 0 []) = 40%nat
  \/ List.length (getResultPath_from q' infos startPos 0 []) = 80%nat.
Proof.
  intros Hshape. rewrite getResultPath_from_length.
  destruct Hshape as [(info & -> & _) | [Hmid | (info & -> & _)]].
  - left. reflexivity.
  - destruct Hmid as (first & second & -> & _). right. reflexivity.
  - left. reflexivity.
Qed.

(** X16: outside of the normal search the planner returns whatever the fuel is,
    that is, it has no loop without a bound there: when the direct
    trajectory is accepted, when the start is in an obstacle or outside of
    the field, and when the end is in a static obstacle.  It returns the
    forty points of one trajectory or the eighty points of two. *)
Theorem calculateTrajectory_returns_outside_search (fuel : nat) (s0 v0 s1 v1 : Vector)
    (maxSpeed acceleration : R) (st : state) :
  let q := mkRequest v0 v1 (s1 -v s0) s0 s1 (Vec.eqb v1 (mkVector 0 0))
             maxSpeed (maxSpeed * maxSpeed) acceleration in
  let st0 := set_generationInfo [] (collectObstacles (set_request q st)) in
  directAccepted st0 = true
  \/ isInStaticObstacle st0 s0 || isInMovingObstacle st0 s0 0 = true
  \/ isInStaticObstacle st0 s1 = true ->
  exists path st',
    calculateTrajectory isInputValidFastEndSpeed fuel s0 v0 s1 v1 maxSpeed acceleration st
    = Some (path, st')
    /\ (List.length path = 40%nat \/ List.length path = 80%nat).
Proof.
  intros q st0 Hcase.
  assert (Hfind : exists st',
            findPathAlphaT isInputValidFastEndSpeed fuel (set_request q st) = Some (tt, st')).
  { unfold findPathAlphaT. unfold bind at 1 2 3. cbn [modify gets]. fold st0.
    destruct (directAccepted st0) eqn:Hdirect; [eexists; reflexivity |].
    unfold searchPath. unfold bind at 1 2 3 4 5. cbn [gets modify].
    cbn [m_bestResultInfo set_bestResultInfo best_valid set_best_valid].
    cbn [ret]. unfold bind at 1. cbn [gets].
    set (st1 := set_bestResultInfo _ _).
    change (isInStaticObstacle st1 (TrajectoryPath.s0 (request st1)))
      with (isInStaticObstacle st0 s0).
    change (isInMovingObstacle st1 (TrajectoryPath.s0 (request st1)) 0)
      with (isInMovingObstacle st0 s0 0).
    change (isInStaticObstacle st1 (TrajectoryPath.s1 (request st1)))
      with (isInStaticObstacle st0 s1).
    destruct (isInStaticObstacle st0 s0 || isInMovingObstacle st0 s0 0) eqn:Hstart.
    - destruct (returns_escapeObstacles st1) as ([] & st' & Hrun). exists st'. exact Hrun.
    - destruct Hcase as [Hcase | [Hcase | Hcase]]; try discriminate Hcase.
      rewrite Hcase.
      destruct (returns_findPathEndInObstacle st1) as ([] & st' & Hrun).
      exists st'. exact Hrun. }
  destruct Hfind as (st' & Hfind).
  exists (getResultPath st'), st'. split.
  - unfold calculateTrajectory. unfold bind at 1. cbn [modify]. fold q.
    unfold bind at 1. rewrite Hfind. reflexivity.
  - apply findPathAlphaT_result in Hfind. destruct Hfind as [_ Hshape].
    unfold getResultPath. exact (resultShape_points _ _ _ _ Hshape).
Qed.

(** X17: an accepted direct trajectory ends the request at once: the result is
    its forty points, and apart from the request, the collected obstacles
    and the one entry of the result the planner is as it was; no random
    number is drawn and the best result of the last request is kept. *)
Theorem direct_trajectory_draws_nothing (fuel : nat) (s0 v0 s1 v1 : Vector)
    (maxSpeed acceleration : R) (st : state) :
  let q := mkRequest v0 v1 (s1 -v s0) s0 s1 (Vec.eqb v1 (mkVector 0 0))
             maxSpeed (maxSpeed * maxSpeed) acceleration in
  let st0 := set_generationInfo [] (collectObstacles (set_request q st)) in
  let st' :=
    set_generationInfo
      [mkInfo (inputTime (directTrajectory q)) (inputAngle (directTrajectory q))
              (directSlowDownTime q) v0 v1 (s1 -v s0) true] st0 in
  directAccepted st0 = true ->
  calculateTrajectory isInputValidFastEndSpeed fuel s0 v0 s1 v1 maxSpeed acceleration st
  = Some (getResultPath st', st')
  /\ List.length (getResultPath st') = 40%nat
  /\ m_rng st' = m_rng st
  /\ m_bestResultInfo st' = m_bestResultInfo st.
Proof.
  intros q st0 st' Hdirect. split; [| split; [| split; reflexivity]].
  - unfold calculateTrajectory. unfold bind at 1. cbn [modify]. fold q.
    unfold bind at 1.
    assert (Hfind : findPathAlphaT isInputValidFastEndSpeed fuel (set_request q st)
                    = Some (tt, st')); [| rewrite Hfind; reflexivity].
    unfold findPathAlphaT. unfold bind at 1 2 3. cbn [modify gets]. fold st0.
    rewrite Hdirect. reflexivity.
  - unfold getResultPath. rewrite getResultPath_from_length. reflexivity.
Qed.

End Candidates.

(** *** Runs with the stand-ins *)

Section ExtraRuns.

Import PlannerExamples PlannerExamples2.
#[local] Existing Instance Resting.restingOps.

Lemma FLT_MAX_large : 1 <= FLT_MAX.
Proof.
  unfold FLT_MAX.
  assert (H23 : 1 <= 2 ^ 23) by (apply pow_R1_Rle; lra).
  assert (H127 : 1 <= 2 ^ 127) by (apply pow_R1_Rle; lra).
  assert (Hinv : / 2 ^ 23 <= 1).
  { rewrite <- Rinv_1. apply Rinv_le_contravar; lra. }
  assert (Hfactor : 1 <= 2 - / 2 ^ 23) by lra.
  nra.
Qed.

Lemma openField_inside (x : R) :
  -4 <= x <= 4 ->
  Path.pointInPlayfield (m_boundary openField) (mkVector x 0) (m_radius openField) = true.
Proof.
  intros Hx. unfold Path.pointInPlayfield, openField.
  cbn [m_boundary m_radius Path.bottom_left Path.top_right vx vy].
  rewrite !Rltb_false, !Rgtb_false by lra. reflexivity.
Qed.

(** On the open field a resting profile keeps every distance it starts
    with. *)
Lemma open_minObstacleDistance (RNG : Type) (st : t RNG) (profile : SpeedProfile)
    (timeOffset slowDownTime x : R) (times : list R) :
  world st = openField -> m_obstacles st = [] -> -4 <= x <= 4 ->
  forall m,
    minObstacleDistance_from st profile timeOffset slowDownTime (mkVector x 0) times m = m.
Proof.
  intros Hworld Hobstacles Hx. induction times as [| time times IH]; intros m;
    cbn [minObstacleDistance_from]; [reflexivity |].
  assert (Hpos : profilePosition profile slowDownTime time +v mkVector x 0 = mkVector x 0).
  { unfold profilePosition. destruct (Cmp.Rgtb slowDownTime 0);
      cbn [positionForTimeSlowDown positionForTime Resting.restingOps];
      unfold Vec.add; cbn [vx vy]; f_equal; lra. }
  rewrite Hpos, Hworld, openField_inside by assumption. cbn [negb].
  unfold obstacleDistances. rewrite Hobstacles, Hworld.
  cbn [m_movingCircles m_movingLines openField List.map app scanDistances].
  apply IH.
Qed.

Lemma positive_distance_not_in_obstacle_witness :
  isTrajectoryInObstacle freshOpen emptyProfile 0 0 (mkVector 0 0) = false.
Proof.
  apply positive_distance_not_in_obstacle.
  - reflexivity.
  - constructor.
  - unfold minObstacleDistance.
    rewrite open_minObstacleDistance; [apply FLT_MAX_pos | reflexivity | reflexivity | lra].
Defined.

Lemma sampled_speed_within_limit_witness :
  exists speed st',
    randomSpeed (H0 := middleRNG) 1 freshOpen = Some (speed, st')
    /\ Vec.lengthSquared speed <= 9.
Proof.
  pose proof (proj1 (sampled_speed_within_limit (H0 := middleRNG) 1 (mkVector 0 0) freshOpen))
    as Hlimit.
  destruct (randomSpeed (H0 := middleRNG) 1 freshOpen) as [[speed st'] |] eqn:Hrun.
  - exists speed, st'. split; [reflexivity | exact (proj1 Hlimit)].
  - exfalso. cbn in Hrun. unfold bind, rngFloat in Hrun. cbn in Hrun.
    rewrite Rgtb_false in Hrun; [discriminate Hrun |].
    unfold Vec.lengthSquared. cbn [vx vy]. lra.
Defined.

Lemma calculateTrajectory_returns_outside_search_witness :
  exists path st',
    calculateTrajectory (H0 := lowestRNG) anyInput 0 (mkVector 6 0) (mkVector 0 0) (mkVector 0 0)
      (mkVector 0 0) 3.5 3 fresh
    = Some (path, st')
    /\ (List.length path = 40%nat \/ List.length path = 80%nat).
Proof.
  apply (calculateTrajectory_returns_outside_search (H0 := lowestRNG) anyInput 0
           (mkVector 6 0) (mkVector 0 0) (mkVector 0 0) (mkVector 0 0) 3.5 3 fresh).
  right. left.
  unfold isInStaticObstacle, Path.pointInPlayfield.
  cbn [world set_generationInfo collectObstacles set_obstacles set_request fresh field
       m_boundary m_radius Path.bottom_left Path.top_right vx vy].
  rewrite (Rgtb_true (6 + 0.1)) by lra.
  rewrite orb_true_r. reflexivity.
Defined.

Lemma calculateTrajectory_points_witness :
  exists path st',
    calculateTrajectory (H0 := lowestRNG) anyInput 0 (mkVector 6 0) (mkVector 0 0)
      (mkVector 0 0) (mkVector 0 0) 3.5 3 fresh
    = Some (path, st')
    /\ (List.length path = 40%nat \/ List.length path = 80%nat).
Proof.
  destruct run_from_outside as (st' & Hrun & _).
  exists (getResultPath st'), st'. split; [exact Hrun |].
  exact (calculateTrajectory_points anyInput 0 (mkVector 6 0) (mkVector 0 0) (mkVector 0 0)
           (mkVector 0 0) 3.5 3 fresh st' (getResultPath st') Hrun).
Defined.

Lemma resting_search_converges (rounds i : nat) (v0 v1 position : Vector)
    (acc vMax slowDownTime : R) (highPrecision : bool) (minimumTime : R) (useMin : bool)
    (minPos : Vector) (st : SearchState) :
  0 < slowDownTime ->
  Vec.distance position (mkVector 0 0) < targetPrecision highPrecision ->
  valid (searchExactEndSpeed (S rounds) i v0 v1 position acc vMax slowDownTime
           highPrecision minimumTime useMin minPos st) = true.
Proof.
  intros Hslow Hnear. cbn [searchExactEndSpeed]. rewrite Rgtb_true by assumption.
  cbn [calculateSlowDownPos Resting.restingOps].
  rewrite Rltb_true by assumption. rewrite Rleb_false by assumption. reflexivity.
Qed.

(** A stop request from rest to the place the robot is at. *)
Lemma direct_trajectory_draws_nothing_witness :
  exists path st',
    calculateTrajectory (H0 := lowestRNG) anyInput 0 (mkVector 0 0) (mkVector 0 0)
      (mkVector 0 0) (mkVector 0 0) 3.5 3 freshOpen
    = Some (path, st')
    /\ List.length path = 40%nat /\ m_rng st' = m_rng freshOpen.
Proof.
  destruct (direct_trajectory_draws_nothing (H0 := lowestRNG) anyInput 0 (mkVector 0 0)
              (mkVector 0 0) (mkVector 0 0) (mkVector 0 0) 3.5 3 freshOpen)
    as (Hrun & Hlength & Hrng & _).
  - unfold directAccepted.
    cbn [request set_generationInfo collectObstacles set_obstacles set_request
         TrajectoryPath.s0].
    apply andb_true_intro. split.
    + unfold directTrajectory, directSlowDownTime.
      cbn [TrajectoryPath.v0 TrajectoryPath.v1 distance exponentialSlowDown ACCELERATION
           MAX_SPEED].
      rewrite Vec_eqb_refl.
      unfold findTrajectoryFastEndSpeed. cbn [vx vy].
      rewrite !Reqb_true by reflexivity. cbn [andb].
      unfold findTrajectoryExactEndSpeed. rewrite Vec_eqb_refl. cbv zeta.
      assert (Hzero : Vec.length (necessaryAcceleration (mkVector 0 0)
                                    (mkVector 0 0 -v mkVector 0 0)) = 0).
      { unfold necessaryAcceleration, Vec.length, Vec.lengthSquared. cbn [vx vy].
        transitivity (sqrt 0); [f_equal; unfold Rdiv; ring | apply sqrt_0]. }
      rewrite Hzero, Rgtb_false by lra. cbn [andb].
      unfold iterativeSearchExactEndSpeed.
      assert (Hnear : forall hp,
                Vec.distance (mkVector 0 0 -v mkVector 0 0) (mkVector 0 0)
                < targetPrecision hp).
      { intros hp. unfold Vec.distance.
        replace (mkVector 0 0 -v (mkVector 0 0 -v mkVector 0 0)) with (mkVector 0 0)
          by (unfold Vec.sub; cbn [vx vy]; f_equal; lra).
        rewrite GroundFilterProps.length_x, Rabs_R0.
        destruct hp; cbn [targetPrecision];
          unfold HIGH_QUALITY_TARGET_PRECISION, REGULAR_TARGET_PRECISION; lra. }
      destruct (_ && _ && _);
        [unfold HIGH_PRECISION_ITERATIONS | unfold MAX_SEARCH_ITERATIONS];
        apply resting_search_converges;
        first [unfold TOTAL_SLOW_DOWN_TIME; lra | apply Hnear].
    + unfold minObstacleDistance.
      rewrite open_minObstacleDistance; [| reflexivity | reflexivity | lra].
      apply Rgtb_true. pose proof FLT_MAX_large. unfold OBSTACLE_AVOIDANCE_RADIUS. lra.
  - eexists _, _. split; [exact Hrun |]. split; assumption.
Defined.

End ExtraRuns.

End PlannerExtras.

(** ** One-dimensional speed profiles *)

Module ProfileProps.

Import SpeedProfile1D ProfileSpec.

Lemma copysign_sq (x y : R) : copysign x y * copysign x y = x * x.
Proof.
  unfold copysign. destruct (Cmp.Rltb y 0);
    unfold Rabs; destruct (Rcase_abs x); ring.
Qed.

Lemma copysign_same_sign (x y : R) : 0 < x -> y + copysign x y <> 0.
Proof.
  intros Hx. unfold copysign. destruct (Cmp.Rltb y 0) eqn:Hy.
  - apply Rltb_spec in Hy. rewrite Rabs_right by lra. lra.
  - unfold Cmp.Rltb in Hy. destruct (Rlt_dec y 0); [discriminate |].
    rewrite Rabs_right by lra. lra.
Qed.

(** With [a <> 0], [solveSq] finds both roots and returns the larger. *)
Lemma solveSq_factor (a b c x : R) :
  a <> 0 -> solveSq a b c = Some x ->
  exists t1 t2,
    x = Rmax t1 t2 /\ forall y, a * y * y + b * y + c = a * (y - t1) * (y - t2).
Proof.
  intros Ha Hsolve. unfold solveSq in Hsolve.
  rewrite Reqb_false in Hsolve by assumption.
  destruct (Cmp.Rltb (b * b - 4 * a * c) 0) eqn:Hneg; [discriminate Hsolve |].
  assert (Hdet : 0 <= b * b - 4 * a * c).
  { unfold Cmp.Rltb in Hneg. destruct (Rlt_dec _ _); [discriminate | lra]. }
  destruct (Cmp.Reqb (b * b - 4 * a * c) 0) eqn:Hzero.
  - apply Reqb_spec in Hzero. injection Hsolve as <-.
    exists (- b / (2 * a)), (- b / (2 * a)). split.
    + symmetry. apply Rmax_left. lra.
    + intros y. replace c with (b * b / (4 * a)) by (field_simplify_eq; [nra | assumption]).
      field. assumption.
  - assert (Hpos : 0 < b * b - 4 * a * c).
    { unfold Cmp.Reqb in Hzero. destruct (Req_dec_T _ _); [discriminate | lra]. }
    pose proof (sqrt_sqrt _ Hdet) as Hsq.
    pose proof (sqrt_lt_R0 _ Hpos) as Hs.
    set (s := sqrt (b * b - 4 * a * c)) in *.
    pose proof (copysign_sq s b) as Hcs.
    pose proof (copysign_same_sign s b Hs) as Hne.
    set (k := copysign s b) in *.
    injection Hsolve as <-.
    set (t2 := (- b - k) / (2 * a)).
    assert (Ht2 : t2 <> 0).
    { unfold t2. intros Hz. apply Hne.
      apply (f_equal (fun z => z * (2 * a))) in Hz.
      replace ((- b - k) / (2 * a) * (2 * a)) with (- b - k) in Hz by (field; assumption).
      lra. }
    assert (Hroot : a * t2 * t2 + b * t2 + c = 0).
    { unfold t2. field_simplify_eq; [| assumption]. nra. }
    exists (c / (a * t2)), t2. split; [reflexivity |].
    intros y.
    assert (Hprod : a * (c / (a * t2)) * t2 = c) by (field; split; assumption).
    assert (Hsum : a * (c / (a * t2) + t2) = - b).
    { apply (Rmult_eq_reg_r t2); [| exact Ht2].
      replace (a * (c / (a * t2) + t2) * t2) with (c + a * t2 * t2)
        by (field; split; assumption).
      lra. }
    nra.
Qed.

(** X19: [solveSq] returns a solution of [a x^2 + b x + c = 0], the largest one;
    it fails exactly when there is none to choose: for [a = b = 0], and
    for a negative discriminant. *)
Theorem solveSq_largest_root (a b c : R) :
  match solveSq a b c with
  | Some x =>
      a * x * x + b * x + c = 0
      /\ forall y, a * y * y + b * y + c = 0 -> y <= x
  | None => (a = 0 /\ b = 0) \/ (a <> 0 /\ b * b - 4 * a * c < 0)
  end.
Proof.
  destruct (solveSq a b c) as [x |] eqn:Hsolve.
  - destruct (Req_dec_T a 0) as [Ha | Ha].
    + unfold solveSq in Hsolve. rewrite Reqb_true in Hsolve by assumption.
      destruct (Cmp.Reqb b 0) eqn:Hb; [discriminate Hsolve |].
      assert (Hb0 : b <> 0).
      { unfold Cmp.Reqb in Hb. destruct (Req_dec_T b 0); [discriminate | assumption]. }
      injection Hsolve as <-. subst a. split.
      * field. assumption.
      * intros y Hy. right.
        apply (Rmult_eq_reg_l b); [| assumption].
        replace (b * (- c / b)) with (- c) by (field; assumption). lra.
    + destruct (solveSq_factor a b c x Ha Hsolve) as (t1 & t2 & -> & Hfactor).
      split.
      * rewrite Hfactor. unfold Rmax. destruct (Rle_dec t1 t2); ring.
      * intros y Hy. rewrite Hfactor in Hy.
        apply Rmult_integral in Hy. destruct Hy as [Hy | Hy].
        -- apply Rmult_integral in Hy. destruct Hy as [Hy | Hy]; [contradiction |].
           replace y with t1 by lra. apply Rmax_l.
        -- replace y with t2 by lra. apply Rmax_r.
  - unfold solveSq in Hsolve.
    destruct (Cmp.Reqb a 0) eqn:Ha.
    + apply Reqb_spec in Ha. destruct (Cmp.Reqb b 0) eqn:Hb; [| discriminate Hsolve].
      apply Reqb_spec in Hb. left. split; assumption.
    + assert (Ha0 : a <> 0).
      { unfold Cmp.Reqb in Ha. destruct (Req_dec_T a 0); [discriminate | assumption]. }
      destruct (Cmp.Rltb (b * b - 4 * a * c) 0) eqn:Hneg.
      * apply Rltb_spec in Hneg. right. split; assumption.
      * destruct (Cmp.Reqb (b * b - 4 * a * c) 0); discriminate Hsolve.
Qed.

(** Case analysis on the comparisons and absolute values of a goal. *)
Ltac split_cmp :=
  repeat match goal with
         | |- context [Cmp.Rltb ?a ?b] =>
             let Hc := fresh "Hc" in
             destruct (Rlt_dec a b) as [Hc | Hc];
             [rewrite (Rltb_true a b Hc) | rewrite (Rltb_false a b (Rnot_lt_le _ _ Hc))]
         | |- context [Cmp.Rgtb ?a ?b] =>
             let Hc := fresh "Hc" in
             destruct (Rlt_dec b a) as [Hc | Hc];
             [rewrite (Rgtb_true a b Hc) | rewrite (Rgtb_false a b (Rnot_lt_le _ _ Hc))]
         end.

Ltac split_abs :=
  repeat match goal with
         | |- context [Rabs ?x] =>
             let Ha := fresh "Ha" in
             destruct (Rcase_abs x) as [Ha | Ha];
             [rewrite (Rabs_left x Ha) | rewrite (Rabs_right x Ha)]
         | H : context [Rabs ?x] |- _ =>
             let Ha := fresh "Ha" in
             destruct (Rcase_abs x) as [Ha | Ha];
             [rewrite (Rabs_left x Ha) in * | rewrite (Rabs_right x Ha) in *]
         end.

Ltac equal_speeds a b := assert (a = b) by lra; subst a.

Ltac forall_points :=
  repeat first [apply List.Forall_nil | apply List.Forall_cons; [cbn [t v] |]].

Lemma Rdiv_ge_0 (x acc : R) : 0 < acc -> 0 <= x -> 0 <= x / acc.
Proof. intros Hacc Hx. apply Rmult_le_pos; [exact Hx | left; apply Rinv_0_lt_compat, Hacc]. Qed.

Lemma Rabs_div_ge_0 (x acc : R) : 0 < acc -> 0 <= Rabs x / acc.
Proof. intros Hacc. apply Rdiv_ge_0; [exact Hacc | apply Rabs_pos]. Qed.

(** X20: the profile of [calculate1DTrajectory] starts at [v0] and ends at
    [v1], has two to four points and no segment of negative time, and
    takes the least time from [v0] to [v1] at the acceleration [acc] plus
    the extra time asked for. *)
Theorem calculate1DTrajectory_duration (v0 v1 extraTime : R) (directionPositive : bool)
    (acc vMax : R) :
  0 < acc -> 0 <= extraTime ->
  let profile := calculate1DTrajectory v0 v1 extraTime directionPositive acc vMax in
  duration profile = Rabs (v0 - v1) / acc + extraTime
  /\ Forall (fun p => 0 <= t p) profile
  /\ (exists rest, profile = mkVT v0 0 :: rest)
  /\ lastSpeed profile = v1
  /\ (2 <= List.length profile <= 4)%nat.
Proof.
  intros Hacc Hextra. cbv zeta. unfold calculate1DTrajectory.
  set (desiredVMax := if directionPositive then vMax else - vMax). clearbody desiredVMax.
  destruct (Cmp.Reqb extraTime 0) eqn:Hzero.
  { apply Reqb_spec in Hzero. subst extraTime. cbn [app].
    split; [unfold duration; cbn [List.fold_right t]; lra |].
    split; [forall_points; [lra | apply Rabs_div_ge_0, Hacc] |].
    split; [eexists; reflexivity |]. split; [reflexivity | cbn; lia]. }
  assert (Hpos : 0 < extraTime).
  { unfold Cmp.Reqb in Hzero. destruct (Req_dec_T extraTime 0); [discriminate | lra]. }
  clear Hzero Hextra.
  assert (Hk : 0 < / acc) by (apply Rinv_0_lt_compat, Hacc).
  destruct (negb (Bool.eqb _ _)) eqn:Hcross.
  { cbn [app].
    split.
    - unfold duration. cbn [List.fold_right t].
      apply negb_true_iff in Hcross. revert Hcross. split_cmp; cbn [Bool.eqb];
        intros Hcross; try discriminate Hcross;
        split_abs; try lra; field_simplify_eq; lra.
    - split.
      { forall_points; try lra; apply Rmult_le_pos; try apply Rabs_pos; lra. }
      split; [eexists; reflexivity |]. split; [reflexivity | cbn; lia]. }
  apply negb_false_iff in Hcross.
  unfold createFreeExtraTimeSegment.
  set (closer := if Cmp.Rltb (Rabs (v0 - desiredVMax)) (Rabs (v1 - desiredVMax))
                 then v0 else v1).
  assert (Hcloser : (closer = v0 /\ Rabs (v0 - desiredVMax) < Rabs (v1 - desiredVMax))
                    \/ (closer = v1 /\ Rabs (v1 - desiredVMax) <= Rabs (v0 - desiredVMax))).
  { unfold closer. destruct (Rlt_dec (Rabs (v0 - desiredVMax)) (Rabs (v1 - desiredVMax)))
      as [Hc | Hc].
    - rewrite (Rltb_true _ _ Hc). left. split; [reflexivity | exact Hc].
    - rewrite (Rltb_false _ _ (Rnot_lt_le _ _ Hc)). right. split; [reflexivity | lra]. }
  clearbody closer.
  assert (Hside : (v0 < desiredVMax /\ v1 < desiredVMax)
                  \/ (desiredVMax <= v0 /\ desiredVMax <= v1)).
  { revert Hcross. split_cmp; cbn [Bool.eqb]; intros Hcross;
      try discriminate Hcross; lra. }
  clear Hcross.
  set (toMaxTime := 2 * Rabs (desiredVMax - closer) / acc).
  assert (HtoMax : toMaxTime * acc = 2 * Rabs (desiredVMax - closer))
    by (unfold toMaxTime; field; lra).
  destruct (Rlt_dec toMaxTime extraTime) as [Hreach | Hshort].
  - rewrite (Rltb_true _ _ Hreach). cbn [app].
    split.
    { unfold duration. cbn [List.fold_right t].
      apply (Rmult_eq_reg_r acc); [| lra].
      replace ((0 + (Rabs (desiredVMax - v0) / acc
                     + (extraTime - toMaxTime
                        + (Rabs (desiredVMax - v1) / acc + 0)))) * acc)
        with (Rabs (desiredVMax - v0) + extraTime * acc - toMaxTime * acc
              + Rabs (desiredVMax - v1)) by (field; lra).
      replace ((Rabs (v0 - v1) / acc + extraTime) * acc)
        with (Rabs (v0 - v1) + extraTime * acc) by (field; lra).
      rewrite HtoMax.
      destruct Hcloser as [[-> Hless] | [-> Hless]]; destruct Hside as [[? ?] | [? ?]];
        split_abs; lra. }
    split; [forall_points; try lra; apply Rabs_div_ge_0, Hacc |].
    split; [eexists; reflexivity |]. split; [reflexivity | cbn; lia].
  - rewrite (Rltb_false _ _ (Rnot_lt_le _ _ Hshort)). cbn [app].
    apply Rnot_lt_le in Hshort.
    assert (Hgap : extraTime * acc <= 2 * Rabs (desiredVMax - closer)) by nra.
    assert (Hstep : 0 < extraTime * acc) by (apply Rmult_lt_0_compat; assumption).
    set (peak := (if Cmp.Rgtb closer desiredVMax then -1 else 1) * acc * extraTime / 2
                 + closer).
    assert (Hpeak : (desiredVMax < closer /\ peak = closer - extraTime * acc / 2)
                    \/ (closer < desiredVMax /\ peak = closer + extraTime * acc / 2)).
    { unfold peak. destruct (Rlt_dec desiredVMax closer) as [Hc | Hc].
      - rewrite (Rgtb_true _ _ Hc). left. split; [exact Hc | field].
      - rewrite (Rgtb_false _ _ (Rnot_lt_le _ _ Hc)). right. split; [| field].
        apply Rnot_lt_le in Hc. destruct Hc as [Hc | Hc]; [exact Hc |].
        subst closer. rewrite Rminus_diag, Rabs_R0 in Hgap. lra. }
    clearbody peak.
    split.
    { unfold duration. cbn [List.fold_right t].
      apply (Rmult_eq_reg_r acc); [| lra].
      replace ((0 + (Rabs (v0 - peak) / acc + (Rabs (v1 - peak) / acc + 0))) * acc)
        with (Rabs (v0 - peak) + Rabs (v1 - peak)) by (field; lra).
      replace ((Rabs (v0 - v1) / acc + extraTime) * acc)
        with (Rabs (v0 - v1) + extraTime * acc) by (field; lra).
      destruct Hpeak as [[Hc ->] | [Hc ->]];
        destruct Hcloser as [[-> Hless] | [-> Hless]]; destruct Hside as [[? ?] | [? ?]];
        split_abs; lra. }
    split; [forall_points; try lra; apply Rabs_div_ge_0, Hacc |].
    split; [eexists; reflexivity |]. split; [reflexivity | cbn; lia].
Qed.

Lemma calculate1DTrajectory_duration_witness :
  duration (calculate1DTrajectory 0 1 0.5 true 2 3) = Rabs (0 - 1) / 2 + 0.5.
Proof. apply (calculate1DTrajectory_duration 0 1 0.5 true 2 3); lra. Defined.

(** The end position of [calculateEndPos1D] against the profile of
    [calculate1DTrajectory], by the cases of the two functions. *)
Lemma endPos_distance (v0 v1 hintDist acc vMax : R) :
  0 < acc ->
  endPos (calculateEndPos1D v0 v1 hintDist acc vMax)
  = distanceCovered
      (calculate1DTrajectory v0 v1 (Rabs hintDist) (negb (Cmp.Rltb hintDist 0)) acc vMax).
Proof.
  intros Hacc. unfold calculateEndPos1D, calculate1DTrajectory.
  assert (HdV : (if negb (Cmp.Rltb hintDist 0) then vMax else - vMax)
                = (if Cmp.Rltb hintDist 0 then - vMax else vMax))
    by (destruct (Cmp.Rltb hintDist 0); reflexivity).
  rewrite HdV. clear HdV.
  set (desiredVMax := if Cmp.Rltb hintDist 0 then - vMax else vMax). clearbody desiredVMax.
  destruct (Req_dec_T hintDist 0) as [Hzero | Hnonzero].
  { subst hintDist. rewrite Rabs_R0, !Reqb_true by reflexivity.
    cbn [endPos app distanceCovered distanceFrom v t]. unfold dist. lra. }
  assert (Habs : Rabs hintDist <> 0) by (apply Rabs_no_R0; assumption).
  assert (Hextra : 0 < Rabs hintDist) by (apply Rabs_pos_lt; assumption).
  rewrite !Reqb_false by assumption.
  set (extraTime := Rabs hintDist) in *. clearbody extraTime. clear Habs Hnonzero hintDist.
  destruct (negb (Bool.eqb _ _)) eqn:Hcross.
  { cbn [endPos app distanceCovered distanceFrom v t]. unfold dist, constantDistance.
    apply negb_true_iff in Hcross. revert Hcross. split_cmp; cbn [Bool.eqb];
      intros Hcross; try discriminate Hcross;
      split_abs; try lra; field_simplify_eq; try lra; nra. }
  apply negb_false_iff in Hcross.
  unfold createFreeExtraTimeSegment, freeExtraTimeDistance.
  set (closer := if Cmp.Rltb (Rabs (v0 - desiredVMax)) (Rabs (v1 - desiredVMax))
                 then v0 else v1).
  assert (Hcloser : (closer = v0 /\ Rabs (v0 - desiredVMax) < Rabs (v1 - desiredVMax))
                    \/ (closer = v1 /\ Rabs (v1 - desiredVMax) <= Rabs (v0 - desiredVMax))).
  { unfold closer. destruct (Rlt_dec (Rabs (v0 - desiredVMax)) (Rabs (v1 - desiredVMax)))
      as [Hc | Hc].
    - rewrite (Rltb_true _ _ Hc). left. split; [reflexivity | exact Hc].
    - rewrite (Rltb_false _ _ (Rnot_lt_le _ _ Hc)). right. split; [reflexivity | lra]. }
  clearbody closer.
  assert (Hside : (v0 < desiredVMax /\ v1 < desiredVMax)
                  \/ (desiredVMax <= v0 /\ desiredVMax <= v1)).
  { revert Hcross. split_cmp; cbn [Bool.eqb]; intros Hcross;
      try discriminate Hcross; lra. }
  clear Hcross.
  set (toMaxTime := 2 * Rabs (desiredVMax - closer) / acc).
  assert (HtoMax : toMaxTime * acc = 2 * Rabs (desiredVMax - closer))
    by (unfold toMaxTime; field; lra).
  assert (Hhalf : 0.5 = / 2) by lra.
  destruct (Rlt_dec toMaxTime extraTime) as [Hreach | Hshort].
  - rewrite (Rltb_true _ _ Hreach).
    cbn [endPos fst app distanceCovered distanceFrom v t]. unfold dist, constantDistance.
    clearbody toMaxTime. rewrite !Hhalf.
    apply (Rmult_eq_reg_r acc); [| lra].
    match goal with
    | |- ?lhs * acc = ?rhs * acc =>
        replace (lhs * acc)
          with (Rabs (closer - desiredVMax) * (closer + desiredVMax)
                + desiredVMax * (extraTime * acc) - desiredVMax * (toMaxTime * acc)
                + / 2 * (v0 + v1) * Rabs (v0 - v1)) by (field; lra);
        replace (rhs * acc)
          with (/ 2 * (v0 + desiredVMax) * Rabs (desiredVMax - v0)
                + desiredVMax * (extraTime * acc) - desiredVMax * (toMaxTime * acc)
                + / 2 * (desiredVMax + v1) * Rabs (desiredVMax - v1)) by (field; lra)
    end.
    rewrite HtoMax.
    destruct Hcloser as [[-> Hless] | [-> Hless]]; destruct Hside as [[? ?] | [? ?]];
      split_abs;
      first [nra | equal_speeds v0 desiredVMax; nra | equal_speeds v1 desiredVMax; nra
             | equal_speeds v0 v1; nra
             | equal_speeds v0 desiredVMax; equal_speeds v1 desiredVMax; nra].
  - rewrite (Rltb_false _ _ (Rnot_lt_le _ _ Hshort)).
    apply Rnot_lt_le in Hshort.
    assert (Hgap : extraTime * acc <= 2 * Rabs (desiredVMax - closer)) by nra.
    assert (Hstep : 0 < extraTime * acc) by (apply Rmult_lt_0_compat; assumption).
    set (peak := (if Cmp.Rgtb closer desiredVMax then -1 else 1) * acc * extraTime / 2
                 + closer).
    assert (Hpeak : (desiredVMax < closer /\ peak = closer - extraTime * acc / 2)
                    \/ (closer < desiredVMax /\ peak = closer + extraTime * acc / 2)).
    { unfold peak. destruct (Rlt_dec desiredVMax closer) as [Hc | Hc].
      - rewrite (Rgtb_true _ _ Hc). left. split; [exact Hc | field].
      - rewrite (Rgtb_false _ _ (Rnot_lt_le _ _ Hc)). right. split; [| field].
        apply Rnot_lt_le in Hc. destruct Hc as [Hc | Hc]; [exact Hc |].
        subst closer. rewrite Rminus_diag, Rabs_R0 in Hgap. lra. }
    cbn [endPos fst app distanceCovered distanceFrom v t]. unfold dist.
    fold peak. clearbody peak. clear toMaxTime HtoMax Hshort. rewrite !Hhalf.
    apply (Rmult_eq_reg_r acc); [| lra].
    match goal with
    | |- ?lhs * acc = ?rhs * acc =>
        replace (lhs * acc)
          with ((closer + peak) * Rabs (closer - peak)
                + / 2 * (v0 + v1) * Rabs (v0 - v1)) by (field; lra);
        replace (rhs * acc)
          with (/ 2 * (v0 + peak) * Rabs (v0 - peak)
                + / 2 * (peak + v1) * Rabs (v1 - peak)) by (field; lra)
    end.
    set (step := extraTime * acc) in *. clearbody step.
    destruct Hpeak as [[Hc ->] | [Hc ->]];
      destruct Hcloser as [[-> Hless] | [-> Hless]]; destruct Hside as [[? ?] | [? ?]];
      split_abs;
      first [nra | equal_speeds v0 desiredVMax; nra | equal_speeds v1 desiredVMax; nra
             | equal_speeds v0 v1; nra
             | equal_speeds v0 desiredVMax; equal_speeds v1 desiredVMax; nra].
Qed.

(** X21: [calculateEndPos1D] is [calculate1DTrajectory] with the position only,
    as its comment says: the end position it returns is the distance the
    profile covers that [calculate1DTrajectory] builds for the same
    speeds, the extra time [|hintDist|] and the direction of [hintDist]. *)
Theorem calculateEndPos1D_covers_profile (v0 v1 hintDist acc vMax : R) :
  0 < acc ->
  endPos (calculateEndPos1D v0 v1 hintDist acc vMax)
  = distanceCovered
      (calculate1DTrajectory v0 v1 (Rabs hintDist) (negb (Cmp.Rltb hintDist 0)) acc vMax).
Proof. exact (endPos_distance v0 v1 hintDist acc vMax). Qed.

Lemma calculateEndPos1D_covers_profile_witness :
  endPos (calculateEndPos1D 0 1 0.5 2 3)
  = distanceCovered (calculate1DTrajectory 0 1 (Rabs 0.5) (negb (Cmp.Rltb 0.5 0)) 2 3).
Proof. apply (calculateEndPos1D_covers_profile 0 1 0.5 2 3). lra. Defined.

(** X22: [calculateEndPos1DFastSpeed] is to [calculate1DTrajectoryFastEndSpeed]
    what [calculateEndPos1D] is to [calculate1DTrajectory]: as long as
    [adjustEndSpeed] leaves no negative time, it returns the distance that
    the profile of [calculate1DTrajectoryFastEndSpeed] covers. *)
Theorem calculateEndPos1DFastSpeed_covers_profile (v0 v1 time : R)
    (directionPositive : bool) (acc vMax : R) :
  0 < acc ->
  0 <= t (adjustEndSpeed v0 v1 time directionPositive acc) ->
  endPos (calculateEndPos1DFastSpeed v0 v1 time directionPositive acc vMax)
  = distanceCovered
      (calculate1DTrajectoryFastEndSpeed v0 v1 time directionPositive acc vMax).
Proof.
  intros Hacc Htime.
  unfold calculateEndPos1DFastSpeed, calculate1DTrajectoryFastEndSpeed.
  destruct (Cmp.Reqb (t (adjustEndSpeed v0 v1 time directionPositive acc)) 0) eqn:Hzero.
  - apply Reqb_spec in Hzero.
    cbn [endPos distanceCovered distanceFrom v t].
    set (speed := v (adjustEndSpeed v0 v1 time directionPositive acc)).
    assert (Hnecessary : time * acc = Rabs (v0 - speed)).
    { unfold speed. unfold adjustEndSpeed in Hzero |- *. cbn [t v] in Hzero |- *.
      match type of Hzero with
      | time - Rabs ?d * (1 / acc) = 0 =>
          set (gap := Rabs d) in *;
          replace time with (gap * (1 / acc)) by lra
      end.
      field. lra. }
    clearbody speed.
    replace (speed - v0) with (- (v0 - speed)) by ring. rewrite Rabs_Ropp.
    rewrite <- Hnecessary. field. lra.
  - assert (Hne : t (adjustEndSpeed v0 v1 time directionPositive acc) <> 0).
    { unfold Cmp.Reqb in Hzero. destruct (Req_dec_T _ _); [discriminate | assumption]. }
    set (endValues := adjustEndSpeed v0 v1 time directionPositive acc) in *.
    rewrite endPos_distance by exact Hacc.
    destruct directionPositive.
    + rewrite Rabs_right by lra. rewrite Rltb_false by lra. reflexivity.
    + rewrite Rabs_Ropp, Rabs_right by lra. rewrite Rltb_true by lra. reflexivity.
Qed.

Lemma adjustEndSpeed_example : t (adjustEndSpeed 0 1 1 true 2) = 0.5.
Proof.
  unfold adjustEndSpeed. cbn [t].
  replace (Rmax (Rmin (0 + 1 * (1 * 2)) (Rmax 1 0)) (Rmin 1 0)) with 1.
  - unfold Rabs. destruct (Rcase_abs (0 - 1)); lra.
  - rewrite (Rmax_left 1 0), (Rmin_right 1 0), Rmin_right, Rmax_left by lra. reflexivity.
Qed.

Lemma calculateEndPos1DFastSpeed_covers_profile_witness :
  endPos (calculateEndPos1DFastSpeed 0 1 1 true 2 3)
  = distanceCovered (calculate1DTrajectoryFastEndSpeed 0 1 1 true 2 3).
Proof.
  apply (calculateEndPos1DFastSpeed_covers_profile 0 1 1 true 2 3); [lra |].
  rewrite adjustEndSpeed_example. lra.
Defined.

Lemma last_default (l : profile1D) (d d' : VT) : l <> [] -> List.last l d = List.last l d'.
Proof.
  induction l as [| p [| q rest] IH]; intros Hne; [contradiction | reflexivity |].
  change (List.last (q :: rest) d = List.last (q :: rest) d'). apply IH. discriminate.
Qed.

Lemma integrateTime_from_sorted (profile : profile1D) (total : R) :
  List.Forall (fun p => 0 <= t p) profile ->
  StronglySorted (fun p q => t p <= t q) (integrateTime_from total profile)
  /\ List.Forall (fun p => total <= t p) (integrateTime_from total profile)
  /\ t (List.last (integrateTime_from total profile) (mkVT 0 total))
     = total + duration profile.
Proof.
  intros Hpos. revert total. induction Hpos as [| p rest Hp Hrest IH]; intros total.
  - cbn. split; [constructor |]. split; [constructor | lra].
  - cbn [integrateTime_from]. destruct (IH (total + t p)) as (Hsorted & Hfrom & Hlast).
    split; [| split].
    + constructor; [exact Hsorted |].
      eapply List.Forall_impl; [| exact Hfrom]. intros q Hq. cbn [t]. exact Hq.
    + constructor; [cbn [t]; lra |].
      eapply List.Forall_impl; [| exact Hfrom]. intros q Hq. cbn beta in Hq |- *. lra.
    + unfold duration in *. cbn [List.fold_right].
      destruct (integrateTime_from (total + t p) rest) as [| q rest'] eqn:Hrun.
      * destruct rest; [| discriminate Hrun]. cbn. lra.
      * change (List.last (mkVT (v p) (total + t p) :: q :: rest') (mkVT 0 total))
          with (List.last (q :: rest') (mkVT 0 total)).
        rewrite (last_default (q :: rest') (mkVT 0 total) (mkVT 0 (total + t p)))
          by discriminate.
        rewrite Hlast. lra.
Qed.

(** X23: [integrateTime] replaces the time each segment takes by the time it
    ends at: when no segment takes a negative time the times of the
    integrated profile never decrease, and the last one is the time the
    whole profile takes. *)
Theorem integrateTime_sorted (profile : profile1D) :
  List.Forall (fun p => 0 <= t p) profile ->
  StronglySorted (fun p q => t p <= t q) (integrateTime profile)
  /\ t (List.last (integrateTime profile) (mkVT 0 0)) = duration profile.
Proof.
  intros Hpos. unfold integrateTime.
  destruct (integrateTime_from_sorted profile 0 Hpos) as (Hsorted & _ & Hlast).
  split; [exact Hsorted | rewrite Hlast; lra].
Qed.

Lemma integrateTime_sorted_witness :
  StronglySorted (fun p q => t p <= t q) (integrateTime [mkVT 0 0; mkVT 1 0.5; mkVT 0 0.5])
  /\ t (List.last (integrateTime [mkVT 0 0; mkVT 1 0.5; mkVT 0 0.5]) (mkVT 0 0))
     = duration [mkVT 0 0; mkVT 1 0.5; mkVT 0 0.5].
Proof.
  apply (integrateTime_sorted [mkVT 0 0; mkVT 1 0.5; mkVT 0 0.5]).
  forall_points; lra.
Defined.

(** X24: between two points of an integrated profile [speedForTime]
    interpolates: for a time from the first point's to the second's the
    speed lies between the two speeds. *)
Theorem speedForTime_between (first second : VT) (time : R) :
  t first < t second ->
  t first <= time <= t second ->
  Rmin (v first) (v second) <= speedForTime first second time
    <= Rmax (v first) (v second).
Proof.
  intros Horder [Hlow Hhigh]. unfold speedForTime.
  rewrite Reqb_false by lra.
  set (diff := (time - t first) / (t second - t first)).
  assert (Hdiff : 0 <= diff <= 1).
  { unfold diff. split.
    - apply Rdiv_ge_0; lra.
    - apply (Rmult_le_reg_r (t second - t first)); [lra |].
      replace ((time - t first) / (t second - t first) * (t second - t first))
        with (time - t first) by (field; lra).
      lra. }
  clearbody diff.
  unfold Rmin, Rmax. destruct (Rle_dec (v first) (v second)); split; nra.
Qed.

Lemma speedForTime_between_witness :
  Rmin (v (mkVT 0 0)) (v (mkVT 2 1)) <= speedForTime (mkVT 0 0) (mkVT 2 1) 0.5
    <= Rmax (v (mkVT 0 0)) (v (mkVT 2 1)).
Proof. apply (speedForTime_between (mkVT 0 0) (mkVT 2 1) 0.5); cbn [t]; lra. Defined.

End ProfileProps.
(** ** Angles and minimum times of the alpha-time search *)

Module AlphaTimeExtras.

Import AlphaTimeTrajectory.





Lemma fastEndSpeed_closer (startSpeed endSpeed : R) :
  Rabs (fastEndSpeed startSpeed endSpeed - startSpeed) <= Rabs (endSpeed - startSpeed).
Proof.
  unfold fastEndSpeed, Rmax, Rmin.
  repeat match goal with
         | |- context [Rle_dec ?a ?b] => destruct (Rle_dec a b)
         | H : context [Rle_dec ?a ?b] |- _ => destruct (Rle_dec a b)
         end;
    unfold Rabs;
    repeat match goal with
           | |- context [Rcase_abs ?a] => destruct (Rcase_abs a)
           end;
    lra.
Qed.



(** X26: stopping at the closest speed between rest and the end speed is never
    slower than reaching the end speed itself: [minTimeFastEndSpeed] is at
    most [minTimeExactEndSpeed]. *)
Theorem minTimeFastEndSpeed_le_exact (v0 v1 : Vector) (acc : R) :
  0 < acc ->
  minTimeFastEndSpeed v0 v1 acc <= minTimeExactEndSpeed v0 v1 acc.
Proof.
  intros Hacc. unfold minTimeFastEndSpeed, minTimeExactEndSpeed.
  unfold Rdiv. apply Rmult_le_compat_r; [left; apply Rinv_0_lt_compat, Hacc |].
  unfold Vec.length, Vec.lengthSquared. apply sqrt_le_1_alt.
  destruct v0 as [x0 y0], v1 as [x1 y1]. cbn [Vec.sub vx vy].
  pose proof (fastEndSpeed_closer x0 x1) as Hx.
  pose proof (fastEndSpeed_closer y0 y1) as Hy.
  set (fx := fastEndSpeed x0 x1 - x0) in *. set (fy := fastEndSpeed y0 y1 - y0) in *.
  set (ex := x1 - x0) in *. set (ey := y1 - y0) in *.
  assert (Hsqx : fx * fx <= ex * ex).
  { rewrite <- (Rabs_right (fx * fx)), <- (Rabs_right (ex * ex)) by nra.
    rewrite !Rabs_mult. pose proof (Rabs_pos fx). nra. }
  assert (Hsqy : fy * fy <= ey * ey).
  { rewrite <- (Rabs_right (fy * fy)), <- (Rabs_right (ey * ey)) by nra.
    rewrite !Rabs_mult. pose proof (Rabs_pos fy). nra. }
  lra.
Qed.

Lemma minTimeFastEndSpeed_le_exact_witness :
  minTimeFastEndSpeed (mkVector 2 0) (mkVector 1 1) 3
  <= minTimeExactEndSpeed (mkVector 2 0) (mkVector 1 1) 3.
Proof. apply (minTimeFastEndSpeed_le_exact (mkVector 2 0) (mkVector 1 1) 3). lra. Defined.

End AlphaTimeExtras.
